(** * The arbitrage-finder edge function, embedded and verified

    A shallow embedding of
    [supabase/functions/arbitrage-finder/index.ts] and the properties
    its specification states about it: URL resolution, normalisation
    of upstream market payloads, the two AI invocations and the
    controller that sequences them.

    Layout:
    - [JS]: the ECMAScript values and built-ins the function uses
      (strings of UTF-16 code units, binary64 numbers, [JSON.parse],
      [parseFloat], the string methods);
    - the data model of the function and the services it calls;
    - the functions of [index.ts], under their own names;
    - the properties. *)

From Stdlib Require Import ZArith NArith List String Ascii Floats Bool Lia.
Import ListNotations.


(** * ECMAScript values and built-ins *)

Module JS.

(** ** Strings

    A JavaScript string is a sequence of UTF-16 code units. *)

Definition jsstring := list N.

(** An ASCII literal as a JavaScript string. *)
Definition lit (s : string) : jsstring :=
  map N_of_ascii (list_ascii_of_string s).

(** [a === b] on strings. *)
Fixpoint eqb (a b : jsstring) : bool :=
  match a, b with
  | [], [] => true
  | x :: a', y :: b' => N.eqb x y && eqb a' b'
  | _, _ => false
  end.

(** A string is truthy when it is not empty. *)
Definition truthy (s : jsstring) : bool :=
  match s with [] => false | _ :: _ => true end.

(** [s.startsWith(p)]. *)
Fixpoint startsWith (p s : jsstring) : bool :=
  match p, s with
  | [], _ => true
  | x :: p', y :: s' => N.eqb x y && startsWith p' s'
  | _ :: _, [] => false
  end.

(** [s.includes(p)]. *)
Fixpoint includes (p s : jsstring) : bool :=
  startsWith p s ||
  match s with
  | [] => false
  | _ :: s' => includes p s'
  end.

(** [s.split(sep)] for a one-character separator: the result is never
    empty, and an empty string gives one empty piece. *)
Fixpoint split (sep : N) (s : jsstring) : list jsstring :=
  match s with
  | [] => [[]]
  | c :: s' =>
      if N.eqb c sep then [] :: split sep s'
      else match split sep s' with
           | w :: ws => (c :: w) :: ws
           | [] => [[c]]
           end
  end.

(** [parts.join(sep)]. *)
Fixpoint join (sep : jsstring) (parts : list jsstring) : jsstring :=
  match parts with
  | [] => []
  | [w] => w
  | w :: ws => w ++ sep ++ join sep ws
  end.

(** [arr.slice(0, n)]. *)
Definition slice0 {A} (n : nat) (l : list A) : list A := firstn n l.

(** Case conversion of the ASCII letters.  [toUpperCase] leaves the
    code units outside ASCII as they are: the strings the function
    upper-cases are path segments of a parsed URL, which are ASCII. *)
Definition upper_unit (c : N) : N :=
  if (97 <=? c)%N && (c <=? 122)%N then (c - 32)%N else c.

Definition lower_unit (c : N) : N :=
  if (65 <=? c)%N && (c <=? 90)%N then (c + 32)%N else c.

Definition toUpperCase (s : jsstring) : jsstring := map upper_unit s.

(** [s.toLowerCase()].  Beyond the ASCII letters, the two code points
    whose lower case holds an ASCII letter (U+0130, which becomes [i]
    and U+0307, and the Kelvin sign U+212A, which becomes [k]) are
    mapped as ECMAScript maps them.  Every other code unit is left as
    it is: its true lower case holds no ASCII code unit, so that a
    search for an ASCII text gives the same answer. *)
Definition lower_units (c : N) : jsstring :=
  if N.eqb c 304 then [105; 775]%N
  else if N.eqb c 8490 then [107]%N
  else [lower_unit c].

Definition toLowerCase (s : jsstring) : jsstring := flat_map lower_units s.

(** [WhiteSpace] and [LineTerminator] of ECMA-262: what [trim] strips
    and what the regular-expression class [\s] matches. *)
Definition isWhiteSpace (c : N) : bool :=
  existsb (N.eqb c)
    [9; 10; 11; 12; 13; 32; 160; 5760; 8232; 8233; 8239; 8287; 12288; 65279]%N
  || ((8192 <=? c)%N && (c <=? 8202)%N).

Fixpoint trimStart (s : jsstring) : jsstring :=
  match s with
  | c :: s' => if isWhiteSpace c then trimStart s' else s
  | [] => []
  end.

Definition trimEnd (s : jsstring) : jsstring := rev (trimStart (rev s)).

(** [s.trim()]. *)
Definition trim (s : jsstring) : jsstring := trimEnd (trimStart s).

(** [s.split(/\s+/)]: the pieces between the maximal runs of white
    space.  [cur] is the piece being read, reversed; [in_run] says the
    previous code unit was white space. *)
Fixpoint split_ws_from (cur : jsstring) (in_run : bool) (s : jsstring)
  : list jsstring :=
  match s with
  | [] => [rev cur]
  | c :: s' =>
      if isWhiteSpace c then
        if in_run then split_ws_from cur true s'
        else rev cur :: split_ws_from [] true s'
      else split_ws_from (c :: cur) false s'
  end.

Definition split_ws (s : jsstring) : list jsstring := split_ws_from [] false s.

(** The global replacement that deletes every apostrophe (code unit
    39) and every double quote (code unit 34). *)
Definition isQuote (c : N) : bool := N.eqb c 39 || N.eqb c 34.

Definition removeQuotes (s : jsstring) : jsstring :=
  filter (fun c => negb (isQuote c)) s.

(** The global replacement of every dash by a space. *)
Definition dashesToSpaces (s : jsstring) : jsstring :=
  map (fun c => if N.eqb c 45 then 32%N else c) s.

(** ** Exceptions

    What a [throw] carries, as far as the function can tell: the
    built-in errors it can itself provoke, and whatever an external
    call raises ([is_error] says whether it is an [Error] instance). *)

Inductive Exn :=
| SyntaxError
| TypeError
| URIError
| Raised (is_error : bool) (message : jsstring).

Inductive Result (A : Type) :=
| Ok (a : A)
| Throw (e : Exn).

Arguments Ok {A} a.
Arguments Throw {A} e.

(** ** Numbers

    A JavaScript number is an IEEE 754 binary64 value; the arithmetic
    operators are the kernel's binary64 operations (round to nearest,
    ties to even). *)

Definition number := float.

(** [0], [-0] and [NaN] are falsy. *)
Definition num_truthy (x : number) : bool :=
  negb (PrimFloat.eqb x 0 || PrimFloat.is_nan x).

(** The binary64 value nearest to [(-1)^neg * m * 10^e10], for
    [0 <= m]: what the numeric literal with digits [m] and decimal
    exponent [e10] denotes. *)
Definition decimal_to_float (neg : bool) (m e10 : Z) : number :=
  match m with
  | Zpos _ =>
      if (0 <=? e10)%Z then
        SF2Prim (binary_normalize prec emax (cond_Zopp neg (m * 10 ^ e10)) 0 false)
      else
        let d := (10 ^ (- e10))%Z in
        let s := (Z.log2 d + 65)%Z in
        let '(q, r) := Z.div_eucl (Z.shiftl m s) d in
        SF2Prim (binary_round_aux prec emax neg q (- s) (new_location d r))
  | _ => if neg then (-0)%float else 0%float
  end.

Definition isDigit (c : N) : bool := (48 <=? c)%N && (c <=? 57)%N.

Fixpoint span_digits (s : jsstring) : jsstring * jsstring :=
  match s with
  | c :: s' =>
      if isDigit c then let (ds, r) := span_digits s' in (c :: ds, r)
      else ([], s)
  | [] => ([], [])
  end.

Definition digits_value (ds : jsstring) : Z :=
  fold_left (fun acc c => (10 * acc + (Z.of_N c - 48))%Z) ds 0%Z.

(** An optional sign: whether it is a minus, and the rest. *)
Definition read_sign (plus_too : bool) (s : jsstring) : bool * jsstring :=
  match s with
  | c :: r =>
      if N.eqb c 45 then (true, r)
      else if plus_too && N.eqb c 43 then (false, r)
      else (false, s)
  | [] => (false, [])
  end.

(** An exponent part [e], [E] followed by an optional sign and at
    least one digit: its value and the rest. *)
Definition read_exponent (s : jsstring) : option (Z * jsstring) :=
  match s with
  | c :: r =>
      if N.eqb c 101 || N.eqb c 69 then
        let (neg, r1) := read_sign true r in
        let (ds, r2) := span_digits r1 in
        match ds with
        | [] => None
        | _ :: _ => Some (cond_Zopp neg (digits_value ds), r2)
        end
      else None
  | [] => None
  end.

(** [parseFloat(s)] on a string: leading white space is skipped and
    the longest prefix that is a decimal literal is converted; [NaN]
    when there is none.  (ECMAScript lets an engine approximate a
    literal of more than 20 significant digits; the conversion here
    is the exact one.) *)
Definition parseFloat_string (s : jsstring) : number :=
  let (neg, s1) := read_sign true (trimStart s) in
  if startsWith (lit "Infinity") s1 then
    if neg then neg_infinity else infinity
  else
    let (ip, s2) := span_digits s1 in
    let (fp, s3) :=
      match s2 with
      | c :: r => if N.eqb c 46 then span_digits r else ([], s2)
      | [] => ([], [])
      end in
    match ip ++ fp with
    | [] => nan
    | ds =>
        let e := match read_exponent s3 with Some (e, _) => e | None => 0%Z end in
        decimal_to_float neg (digits_value ds) (e - Z.of_nat (List.length fp))
    end.

(** ** JSON values *)

Inductive json :=
| JNull
| JBool (b : bool)
| JNum (x : number)
| JStr (s : jsstring)
| JArr (items : list json)
| JObj (members : list (jsstring * json)).

(** A JavaScript value that came out of JSON, or [undefined]. *)
Definition value := option json.

Definition undefined : value := None.

Definition json_truthy (v : json) : bool :=
  match v with
  | JNull => false
  | JBool b => b
  | JNum x => num_truthy x
  | JStr s => truthy s
  | JArr _ | JObj _ => true
  end.

Definition val_truthy (v : value) : bool :=
  match v with Some j => json_truthy j | None => false end.

(** The member of an object under a key; of two members with one key
    the later one counts. *)
Fixpoint member (k : jsstring) (ms : list (jsstring * json)) : value :=
  match ms with
  | [] => None
  | (k', v) :: ms' =>
      match member k ms' with
      | Some w => Some w
      | None => if eqb k k' then Some v else None
      end
  end.

(** [v.k] for one of the keys the function reads (none of them is a
    property of a string, an array, a number or a boolean): a
    [TypeError] on [null]. *)
Definition get (k : jsstring) (v : json) : Result value :=
  match v with
  | JNull => Throw TypeError
  | JObj ms => Ok (member k ms)
  | _ => Ok undefined
  end.

(** [v[0]]. *)
Definition index0 (v : json) : Result value :=
  match v with
  | JNull => Throw TypeError
  | JArr items => Ok (match items with x :: _ => Some x | [] => None end)
  | JStr s => Ok (match s with c :: _ => Some (JStr [c]) | [] => None end)
  | JObj ms => Ok (member (lit "0") ms)
  | JNum _ | JBool _ => Ok undefined
  end.

(** [parseFloat(v)]: the argument is first converted to a string.  A
    number prints as a literal that reads back as itself ([-0] prints
    as [0]); an array prints its elements separated by commas, so only
    its first element can contribute digits; [null], [undefined], the
    booleans and the objects print no digit. *)
Fixpoint parseFloat_json (v : json) : number :=
  match v with
  | JNum x => if PrimFloat.eqb x 0 then 0%float else x
  | JStr s => parseFloat_string s
  | JArr (x :: _) =>
      match x with
      | JNull => nan
      | _ => parseFloat_json x
      end
  | JArr [] | JNull | JBool _ | JObj _ => nan
  end.

Definition parseFloat (v : value) : number :=
  match v with
  | Some j => parseFloat_json j
  | None => nan
  end.

(** ** [JSON.parse] *)

Definition isJsonSpace (c : N) : bool :=
  N.eqb c 32 || N.eqb c 9 || N.eqb c 10 || N.eqb c 13.

Fixpoint skip (s : jsstring) : jsstring :=
  match s with
  | c :: s' => if isJsonSpace c then skip s' else s
  | [] => []
  end.

Definition hex_val (c : N) : option N :=
  if isDigit c then Some (c - 48)%N
  else if (97 <=? c)%N && (c <=? 102)%N then Some (c - 87)%N
  else if (65 <=? c)%N && (c <=? 70)%N then Some (c - 55)%N
  else None.

Definition hex4 (a b c d : N) : option N :=
  match hex_val a, hex_val b, hex_val c, hex_val d with
  | Some x, Some y, Some z, Some w => Some (((x * 16 + y) * 16 + z) * 16 + w)%N
  | _, _, _, _ => None
  end.

(** The simple escapes after a backslash. *)
Definition escape (c : N) : option N :=
  if N.eqb c 34 || N.eqb c 92 || N.eqb c 47 then Some c
  else if N.eqb c 98 then Some 8%N
  else if N.eqb c 102 then Some 12%N
  else if N.eqb c 110 then Some 10%N
  else if N.eqb c 114 then Some 13%N
  else if N.eqb c 116 then Some 9%N
  else None.

(** The rest of a string literal after its opening quote: the string
    and what follows the closing quote. *)
Fixpoint json_string (s acc : jsstring) : option (jsstring * jsstring) :=
  match s with
  | [] => None
  | c :: r =>
      if N.eqb c 34 then Some (rev acc, r)
      else if N.eqb c 92 then
        match r with
        | e :: r' =>
            if N.eqb e 117 then
              match r' with
              | h1 :: h2 :: h3 :: h4 :: r'' =>
                  match hex4 h1 h2 h3 h4 with
                  | Some u => json_string r'' (u :: acc)
                  | None => None
                  end
              | _ => None
              end
            else
              match escape e with
              | Some u => json_string r' (u :: acc)
              | None => None
              end
        | [] => None
        end
      else if (c <? 32)%N then None
      else json_string r (c :: acc)
  end.

(** A number literal: an optional minus, an integer part without a
    leading zero, an optional fraction and an optional exponent. *)
Definition json_number (s : jsstring) : option (number * jsstring) :=
  let (neg, s1) := read_sign false s in
  let (ip, s2) := span_digits s1 in
  match ip with
  | [] => None
  | d :: ds =>
      if N.eqb d 48 && truthy ds then None
      else
        let frac :=
          match s2 with
          | c :: r =>
              if N.eqb c 46 then
                let (fp, r') := span_digits r in
                match fp with [] => None | _ :: _ => Some (fp, r') end
              else Some ([], s2)
          | [] => Some ([], [])
          end in
        match frac with
        | None => None
        | Some (fp, s3) =>
            let mant := digits_value (ip ++ fp) in
            let shift := Z.of_nat (List.length fp) in
            match s3 with
            | c :: _ =>
                if N.eqb c 101 || N.eqb c 69 then
                  match read_exponent s3 with
                  | Some (e, s4) => Some (decimal_to_float neg mant (e - shift), s4)
                  | None => None
                  end
                else Some (decimal_to_float neg mant (- shift), s3)
            | [] => Some (decimal_to_float neg mant (- shift), [])
            end
        end
  end.

(** One JSON value at the head of [s] (after white space) and the
    rest.  [fuel] bounds the nesting depth; the element loops carry a
    counter of their own. *)
Fixpoint json_value (fuel : nat) (s : jsstring) : option (json * jsstring) :=
  match fuel with
  | O => None
  | S fuel' =>
      let s := skip s in
      if startsWith (lit "null") s then Some (JNull, skipn 4 s)
      else if startsWith (lit "true") s then Some (JBool true, skipn 4 s)
      else if startsWith (lit "false") s then Some (JBool false, skipn 5 s)
      else
        match s with
        | [] => None
        | c :: r =>
            if N.eqb c 34 then
              match json_string r [] with
              | Some (str, r') => Some (JStr str, r')
              | None => None
              end
            else if N.eqb c 91 then
              if startsWith (lit "]") (skip r) then Some (JArr [], skipn 1 (skip r))
              else
                (fix elements (k : nat) (s : jsstring) (acc : list json) :=
                   match k with
                   | O => None
                   | S k' =>
                       match json_value fuel' s with
                       | Some (v, r1) =>
                           match skip r1 with
                           | c1 :: r2 =>
                               if N.eqb c1 44 then elements k' r2 (v :: acc)
                               else if N.eqb c1 93 then Some (JArr (rev (v :: acc)), r2)
                               else None
                           | [] => None
                           end
                       | None => None
                       end
                   end) (S (List.length r)) r []
            else if N.eqb c 123 then
              if startsWith (lit "}") (skip r) then Some (JObj [], skipn 1 (skip r))
              else
                (fix members (k : nat) (s : jsstring) (acc : list (jsstring * json)) :=
                   match k with
                   | O => None
                   | S k' =>
                       match skip s with
                       | q :: r1 =>
                           if N.eqb q 34 then
                             match json_string r1 [] with
                             | Some (key, r2) =>
                                 match skip r2 with
                                 | c2 :: r3 =>
                                     if N.eqb c2 58 then
                                       match json_value fuel' r3 with
                                       | Some (v, r4) =>
                                           match skip r4 with
                                           | c4 :: r5 =>
                                               if N.eqb c4 44 then members k' r5 ((key, v) :: acc)
                                               else if N.eqb c4 125 then
                                                 Some (JObj (rev ((key, v) :: acc)), r5)
                                               else None
                                           | [] => None
                                           end
                                       | None => None
                                       end
                                     else None
                                 | [] => None
                                 end
                             | None => None
                             end
                           else None
                       | [] => None
                       end
                   end) (S (List.length r)) r []
            else
              match json_number s with
              | Some (x, r') => Some (JNum x, r')
              | None => None
              end
        end
  end.

(** [JSON.parse(s)]: one value, with nothing but white space after
    it; a [SyntaxError] otherwise. *)
Definition JSON_parse (s : jsstring) : Result json :=
  match json_value (S (List.length s)) s with
  | Some (v, r) =>
      match skip r with
      | [] => Ok v
      | _ :: _ => Throw SyntaxError
      end
  | None => Throw SyntaxError
  end.


(** ** [encodeURIComponent]

    Unreserved characters stay; every other code point is written as
    the percent-escaped bytes of its UTF-8 encoding; a lone surrogate
    is a [URIError]. *)

Definition isUnreserved (c : N) : bool :=
  isDigit c
  || ((65 <=? c)%N && (c <=? 90)%N)
  || ((97 <=? c)%N && (c <=? 122)%N)
  || existsb (N.eqb c) [45; 95; 46; 33; 126; 42; 39; 40; 41]%N.

Definition hex_digit (n : N) : N :=
  if (n <? 10)%N then (n + 48)%N else (n + 55)%N.

Definition percent (byte : N) : jsstring :=
  [37%N; hex_digit (byte / 16); hex_digit (byte mod 16)].

Definition utf8 (cp : N) : list N :=
  if (cp <? 128)%N then [cp]
  else if (cp <? 2048)%N then [192 + cp / 64; 128 + cp mod 64]%N
  else if (cp <? 65536)%N then
    [224 + cp / 4096; 128 + (cp / 64) mod 64; 128 + cp mod 64]%N
  else
    [240 + cp / 262144; 128 + (cp / 4096) mod 64;
     128 + (cp / 64) mod 64; 128 + cp mod 64]%N.

Fixpoint encodeURIComponent (s : jsstring) : Result jsstring :=
  match s with
  | [] => Ok []
  | c :: r =>
      let continue (enc : jsstring) (rest : Result jsstring) :=
        match rest with
        | Ok t => Ok (enc ++ t)
        | Throw e => Throw e
        end in
      if isUnreserved c then continue [c] (encodeURIComponent r)
      else if (56320 <=? c)%N && (c <=? 57343)%N then Throw URIError
      else if (55296 <=? c)%N && (c <=? 56319)%N then
        match r with
        | d :: r' =>
            if (56320 <=? d)%N && (d <=? 57343)%N then
              continue
                (flat_map percent (utf8 ((c - 55296) * 1024 + (d - 56320) + 65536)))
                (encodeURIComponent r')
            else Throw URIError
        | [] => Throw URIError
        end
      else continue (flat_map percent (utf8 c)) (encodeURIComponent r)
  end.

(** ** A URL parser for plain absolute URLs

    The path of [scheme://authority/path?query#fragment], as written:
    what [new URL(u).pathname] is for a URL of that shape whose path
    needs no normalisation.  It serves to run the functions on
    concrete URLs; the properties are stated for any URL parser. *)

Fixpoint upto_any (stops : list N) (s : jsstring) : jsstring * jsstring :=
  match s with
  | c :: s' =>
      if existsb (N.eqb c) stops then ([], s)
      else let (a, b) := upto_any stops s' in (c :: a, b)
  | [] => ([], [])
  end.

Definition isSchemeUnit (c : N) : bool :=
  isDigit c
  || ((65 <=? c)%N && (c <=? 90)%N)
  || ((97 <=? c)%N && (c <=? 122)%N)
  || existsb (N.eqb c) [43; 45; 46]%N.

Definition plain_pathname (u : jsstring) : option jsstring :=
  let (scheme, r) := upto_any [58; 47; 63; 35]%N u in
  if truthy scheme && forallb isSchemeUnit scheme && startsWith (lit "://") r then
    let (authority, r1) := upto_any [47; 63; 35]%N (skipn 3 r) in
    if truthy authority then
      let (path, _) := upto_any [63; 35]%N r1 in
      Some (if truthy path then path else lit "/")
    else None
  else None.

End JS.

Import JS.

(** * Data model *)

Open Scope float_scope.

(** [ArbitrageMarketSource]: the two venues. *)
Inductive ArbitrageMarketSource := polymarket | kalshi.

(** The venue as the string the source compares and prints. *)
Definition source_name (p : ArbitrageMarketSource) : jsstring :=
  match p with
  | polymarket => lit "polymarket"
  | kalshi => lit "kalshi"
  end.

Record SimplifiedMarket := {
  title : jsstring;
  yesPrice : number
}.

Record SourceEventData := {
  eventTitle : jsstring;
  markets : list SimplifiedMarket;
  source : ArbitrageMarketSource
}.

(** The [rawData] the function attaches to a record it builds. *)
Record RawSourceData := {
  raw_eventTitle : jsstring;
  raw_markets : list SimplifiedMarket
}.

Record ArbitrageMarketData := {
  md_source : ArbitrageMarketSource;
  md_name : jsstring;
  md_identifier : jsstring;
  md_yesPrice : number;
  md_noPrice : number;
  md_url : jsstring;
  md_rawData : option RawSourceData
}.

(** A [polymarketData] or [kalshiData] field of an analysis: unset, a
    record the function built, or the object the agent reported as
    [matchedMarket], kept as it was parsed. *)
Inductive Slot :=
| SlotUnset
| SlotLocal (d : ArbitrageMarketData)
| SlotAgent (j : json).

(** [ArbitrageAnalysis].  The fields the function copies from the
    agent's JSON hold whatever value was parsed. *)
Record ArbitrageAnalysis := {
  isSameMarket : value;
  sameMarketConfidence : value;
  marketComparisonReasoning : value;
  polymarketData : Slot;
  kalshiData : Slot;
  arbitrage : value;
  summary : value;
  risks : value;
  recommendation : value
}.

(** The [error] text of a response: a text of the function's own, or
    the message of the error it caught. *)
Inductive ErrorText :=
| Text (s : jsstring)
| MessageOf (e : Exn).

(** Response metadata.  [requestId], [timestamp] and
    [processingTimeMs] come from the clock and the random generator
    and are left out. *)
Record Metadata := {
  meta_model : jsstring;
  meta_tokensUsed : option number;
  meta_sourceMarket : jsstring;
  meta_searchedMarket : jsstring
}.

Record ArbitrageResponse := {
  success : bool;
  data : option ArbitrageAnalysis;
  error : option ErrorText;
  metadata : option Metadata
}.

(** An HTTP response: the status and the object that is serialised as
    its body ([None] for the body-less preflight answer). *)
Record Response := {
  status : Z;
  body : option ArbitrageResponse
}.

(** [ArbitrageRequest], each field possibly missing. *)
Record ArbitrageRequest := {
  req_url : option jsstring;
  req_model : option jsstring
}.

(** What [req.json()] gives: a rejection when the body is not JSON,
    [null], or an object read as an [ArbitrageRequest] (a number, a
    string, a boolean or an array has neither field). *)
Inductive RequestJson :=
| BodyInvalid
| BodyNull
| BodyObject (requestBody : ArbitrageRequest).

(** An incoming request: its method and its body. *)
Record Request := {
  req_method : jsstring;
  req_json : RequestJson
}.

(** ** Upstream payloads

    The payloads are typed as the function reads them: a field that
    is present has the type the declarations of the function give it,
    and every field may be missing, since the function itself guards
    against missing ones. *)

(** A market of the Gamma (Polymarket) API. *)
Record GammaMarket := {
  gm_question : option jsstring;
  gm_title : option jsstring;
  gm_outcomePrices : option jsstring
}.

(** An event of the Gamma API; [ge_markets] is [None] when the field
    is missing or not an array. *)
Record GammaEvent := {
  ge_title : option jsstring;
  ge_markets : option (list GammaMarket)
}.

(** A JSON body of the Gamma API: one event, or an array of events.
    (The function treats a body that is a number, a string or a
    boolean as it treats an array when it expects an event, and as it
    treats an event when it expects an array; and a [null] body as it
    treats one that is not JSON.) *)
Inductive GammaBody :=
| GammaObject (e : GammaEvent)
| GammaArray (es : list GammaEvent).

(** What [fetch] does: it throws, or answers with a status and a body
    ([None] when [response.json()] rejects). *)
Inductive FetchOutcome :=
| FetchThrows (e : Exn)
| FetchResponse (ok : bool) (code : Z) (payload : option GammaBody).

(** A market as DFlow (Kalshi) returns it: the fields of the event
    endpoint and those of the search endpoint. *)
Record DflowMarket := {
  dm_title : option jsstring;
  dm_last_price : option number;
  dm_yes_bid : option number;
  dm_yes_ask : option number;
  dm_yesAsk : option jsstring;
  dm_yesBid : option jsstring
}.

Record DflowEvent := {
  de_markets : option (list DflowMarket)
}.

(** A DFlow response object. *)
Record DflowBody := {
  db_title : option jsstring;
  db_markets : option (list DflowMarket);
  db_events : option (list DflowEvent)
}.

(** ** AI backends *)

Inductive OutputMode := mode_text | mode_json_object.

Record Prompt := {
  systemPrompt : jsstring;
  userPrompt : jsstring
}.

Record OutputText := {
  ot_text : option jsstring
}.

Record OutputItem := {
  item_type : jsstring;
  item_content : list OutputText
}.

Record AIResponse := {
  ai_output : list OutputItem;
  ai_model : jsstring;
  ai_total_tokens : option number
}.

(** ** The environment of a request

    Everything the function calls and does not define: the platform's
    URL parser ([None] when [new URL] throws), the two prompt
    templates imported from [_shared/ai/prompts], and the answers of
    the external services to the calls of this request. *)
Record Env := {
  URL_pathname : jsstring -> option jsstring;
  searchQueryGeneratorPrompt :
    jsstring -> ArbitrageMarketSource -> ArbitrageMarketSource -> Prompt;
  arbitrageAnalysisPrompt :
    ArbitrageMarketData -> list SimplifiedMarket -> ArbitrageMarketSource -> Prompt;
  fetch : jsstring -> FetchOutcome;
  dflowRequest : jsstring -> list (jsstring * json) -> Result DflowBody;
  callOpenAIResponses :
    jsstring -> jsstring -> OutputMode -> jsstring -> Z -> Result AIResponse;
  callGrokResponses :
    jsstring -> jsstring -> OutputMode -> jsstring -> Z -> Result AIResponse
}.

(** ** Effects

    A computation may throw, and it records the external calls it
    makes, oldest first. *)

Inductive Backend := OpenAI | Grok.

Inductive Call :=
| CallFetch (url : jsstring)
| CallDflow (path : jsstring) (params : list (jsstring * json))
| CallAI (backend : Backend) (user system : jsstring) (mode : OutputMode)
    (model : jsstring) (maxTokens : Z).

Definition Trace := list Call.

Definition M (A : Type) : Type := Trace -> Result A * Trace.

Definition ret {A} (a : A) : M A := fun tr => (Ok a, tr).

Definition throw {A} (e : Exn) : M A := fun tr => (Throw e, tr).

Definition bind {A B} (m : M A) (f : A -> M B) : M B :=
  fun tr =>
    match m tr with
    | (Ok a, tr') => f a tr'
    | (Throw e, tr') => (Throw e, tr')
    end.

(** [try { m } catch (e) { h e }]. *)
Definition catch {A} (m : M A) (h : Exn -> M A) : M A :=
  fun tr =>
    match m tr with
    | (Ok a, tr') => (Ok a, tr')
    | (Throw e, tr') => h e tr'
    end.

(** A pure step that may throw. *)
Definition lift {A} (r : Result A) : M A := fun tr => (r, tr).

(** An external call: it is recorded, and it gives what the
    environment answers. *)
Definition call {A} (c : Call) (r : Result A) : M A :=
  fun tr => (r, tr ++ [c]).

Notation "x <- m ;; k" := (bind m (fun x => k))
  (at level 61, m at next level, right associativity).

(** Running a computation from the empty trace. *)
Definition run {A} (m : M A) : Result A * Trace := m [].

(** * The functions of [index.ts] *)

(** ** Constants *)

Definition GAMMA_API_URL : jsstring := lit "https://gamma-api.polymarket.com".

Definition OPENAI_MODELS : list jsstring :=
  [lit "gpt-5.2"; lit "gpt-5.1"; lit "gpt-5-nano"; lit "gpt-4.1"; lit "gpt-4.1-mini"].

(** [OPENAI_MODELS.includes(model) || model.startsWith("gpt-")] *)
Definition isOpenAIModel (model : jsstring) : bool :=
  existsb (eqb model) OPENAI_MODELS || startsWith (lit "gpt-") model.

(** ** URL parsing *)

Definition detectPlatform (url : jsstring) : option ArbitrageMarketSource :=
  let lowerUrl := toLowerCase url in
  if includes (lit "polymarket.com") lowerUrl then Some polymarket
  else if includes (lit "kalshi.com") lowerUrl then Some kalshi
  else None.

(** [urlObj.pathname.split('/').filter(p => p)] *)
Definition pathParts (pathname : jsstring) : list jsstring :=
  filter truthy (split 47 pathname).

(** [parts[i] === s] *)
Definition at_is (parts : list jsstring) (i : nat) (s : jsstring) : bool :=
  match nth_error parts i with
  | Some p => eqb p s
  | None => false
  end.

Definition extractPolymarketSlug (env : Env) (url : jsstring) : option jsstring :=
  match URL_pathname env url with
  | Some pathname =>
      let parts := pathParts pathname in
      if at_is parts 0 (lit "event") && (2 <=? List.length parts)%nat
      then nth_error parts 1
      else None
  | None => None
  end.

Definition extractKalshiTicker (env : Env) (url : jsstring) : option jsstring :=
  match URL_pathname env url with
  | Some pathname =>
      let parts := pathParts pathname in
      if (at_is parts 0 (lit "markets") || at_is parts 0 (lit "events"))
         && (2 <=? List.length parts)%nat
      then
        let ticker :=
          if (4 <=? List.length parts)%nat
          then nth_error parts (List.length parts - 1)
          else nth_error parts 1 in
        option_map toUpperCase ticker
      else None
  | None => None
  end.

(** ** Data fetching *)

(** [a || b] where [a] is a possibly missing string; also the string
    [a] itself once [a] is known to be truthy. *)
Definition str_or (a : option jsstring) (b : jsstring) : jsstring :=
  match a with
  | Some s => if truthy s then s else b
  | None => b
  end.

(** [a || b] where [a] is a possibly missing number. *)
Definition num_or (a : option number) (b : number) : number :=
  match a with
  | Some x => if num_truthy x then x else b
  | None => b
  end.

(** A possibly missing number as an operand: [undefined] is [NaN]. *)
Definition toNumber (a : option number) : number :=
  match a with
  | Some x => x
  | None => nan
  end.

Definition opt_truthy (a : option jsstring) : bool :=
  match a with
  | Some s => truthy s
  | None => false
  end.

(** The body of the loop over Gamma markets (lines 143-157, and again
    lines 243-257): the market to push, if any. *)
Definition gammaMarket (market : GammaMarket) : option SimplifiedMarket :=
  let title := str_or (gm_question market) (str_or (gm_title market) (lit "")) in
  let yesPrice :=
    match gm_outcomePrices market with
    | Some outcomePrices =>
        if truthy outcomePrices then
          match JSON_parse outcomePrices with
          | Ok prices =>
              match index0 prices with
              | Ok p0 => parseFloat p0 * 100
              | Throw _ => 50
              end
          | Throw _ => 50
          end
        else 50
    | None => 50
    end in
  if truthy title then Some {| title := title; yesPrice := yesPrice |} else None.

(** [if (x && Array.isArray(x)) for (const market of x) { ... }] with
    a body that pushes at most one market. *)
Definition marketsOf {A} (f : A -> option SimplifiedMarket) (x : option (list A))
  : list SimplifiedMarket :=
  match x with
  | Some l => flat_map (fun a => match f a with Some m => [m] | None => [] end) l
  | None => []
  end.

Definition fetchPolymarketEvent (env : Env) (slug : jsstring)
  : M (option SourceEventData) :=
  catch
    (let eventUrl := GAMMA_API_URL ++ lit "/events/slug/" ++ slug in
     response <- call (CallFetch eventUrl)
                   (match fetch env eventUrl with
                    | FetchThrows e => Throw e
                    | FetchResponse ok code payload => Ok (ok, payload)
                    end) ;;
     let '(ok, payload) := response in
     if negb ok then ret None
     else
       event <- lift (match payload with
                      | Some b => Ok b
                      | None => Throw SyntaxError
                      end) ;;
       let '(event_title, event_markets) :=
         match event with
         | GammaObject e => (ge_title e, ge_markets e)
         | GammaArray _ => (None, None)
         end in
       let markets := marketsOf gammaMarket event_markets in
       ret (Some {| eventTitle := str_or event_title (dashesToSpaces slug);
                    markets := markets;
                    source := polymarket |}))
    (fun _ => ret None).

(** The body of the loop of [fetchKalshiEvent] (lines 196-202). *)
Definition dflowEventMarket (market : DflowMarket) : option SimplifiedMarket :=
  let title := str_or (dm_title market) (lit "") in
  let yesPrice :=
    num_or (dm_last_price market)
      ((toNumber (dm_yes_bid market) + toNumber (dm_yes_ask market)) / 2) in
  if truthy title then Some {| title := title; yesPrice := yesPrice |} else None.

Definition fetchKalshiEvent (env : Env) (ticker : jsstring)
  : M (option SourceEventData) :=
  catch
    (let path := lit "/event/" ++ ticker in
     let params := [(lit "withNestedMarkets", JBool true)] in
     response <- call (CallDflow path params) (dflowRequest env path params) ;;
     let markets := marketsOf dflowEventMarket (db_markets response) in
     ret (Some {| eventTitle := str_or (db_title response) ticker;
                  markets := markets;
                  source := kalshi |}))
    (fun _ => ret None).

(** ** Search *)

Definition searchPolymarket (env : Env) (query : jsstring)
  : M (list SimplifiedMarket) :=
  catch
    (encoded <- lift (encodeURIComponent query) ;;
     let url := GAMMA_API_URL ++ lit "/events?status=open&q=" ++ encoded in
     response <- call (CallFetch url)
                   (match fetch env url with
                    | FetchThrows e => Throw e
                    | FetchResponse ok code payload => Ok (ok, payload)
                    end) ;;
     let '(ok, payload) := response in
     if negb ok then ret []
     else
       events <- lift (match payload with
                       | Some b => Ok b
                       | None => Throw SyntaxError
                       end) ;;
       ret (match events with
            | GammaArray es =>
                flat_map (fun event => marketsOf gammaMarket (ge_markets event)) es
            | GammaObject _ => []
            end))
    (fun _ => ret []).

(** The body of the inner loop of [searchKalshi] (lines 302-317). *)
Definition dflowSearchMarket (market : DflowMarket) : option SimplifiedMarket :=
  let title := str_or (dm_title market) (lit "") in
  let yesAsk := dm_yesAsk market in
  let yesBid := dm_yesBid market in
  let yesPrice :=
    if opt_truthy yesAsk && opt_truthy yesBid then
      let ask := parseFloat (option_map JStr yesAsk) in
      let bid := parseFloat (option_map JStr yesBid) in
      (ask + bid) / 2
    else if opt_truthy yesAsk then parseFloat (option_map JStr yesAsk)
    else if opt_truthy yesBid then parseFloat (option_map JStr yesBid)
    else 50 in
  if truthy title then Some {| title := title; yesPrice := yesPrice |} else None.

Definition searchKalshi (env : Env) (query : jsstring)
  : M (list SimplifiedMarket) :=
  catch
    (let params := [(lit "q", JStr query);
                    (lit "event_status", JStr (lit "open"));
                    (lit "withNestedMarkets", JBool true)] in
     response <- call (CallDflow (lit "/search") params)
                   (dflowRequest env (lit "/search") params) ;;
     ret (match db_events response with
          | Some events =>
              flat_map (fun event => marketsOf dflowSearchMarket (de_markets event))
                events
          | None => []
          end))
    (fun _ => ret []).

(** ** AI functions *)

(** The content of the items of type [message]. *)
Definition messageContent (output : list OutputItem) : list OutputText :=
  flat_map (fun item =>
              if eqb (item_type item) (lit "message") then item_content item else [])
    output.

(** [content.map(item => item.text).filter(t => t !== undefined)] *)
Definition definedTexts (content : list OutputText) : list jsstring :=
  flat_map (fun item => match ot_text item with Some t => [t] | None => [] end)
    content.

(** The clean-up of the raw completion (lines 399-401). *)
Definition cleanQuery (text : jsstring) : jsstring :=
  let cleaned := trim (removeQuotes text) in
  let words := slice0 2 (split_ws cleaned) in
  join (lit " ") words.

Definition generateSearchQuery (env : Env) (title : jsstring)
    (sourcePlatform targetPlatform : ArbitrageMarketSource) (model : jsstring)
  : M jsstring :=
  let prompt := searchQueryGeneratorPrompt env title sourcePlatform targetPlatform in
  let useOpenAI := isOpenAIModel model in
  text <-
    (if useOpenAI then
       response <- call (CallAI OpenAI (userPrompt prompt) (systemPrompt prompt)
                           mode_text model 1)
                     (callOpenAIResponses env (userPrompt prompt) (systemPrompt prompt)
                        mode_text model 1) ;;
       let content := messageContent (ai_output response) in
       ret (trim (join [] (definedTexts content)))
     else
       response <- call (CallAI Grok (userPrompt prompt) (systemPrompt prompt)
                           mode_text model 1)
                     (callGrokResponses env (userPrompt prompt) (systemPrompt prompt)
                        mode_text model 1) ;;
       let content := messageContent (ai_output response) in
       ret (trim (join [] (definedTexts content)))) ;;
  ret (cleanQuery text).

(** [sourceEvent.markets[0]?.yesPrice] *)
Definition firstYesPrice (sourceEvent : SourceEventData) : option number :=
  match markets sourceEvent with
  | m :: _ => Some (yesPrice m)
  | [] => None
  end.

(** [x || undefined] as a slot. *)
Definition agentSlot (x : value) : Slot :=
  match x with
  | Some j => if json_truthy j then SlotAgent j else SlotUnset
  | None => SlotUnset
  end.

Definition is_polymarket (p : ArbitrageMarketSource) : bool :=
  match p with polymarket => true | kalshi => false end.

Definition is_kalshi (p : ArbitrageMarketSource) : bool :=
  match p with kalshi => true | polymarket => false end.

(** What [analyzeArbitrage] returns. *)
Record Analyzed := {
  analysis : ArbitrageAnalysis;
  modelUsed : jsstring;
  tokensUsed : option number
}.

Definition analyzeArbitrage (env : Env) (sourceEvent : SourceEventData)
    (searchResults : list SimplifiedMarket) (searchPlatform : ArbitrageMarketSource)
    (model : jsstring)
  : M Analyzed :=
  let rawSourceData :=
    {| raw_eventTitle := eventTitle sourceEvent;
       raw_markets := markets sourceEvent |} in
  let sourceMarket :=
    {| md_source := source sourceEvent;
       md_name := eventTitle sourceEvent;
       md_identifier := eventTitle sourceEvent;
       md_yesPrice := num_or (firstYesPrice sourceEvent) 50;
       md_noPrice := 100 - num_or (firstYesPrice sourceEvent) 50;
       md_url := lit "";
       md_rawData := Some rawSourceData |} in
  let prompt := arbitrageAnalysisPrompt env sourceMarket searchResults searchPlatform in
  let useOpenAI := isOpenAIModel model in
  answer <-
    (if useOpenAI then
       response <- call (CallAI OpenAI (userPrompt prompt) (systemPrompt prompt)
                           mode_json_object model 3)
                     (callOpenAIResponses env (userPrompt prompt) (systemPrompt prompt)
                        mode_json_object model 3) ;;
       let content := messageContent (ai_output response) in
       ret (join [10%N] (definedTexts content), ai_model response, ai_total_tokens response)
     else
       response <- call (CallAI Grok (userPrompt prompt) (systemPrompt prompt)
                           mode_json_object model 3)
                     (callGrokResponses env (userPrompt prompt) (systemPrompt prompt)
                        mode_json_object model 3) ;;
       let content := messageContent (ai_output response) in
       ret (join [10%N] (definedTexts content), ai_model response, ai_total_tokens response)) ;;
  let '(text, modelUsed, tokensUsed) := answer in
  parsed <- lift (JSON_parse text) ;;
  p_isSameMarket <- lift (get (lit "isSameMarket") parsed) ;;
  p_sameMarketConfidence <- lift (get (lit "sameMarketConfidence") parsed) ;;
  p_marketComparisonReasoning <- lift (get (lit "marketComparisonReasoning") parsed) ;;
  p_matchedMarket <- lift (get (lit "matchedMarket") parsed) ;;
  p_arbitrage <- lift (get (lit "arbitrage") parsed) ;;
  p_summary <- lift (get (lit "summary") parsed) ;;
  p_risks <- lift (get (lit "risks") parsed) ;;
  p_recommendation <- lift (get (lit "recommendation") parsed) ;;
  let analysis :=
    {| isSameMarket := p_isSameMarket;
       sameMarketConfidence := p_sameMarketConfidence;
       marketComparisonReasoning := p_marketComparisonReasoning;
       polymarketData :=
         if is_polymarket (source sourceEvent) then SlotLocal sourceMarket
         else agentSlot p_matchedMarket;
       kalshiData :=
         if is_kalshi (source sourceEvent) then SlotLocal sourceMarket
         else agentSlot p_matchedMarket;
       arbitrage := p_arbitrage;
       summary := p_summary;
       risks := p_risks;
       recommendation := p_recommendation |} in
  ret {| analysis := analysis; modelUsed := modelUsed; tokensUsed := tokensUsed |}.

(** ** Main handler *)

(** A failure response without metadata. *)
Definition failure (code : Z) (message : jsstring) : Response :=
  {| status := code;
     body := Some {| success := false;
                     data := None;
                     error := Some (Text message);
                     metadata := None |} |}.

(** [error instanceof Error ? error.message : "An unexpected error occurred"] *)
Definition errorText (e : Exn) : ErrorText :=
  match e with
  | Raised false _ => Text (lit "An unexpected error occurred")
  | Raised true message => Text message
  | _ => MessageOf e
  end.

(** The analysis returned when the search finds nothing (lines 645-673). *)
Definition noMatchAnalysis (sourceEvent : SourceEventData)
    (sourcePlatform searchPlatform : ArbitrageMarketSource)
    (url searchQuery : jsstring) : ArbitrageAnalysis :=
  let sourceData (p : ArbitrageMarketSource) :=
    {| md_source := p;
       md_name := eventTitle sourceEvent;
       md_identifier := eventTitle sourceEvent;
       md_yesPrice := num_or (firstYesPrice sourceEvent) 50;
       md_noPrice := 100 - num_or (firstYesPrice sourceEvent) 50;
       md_url := url;
       md_rawData := Some {| raw_eventTitle := eventTitle sourceEvent;
                             raw_markets := markets sourceEvent |} |} in
  {| isSameMarket := Some (JBool false);
     sameMarketConfidence := Some (JNum 0);
     marketComparisonReasoning :=
       Some (JStr (lit "No matching markets found on " ++ source_name searchPlatform
                   ++ lit " for query " ++ [34%N] ++ searchQuery ++ [34%N]));
     polymarketData :=
       if is_polymarket sourcePlatform then SlotLocal (sourceData polymarket)
       else SlotUnset;
     kalshiData :=
       if is_kalshi sourcePlatform then SlotLocal (sourceData kalshi)
       else SlotUnset;
     arbitrage := Some (JObj [(lit "hasArbitrage", JBool false)]);
     summary :=
       Some (JStr (lit "No matching markets found on " ++ source_name searchPlatform
                   ++ lit ". Cannot determine arbitrage opportunity."));
     risks := Some (JArr [JStr (lit "No matching market found on the other platform")]);
     recommendation :=
       Some (JStr (lit "Try a different event or check if the market exists on both platforms.")) |}.

(** The not-found response (lines 605-611). *)
Definition notFound (sourcePlatform : ArbitrageMarketSource) : Response :=
  failure 404
    (lit "Could not fetch event data from " ++ source_name sourcePlatform
     ++ lit ". The event may not exist or have no markets.").

(** A success response. *)
Definition succeed (analysis : ArbitrageAnalysis) (model : jsstring)
    (tokensUsed : option number)
    (sourcePlatform searchPlatform : ArbitrageMarketSource) : Response :=
  {| status := 200;
     body := Some {| success := true;
                     data := Some analysis;
                     error := None;
                     metadata := Some
                       {| meta_model := model;
                          meta_tokensUsed := tokensUsed;
                          meta_sourceMarket := source_name sourcePlatform;
                          meta_searchedMarket := source_name searchPlatform |} |} |}.

(** The handler from the check of the fetched event on (lines 604-721). *)
Definition afterFetch (env : Env) (url model : jsstring)
    (sourcePlatform searchPlatform : ArbitrageMarketSource)
    (fetched : option SourceEventData) : M Response :=
  match fetched with
  | None => ret (notFound sourcePlatform)
  | Some sourceEvent =>
      if (List.length (markets sourceEvent) =? 0)%nat then
        ret (notFound sourcePlatform)
      else
        searchQuery <- generateSearchQuery env (eventTitle sourceEvent)
                         sourcePlatform searchPlatform model ;;
        searchResults <-
          (if is_polymarket searchPlatform
           then searchPolymarket env searchQuery
           else searchKalshi env searchQuery) ;;
        if (List.length searchResults =? 0)%nat then
          ret (succeed (noMatchAnalysis sourceEvent sourcePlatform searchPlatform
                          url searchQuery)
                 model None sourcePlatform searchPlatform)
        else
          analyzed <- analyzeArbitrage env sourceEvent searchResults
                        searchPlatform model ;;
          ret (succeed (analysis analyzed) (modelUsed analyzed) (tokensUsed analyzed)
                 sourcePlatform searchPlatform)
  end.

(** The response to an error that reaches the outer [catch]
    (lines 723-739). *)
Definition unhandled (e : Exn) : Response :=
  {| status := 500;
     body := Some {| success := false;
                     data := None;
                     error := Some (errorText e);
                     metadata := Some
                       {| meta_model := lit "unknown";
                          meta_tokensUsed := None;
                          meta_sourceMarket := lit "unknown";
                          meta_searchedMarket := lit "unknown" |} |} |}.

(** The handler passed to [Deno.serve]. *)
Definition handler (env : Env) (req : Request) : M Response :=
  if eqb (req_method req) (lit "OPTIONS") then
    ret {| status := 200; body := None |}
  else
    catch
      (if negb (eqb (req_method req) (lit "POST")) then
         ret (failure 405 (lit "Method not allowed. Use POST."))
       else
         match req_json req with
         | BodyInvalid => ret (failure 400 (lit "Invalid JSON in request body"))
         | BodyNull => throw TypeError
         | BodyObject requestBody =>
             let url := str_or (req_url requestBody) [] in
             let model := str_or (req_model requestBody) [] in
             if negb (truthy url) then
               ret (failure 400 (lit "Missing required parameter: 'url'"))
             else if negb (truthy model) then
               ret (failure 400 (lit "Missing required parameter: 'model'"))
             else
               match detectPlatform url with
               | None =>
                   ret (failure 400
                          (lit "Invalid URL. Must be a Polymarket or Kalshi market URL."))
               | Some sourcePlatform =>
                   let searchPlatform :=
                     if is_polymarket sourcePlatform then kalshi else polymarket in
                   if is_polymarket sourcePlatform then
                     let slug := extractPolymarketSlug env url in
                     if negb (opt_truthy slug) then
                       ret (failure 400
                              (lit "Could not extract event slug from Polymarket URL"))
                     else
                       sourceEvent <- fetchPolymarketEvent env (str_or slug []) ;;
                       afterFetch env url model sourcePlatform searchPlatform sourceEvent
                   else
                     let ticker := extractKalshiTicker env url in
                     if negb (opt_truthy ticker) then
                       ret (failure 400
                              (lit "Could not extract ticker from Kalshi URL"))
                     else
                       sourceEvent <- fetchKalshiEvent env (str_or ticker []) ;;
                       afterFetch env url model sourcePlatform searchPlatform sourceEvent
               end
         end)
      (fun e => ret (unhandled e)).

(** * Vocabulary of the properties *)

(** A path written from its segments. *)
Fixpoint path_of (segments : list jsstring) : jsstring :=
  match segments with
  | [] => []
  | w :: ws => 47%N :: w ++ path_of ws
  end.

(** The backend the routing rule gives a model identifier. *)
Definition selectBackend (model : jsstring) : Backend :=
  if isOpenAIModel model then OpenAI else Grok.

(** The call the Query Synthesizer makes, to backend [b]. *)
Definition queryCall (env : Env) (title : jsstring)
    (sourcePlatform targetPlatform : ArbitrageMarketSource) (model : jsstring)
    (b : Backend) : Call :=
  let prompt := searchQueryGeneratorPrompt env title sourcePlatform targetPlatform in
  CallAI b (userPrompt prompt) (systemPrompt prompt) mode_text model 1.

(** The record [analyzeArbitrage] builds for the source event
    (lines 418-433). *)
Definition sourceProjection (sourceEvent : SourceEventData) : ArbitrageMarketData :=
  {| md_source := source sourceEvent;
     md_name := eventTitle sourceEvent;
     md_identifier := eventTitle sourceEvent;
     md_yesPrice := num_or (firstYesPrice sourceEvent) 50;
     md_noPrice := 100 - num_or (firstYesPrice sourceEvent) 50;
     md_url := lit "";
     md_rawData := Some {| raw_eventTitle := eventTitle sourceEvent;
                           raw_markets := markets sourceEvent |} |}.

(** The call the Arbitrage Judge makes, to backend [b]. *)
Definition judgeCall (env : Env) (sourceEvent : SourceEventData)
    (searchResults : list SimplifiedMarket) (searchPlatform : ArbitrageMarketSource)
    (model : jsstring) (b : Backend) : Call :=
  let prompt := arbitrageAnalysisPrompt env (sourceProjection sourceEvent)
                  searchResults searchPlatform in
  CallAI b (userPrompt prompt) (systemPrompt prompt) mode_json_object model 3.

(** A call to the Arbitrage Judge: the JSON-object completion. *)
Definition isJudgeCall (c : Call) : bool :=
  match c with
  | CallAI _ _ _ mode_json_object _ _ => true
  | _ => false
  end.

(** An environment for running the functions on examples: the plain
    URL parser, prompts that carry the event title, and the given
    answers of the services. *)
Definition example_env
    (gamma : jsstring -> FetchOutcome)
    (dflow : jsstring -> Result DflowBody)
    (openai grok : OutputMode -> Result AIResponse) : Env :=
  {| URL_pathname := plain_pathname;
     searchQueryGeneratorPrompt := fun title _ _ =>
       {| systemPrompt := lit "query"; userPrompt := title |};
     arbitrageAnalysisPrompt := fun sourceMarket _ _ =>
       {| systemPrompt := lit "judge"; userPrompt := md_name sourceMarket |};
     fetch := gamma;
     dflowRequest := fun path _ => dflow path;
     callOpenAIResponses := fun _ _ mode _ _ => openai mode;
     callGrokResponses := fun _ _ mode _ _ => grok mode |}.

(** No service answers. *)
Definition offline : Env :=
  example_env (fun _ => FetchThrows (Raised true (lit "offline")))
    (fun _ => Throw (Raised true (lit "offline")))
    (fun _ => Throw (Raised true (lit "offline")))
    (fun _ => Throw (Raised true (lit "offline"))).

(** A POST request with both parameters. *)
Definition post (url model : jsstring) : Request :=
  {| req_method := lit "POST";
     req_json := BodyObject {| req_url := Some url; req_model := Some model |} |}.

(** The platform-B rule as the specification words it: the last
    segment for four segments or more, the second for exactly two,
    and a failure for every other shape. *)
Definition kalshi_rule_as_stated (env : Env) (url : jsstring) : Prop :=
  forall path first,
    URL_pathname env url = Some path ->
    hd_error (pathParts path) = Some first ->
    first = lit "markets" \/ first = lit "events" ->
    let n := List.length (pathParts path) in
    ((4 <= n)%nat ->
     extractKalshiTicker env url = Some (toUpperCase (last (pathParts path) []))) /\
    (n = 2%nat ->
     extractKalshiTicker env url = Some (toUpperCase (nth 1 (pathParts path) []))) /\
    (~ (4 <= n)%nat -> n <> 2%nat -> extractKalshiTicker env url = None).

(** The other venue. *)
Definition opposite (p : ArbitrageMarketSource) : ArbitrageMarketSource :=
  if is_polymarket p then kalshi else polymarket.

(** The identifier the handler extracts for a venue, the event it
    then fetches, and the search it runs on a venue. *)
Definition identifier (env : Env) (p : ArbitrageMarketSource) (url : jsstring)
  : option jsstring :=
  match p with
  | polymarket => extractPolymarketSlug env url
  | kalshi => extractKalshiTicker env url
  end.

Definition fetchEvent (env : Env) (p : ArbitrageMarketSource) (id : jsstring)
  : M (option SourceEventData) :=
  match p with
  | polymarket => fetchPolymarketEvent env id
  | kalshi => fetchKalshiEvent env id
  end.

Definition search (env : Env) (p : ArbitrageMarketSource) (query : jsstring)
  : M (list SimplifiedMarket) :=
  match p with
  | polymarket => searchPolymarket env query
  | kalshi => searchKalshi env query
  end.

(** The text of the malformed-URL failure for a venue. *)
Definition malformedUrl (p : ArbitrageMarketSource) : Response :=
  match p with
  | polymarket => failure 400 (lit "Could not extract event slug from Polymarket URL")
  | kalshi => failure 400 (lit "Could not extract ticker from Kalshi URL")
  end.

(** The answer of the backend the routing rule selects to the
    Judge's call. *)
Definition judgeAnswer (env : Env) (sourceEvent : SourceEventData)
    (searchResults : list SimplifiedMarket) (searchPlatform : ArbitrageMarketSource)
    (model : jsstring) : Result AIResponse :=
  let prompt := arbitrageAnalysisPrompt env (sourceProjection sourceEvent)
                  searchResults searchPlatform in
  match selectBackend model with
  | OpenAI => callOpenAIResponses env (userPrompt prompt) (systemPrompt prompt)
                mode_json_object model 3
  | Grok => callGrokResponses env (userPrompt prompt) (systemPrompt prompt)
              mode_json_object model 3
  end.

(** The response text the Judge parses. *)
Definition judgeText (response : AIResponse) : jsstring :=
  join [10%N] (definedTexts (messageContent (ai_output response))).

(** ** Example data *)

(** A string between double quotes. *)
Definition quoted (s : jsstring) : jsstring := 34%N :: s ++ [34%N].

(** A backend response that carries one text. *)
Definition says (model text : jsstring) : AIResponse :=
  {| ai_output := [{| item_type := lit "message";
                      item_content := [{| ot_text := Some text |}] |}];
     ai_model := model;
     ai_total_tokens := Some 120 |}.

(** A Polymarket event with one market quoted at 0.37. *)
Definition fed_event : GammaBody :=
  GammaObject
    {| ge_title := Some (lit "Fed decision in December?");
       ge_markets := Some
         [{| gm_question := Some (lit "Will the Fed cut rates?");
             gm_title := None;
             gm_outcomePrices :=
               Some (lit "[" ++ quoted (lit "0.37") ++ lit ", "
                     ++ quoted (lit "0.63") ++ lit "]") |}] |}.

(** A DFlow search result with one market, bid 40 and ask 44. *)
Definition fed_search : DflowBody :=
  {| db_title := None;
     db_markets := None;
     db_events := Some
       [{| de_markets := Some
             [{| dm_title := Some (lit "Fed cuts rates in December");
                 dm_last_price := None; dm_yes_bid := None; dm_yes_ask := None;
                 dm_yesAsk := Some (lit "44"); dm_yesBid := Some (lit "40") |}] |}] |}.

Definition no_events : DflowBody :=
  {| db_title := None; db_markets := None; db_events := Some [] |}.

(** Polymarket serves [fed_event]; Grok answers the query call with
    [query] and the Judge's call with [verdict]; DFlow answers
    [found]. *)
Definition fed_env (found : DflowBody) (query verdict : jsstring) : Env :=
  example_env
    (fun _ => FetchResponse true 200 (Some fed_event))
    (fun _ => Ok found)
    (fun _ => Throw (Raised true (lit "no key")))
    (fun mode => match mode with
                 | mode_text => Ok (says (lit "grok-4") query)
                 | mode_json_object => Ok (says (lit "grok-4") verdict)
                 end).

Definition fed_url : jsstring := lit "https://polymarket.com/event/fed-decision".

(** ** The query clean-up in the specification's words *)

(** The tokens of a string: its maximal runs of code units that are
    not white space.  [cur] is the run being read, reversed. *)
Fixpoint tokens_from (cur : jsstring) (s : jsstring) : list jsstring :=
  match s with
  | [] => match cur with [] => [] | _ :: _ => [rev cur] end
  | c :: s' =>
      if isWhiteSpace c then
        match cur with
        | [] => tokens_from [] s'
        | _ :: _ => rev cur :: tokens_from [] s'
        end
      else tokens_from (c :: cur) s'
  end.

Definition tokens (s : jsstring) : list jsstring := tokens_from [] s.

(** Quotes removed, white space trimmed, split into tokens, at most
    the first two kept, joined by one space. *)
Definition query_as_specified (text : jsstring) : jsstring :=
  join (lit " ") (firstn 2 (tokens (trim (removeQuotes text)))).

(** The answer of the backend the routing rule selects to the Query
    Synthesizer's call. *)
Definition queryAnswer (env : Env) (title : jsstring)
    (sourcePlatform targetPlatform : ArbitrageMarketSource) (model : jsstring)
  : Result AIResponse :=
  let prompt := searchQueryGeneratorPrompt env title sourcePlatform targetPlatform in
  match selectBackend model with
  | OpenAI => callOpenAIResponses env (userPrompt prompt) (systemPrompt prompt)
                mode_text model 1
  | Grok => callGrokResponses env (userPrompt prompt) (systemPrompt prompt)
              mode_text model 1
  end.

(** The raw completion text of a response to that call. *)
Definition queryText (response : AIResponse) : jsstring :=
  trim (join [] (definedTexts (messageContent (ai_output response)))).

(** A string without white space. *)
Definition noSpace (w : jsstring) : Prop :=
  Forall (fun c => isWhiteSpace c = false) w.

(** The last code unit of a string, if any, is not white space. *)
Fixpoint lastNotSpace (s : jsstring) : bool :=
  match s with
  | [] => true
  | [c] => negb (isWhiteSpace c)
  | _ :: s' => lastNotSpace s'
  end.

(** ** Slots of an analysis *)

(** The slot of the source venue and the slot of the other venue. *)
Definition sourceSlot (p : ArbitrageMarketSource) (a : ArbitrageAnalysis) : Slot :=
  if is_polymarket p then polymarketData a else kalshiData a.

Definition matchedSlot (p : ArbitrageMarketSource) (a : ArbitrageAnalysis) : Slot :=
  if is_polymarket p then kalshiData a else polymarketData a.

(** Every market of a sequence has a non-empty title. *)
Definition titled (l : list SimplifiedMarket) : Prop :=
  Forall (fun m => title m <> []) l.

(** ** More example data *)

(** A Gamma market with a question and the given [outcomePrices]. *)
Definition gamma_market (outcomePrices : option jsstring) : GammaMarket :=
  {| gm_question := Some (lit "Will the Fed cut rates?");
     gm_title := None;
     gm_outcomePrices := outcomePrices |}.

(** A DFlow market with a title and no price field at all. *)
Definition unpriced_market : DflowMarket :=
  {| dm_title := Some (lit "Fed cuts rates in December");
     dm_last_price := None; dm_yes_bid := None; dm_yes_ask := None;
     dm_yesAsk := None; dm_yesBid := None |}.

(** A DFlow event with that one market. *)
Definition unpriced_event : DflowBody :=
  {| db_title := Some (lit "Fed decision");
     db_markets := Some [unpriced_market];
     db_events := None |}.

(** ** Price balance *)

(** A number field of an object the agent reported; [NaN] when the
    field is missing or is not a number. *)
Definition field_number (k : jsstring) (j : json) : number :=
  match j with
  | JObj ms => match member k ms with Some (JNum x) => x | _ => nan end
  | _ => nan
  end.

(** [yesPrice + noPrice == 100] for the record in a slot, if any. *)
Definition balanced (s : Slot) : Prop :=
  match s with
  | SlotUnset => True
  | SlotLocal d => md_yesPrice d + md_noPrice d = 100
  | SlotAgent j => field_number (lit "yesPrice") j + field_number (lit "noPrice") j = 100
  end.

(** The balance invariant as the specification states it: it holds
    in both slots of every analysis the handler returns. *)
Definition balance_as_stated (env : Env) (req : Request) : Prop :=
  forall resp tr r a,
    run (handler env req) = (Ok resp, tr) ->
    body resp = Some r ->
    data r = Some a ->
    balanced (polymarketData a) /\ balanced (kalshiData a).

(** A verdict whose matched market is quoted 40 / 70. *)
Definition unbalanced_verdict : jsstring :=
  lit "{" ++ quoted (lit "isSameMarket") ++ lit ": true, "
  ++ quoted (lit "matchedMarket") ++ lit ": {"
  ++ quoted (lit "yesPrice") ++ lit ": 40, "
  ++ quoted (lit "noPrice") ++ lit ": 70}}".

(** A price on the 0-100 scale. *)
Definition on_scale (x : number) : Prop :=
  PrimFloat.leb 0 x = true /\ PrimFloat.leb x 100 = true.

(** A Polymarket event whose first market is quoted 0. *)
Definition zero_priced : SourceEventData :=
  {| eventTitle := lit "Fed decision in December?";
     markets := [{| title := lit "Will the Fed cut rates?"; yesPrice := 0 |};
                 {| title := lit "Will the Fed hold rates?"; yesPrice := 63 |}];
     source := polymarket |}.

(** ** Binary64 rounding *)

(** [m / 2^n] rounded to nearest, ties to even, as the rounding of
    SpecFloat computes it. *)
Definition rne (m n : Z) : Z :=
  round_nearest_even (m / 2 ^ n)%Z
    (loc_of_shr_record
       {| shr_m := (m / 2 ^ n)%Z;
          shr_r := Z.testbit m (n - 1)%Z;
          shr_s := negb (m mod 2 ^ (n - 1) =? 0)%Z |}).

(** The number one hundred. *)
Definition F100 : spec_float := S754_finite false 7036874417766400 (-46)%Z.

(** The model identifier a request asks for. *)
Definition ai_model_requested (req : Request) : jsstring :=
  match req_json req with
  | BodyObject requestBody => str_or (req_model requestBody) []
  | _ => []
  end.

(** ** Vocabulary of the further properties *)

(** [market.question || market.title || ''] *)
Definition gammaTitle (market : GammaMarket) : jsstring :=
  str_or (gm_question market) (str_or (gm_title market) (lit "")).

(** [market.title || ''] *)
Definition dflowTitle (market : DflowMarket) : jsstring :=
  str_or (dm_title market) (lit "").

(** The entries of a possibly missing array. *)
Definition entries {A} (x : option (list A)) : list A :=
  match x with Some l => l | None => [] end.

(** A code unit that needs no escaping in a URL query: an unreserved
    character or the percent sign. *)
Definition urlSafe (c : N) : bool := isUnreserved c || N.eqb c 37.

(** A string of UTF-16 code units. *)
Definition utf16 (s : jsstring) : Prop := Forall (fun c => (c < 65536)%N) s.

(** A word: not empty, without white space and without quote. *)
Definition word (w : jsstring) : Prop :=
  w <> [] /\ noSpace w /\ Forall (fun c => isQuote c = false) w.

(** The kinds of external calls: a request to a market-data service
    (the Gamma API or DFlow), a text completion (what the Query
    Synthesizer asks for) and a JSON-object completion (what the
    Arbitrage Judge asks for). *)
Inductive CallKind := MarketData | TextCompletion | JsonCompletion.

Definition callKind (c : Call) : CallKind :=
  match c with
  | CallAI _ _ _ mode_text _ _ => TextCompletion
  | CallAI _ _ _ mode_json_object _ _ => JsonCompletion
  | CallFetch _ | CallDflow _ _ => MarketData
  end.

(** The call an event lookup on venue [p] makes. *)
Definition lookupCall (p : ArbitrageMarketSource) (id : jsstring) : Call :=
  match p with
  | polymarket => CallFetch (GAMMA_API_URL ++ lit "/events/slug/" ++ id)
  | kalshi => CallDflow (lit "/event/" ++ id) [(lit "withNestedMarkets", JBool true)]
  end.

(** The call a search on venue [p] makes; [encoded] is the query as
    [encodeURIComponent] writes it. *)
Definition searchCall (p : ArbitrageMarketSource) (query encoded : jsstring) : Call :=
  match p with
  | polymarket =>
      CallFetch (GAMMA_API_URL ++ lit "/events?status=open&q=" ++ encoded)
  | kalshi =>
      CallDflow (lit "/search")
        [(lit "q", JStr query); (lit "event_status", JStr (lit "open"));
         (lit "withNestedMarkets", JBool true)]
  end.

(** A failure of the Gamma API: [fetch] throws, or it answers with a
    status that is no success or with a body that is not JSON. *)
Definition fetchFails (env : Env) (url : jsstring) : Prop :=
  match fetch env url with
  | FetchThrows _ => True
  | FetchResponse ok _ payload => ok = false \/ payload = None
  end.

(** A failure of the service behind a lookup and behind a search. *)
Definition lookupFails (env : Env) (p : ArbitrageMarketSource) (id : jsstring) : Prop :=
  match p with
  | polymarket => fetchFails env (GAMMA_API_URL ++ lit "/events/slug/" ++ id)
  | kalshi =>
      exists e,
        dflowRequest env (lit "/event/" ++ id) [(lit "withNestedMarkets", JBool true)]
        = Throw e
  end.

Definition searchFails (env : Env) (p : ArbitrageMarketSource)
    (query encoded : jsstring) : Prop :=
  match p with
  | polymarket =>
      encodeURIComponent query = Ok encoded
      /\ fetchFails env (GAMMA_API_URL ++ lit "/events?status=open&q=" ++ encoded)
  | kalshi =>
      exists e,
        dflowRequest env (lit "/search")
          [(lit "q", JStr query); (lit "event_status", JStr (lit "open"));
           (lit "withNestedMarkets", JBool true)] = Throw e
  end.

(** A backend response without any text: every item of type
    [message] holds only content without [text]. *)
Definition textless (response : AIResponse) : Prop :=
  forall item, In item (ai_output response) ->
    item_type item = lit "message" ->
    forall t, In t (item_content item) -> ot_text t = None.

(** The URL a request asks about. *)
Definition url_requested (req : Request) : jsstring :=
  match req_json req with
  | BodyObject requestBody => str_or (req_url requestBody) []
  | _ => []
  end.

(** The fields of an analysis about source venue [p] are those of the
    object with members [ms]: the matched market in the slot of the
    other venue, the other seven as they are. *)
Definition copiedFrom (ms : list (jsstring * json)) (p : ArbitrageMarketSource)
    (a : ArbitrageAnalysis) : Prop :=
  isSameMarket a = member (lit "isSameMarket") ms
  /\ sameMarketConfidence a = member (lit "sameMarketConfidence") ms
  /\ marketComparisonReasoning a = member (lit "marketComparisonReasoning") ms
  /\ matchedSlot p a = agentSlot (member (lit "matchedMarket") ms)
  /\ arbitrage a = member (lit "arbitrage") ms
  /\ summary a = member (lit "summary") ms
  /\ risks a = member (lit "risks") ms
  /\ recommendation a = member (lit "recommendation") ms.

(** The envelope of a response: the status is one of five; a
    response without body is the 200 of the preflight; in a body,
    [success] says whether the status is 200, [data] is present
    exactly on success, [error] exactly on failure, and [metadata] is
    missing exactly from the 400, 404 and 405 answers. *)
Definition envelope (resp : Response) : Prop :=
  In (status resp) [200; 400; 404; 405; 500]%Z /\
  match body resp with
  | None => status resp = 200%Z
  | Some r =>
      success r = (status resp =? 200)%Z
      /\ (data r <> None <-> success r = true)
      /\ (error r = None <-> success r = true)
      /\ (metadata r = None <-> status resp <> 200%Z /\ status resp <> 500%Z)
  end.

(** The discipline of the external calls of one request: they are
    the first calls of the sequence market data (the lookup), text
    completion (the query), market data (the search), JSON-object
    completion (the Judge); none when the request is refused, and one
    when the event is not found. *)
Definition callDiscipline (resp : Response) (calls : list Call) : Prop :=
  (exists rest,
     map callKind calls ++ rest
     = [MarketData; TextCompletion; MarketData; JsonCompletion])
  /\ (status resp = 400%Z \/ status resp = 405%Z -> calls = [])
  /\ (status resp = 404%Z -> List.length calls = 1%nat).

(** The calls a request about venue [p] may make after the lookup:
    the query call and the Judge's call, both for the requested model
    and to the backend the routing rule selects for it, and a search
    on the other venue. *)
Definition laterCall (env : Env) (p : ArbitrageMarketSource) (model : jsstring)
    (c : Call) : Prop :=
  (exists title, c = queryCall env title p (opposite p) model (selectBackend model))
  \/ (exists query encoded, c = searchCall (opposite p) query encoded)
  \/ (exists ev results,
        c = judgeCall env ev results (opposite p) model (selectBackend model)).

(** A text that a JSON string literal holds as it is: no double
    quote, no backslash and no control character. *)
Definition plainText (s : jsstring) : Prop :=
  Forall (fun c => c <> 34%N /\ c <> 92%N /\ (32 <= c)%N) s.

(** The [outcomePrices] text of a two-outcome market: a JSON array of
    the two prices, written as strings. *)
Definition pricePair (yes no : jsstring) : jsstring :=
  lit "[" ++ quoted yes ++ lit ", " ++ quoted no ++ lit "]".

(** ** Further example data *)

(** [fed_event] as the lookup normalises it, and the first calls of a
    request for it. *)
Definition fed_source : SourceEventData :=
  {| eventTitle := lit "Fed decision in December?";
     markets := [{| title := lit "Will the Fed cut rates?"; yesPrice := 37 |}];
     source := polymarket |}.

Definition fed_lookup : Call :=
  CallFetch (lit "https://gamma-api.polymarket.com/events/slug/fed-decision").

Definition fed_query (backend : Backend) (model : jsstring) : Call :=
  CallAI backend (lit "Fed decision in December?") (lit "query") mode_text model 1.

(** The market [fed_search] holds, as the search normalises it. *)
Definition fed_match : SimplifiedMarket :=
  {| title := lit "Fed cuts rates in December"; yesPrice := 42 |}.

(** The object [unbalanced_verdict] parses to. *)
Definition unbalanced_object : list (jsstring * json) :=
  [(lit "isSameMarket", JBool true);
   (lit "matchedMarket", JObj [(lit "yesPrice", JNum 40); (lit "noPrice", JNum 70)])].

(** A backend response with a reasoning item and a message without
    text. *)
Definition silent : AIResponse :=
  {| ai_output := [{| item_type := lit "reasoning";
                      item_content := [{| ot_text := Some (lit "thinking") |}] |};
                   {| item_type := lit "message";
                      item_content := [{| ot_text := None |}] |}];
     ai_model := lit "grok-4";
     ai_total_tokens := None |}.

(** Environments in which Polymarket serves [fed_event] and: Grok
    answers every call with [silent]; the search gateway is down; the
    Judge's backend is down. *)
Definition silent_env : Env :=
  example_env
    (fun _ => FetchResponse true 200 (Some fed_event))
    (fun _ => Ok fed_search)
    (fun _ => Throw (Raised true (lit "no key")))
    (fun _ => Ok silent).

Definition search_down : Env :=
  example_env
    (fun _ => FetchResponse true 200 (Some fed_event))
    (fun _ => Throw (Raised true (lit "offline")))
    (fun _ => Throw (Raised true (lit "no key")))
    (fun _ => Ok (says (lit "grok-4") (lit "fed rates"))).

Definition judge_down : Env :=
  example_env
    (fun _ => FetchResponse true 200 (Some fed_event))
    (fun _ => Ok fed_search)
    (fun _ => Throw (Raised true (lit "no key")))
    (fun mode => match mode with
                 | mode_text => Ok (says (lit "grok-4") (lit "fed rates"))
                 | mode_json_object => Throw (Raised true (lit "rate limited"))
                 end).

(** A Gamma search result: an event without markets and an event with
    a titled and an untitled market; and an environment whose Gamma
    API answers with it. *)
Definition gamma_results : list GammaEvent :=
  [{| ge_title := None; ge_markets := None |};
   {| ge_title := None;
      ge_markets := Some [gamma_market None;
                          {| gm_question := None; gm_title := Some (lit "");
                             gm_outcomePrices := None |}] |}].

Definition gamma_search_env : Env :=
  example_env
    (fun _ => FetchResponse true 200 (Some (GammaArray gamma_results)))
    (fun _ => Ok no_events)
    (fun _ => Ok silent)
    (fun _ => Ok silent).

(** A DFlow event with a titled and an untitled market. *)
Definition kxfed_event : DflowBody :=
  {| db_title := None;
     db_markets := Some [unpriced_market;
                         {| dm_title := Some (lit "");
                            dm_last_price := Some 12;
                            dm_yes_bid := None; dm_yes_ask := None;
                            dm_yesAsk := None; dm_yesBid := None |}];
     db_events := None |}.

(** * Properties *)

(** ** The built-ins on examples *)

Example split_path :
  split 47 (lit "/event/some-slug/") = [lit ""; lit "event"; lit "some-slug"; lit ""].
Proof. reflexivity. Qed.

Example split_ws_pieces :
  split_ws (lit "fed  rate cut") = [lit "fed"; lit "rate"; lit "cut"]
  /\ split_ws (lit "") = [lit ""]
  /\ split_ws (lit " fed ") = [lit ""; lit "fed"; lit ""].
Proof. repeat split. Qed.

Example trim_both_ends :
  trim ([160; 9]%N ++ lit " fed rate " ++ [10; 8232]%N) = lit "fed rate".
Proof. reflexivity. Qed.

Example toLowerCase_kelvin :
  toLowerCase (lit "HTTPS://" ++ [8490%N] ++ lit "ALSHI.COM") = lit "https://kalshi.com".
Proof. reflexivity. Qed.

Example JSON_parse_values :
  JSON_parse (lit "[" ++ quoted (lit "0.37") ++ lit ", 1e2, -0.5, null, {"
              ++ quoted (lit "a") ++ lit ": [true]}]")
  = Ok (JArr [JStr (lit "0.37"); JNum 100; JNum (-0.5); JNull;
              JObj [(lit "a", JArr [JBool true])]])
  /\ JSON_parse (lit "not json") = Throw SyntaxError
  /\ JSON_parse (lit "[1,]") = Throw SyntaxError
  /\ JSON_parse (lit "01") = Throw SyntaxError
  /\ JSON_parse (lit "") = Throw SyntaxError
  /\ JSON_parse (quoted (lit "aA\n")) = Ok (JStr [97; 65; 10]%N).
Proof. repeat split; vm_compute; reflexivity. Qed.

Example decimal_literals :
  parseFloat_string (lit "0.1") + parseFloat_string (lit "0.2")
  = parseFloat_string (lit "0.30000000000000004")
  /\ parseFloat_string (lit "9007199254740993") = 9007199254740992
  /\ parseFloat_string (lit "1.7976931348623157e308") * 10 = infinity
  /\ parseFloat_string (lit "5e-324") / 2 = 0.
Proof. repeat split; vm_compute; reflexivity. Qed.

Example parseFloat_prefixes :
  parseFloat_string (lit "  -12.5e1xyz") = (-125)
  /\ parseFloat_string (lit ".5") = 0.5
  /\ parseFloat_string (lit "5e+") = 5
  /\ parseFloat_string (lit "-Infinityx") = neg_infinity
  /\ PrimFloat.is_nan (parseFloat_string (lit "N/A")) = true
  /\ PrimFloat.is_nan (parseFloat undefined) = true
  /\ parseFloat (Some (JArr [JStr (lit "0.5"); JNum 7])) = 0.5.
Proof. repeat split; vm_compute; reflexivity. Qed.

Example encodeURIComponent_query :
  encodeURIComponent (lit "fed rate/cut") = Ok (lit "fed%20rate%2Fcut")
  /\ encodeURIComponent [233; 55357; 56832]%N = Ok (lit "%C3%A9%F0%9F%98%80")
  /\ encodeURIComponent [55357%N] = Throw URIError.
Proof. repeat split. Qed.

Example plain_pathname_examples :
  plain_pathname (lit "https://polymarket.com/event/some-slug/x?tid=1#a")
  = Some (lit "/event/some-slug/x")
  /\ plain_pathname (lit "https://polymarket.com") = Some (lit "/")
  /\ plain_pathname (lit "polymarket.com/event/x") = None.
Proof. repeat split. Qed.

(** ** Strings *)

Lemma eqb_refl (a : jsstring) : eqb a a = true.
Proof.
  induction a as [|x a IH]; simpl; [reflexivity|].
  now rewrite N.eqb_refl, IH.
Qed.

Lemma eqb_eq (a b : jsstring) : eqb a b = true <-> a = b.
Proof.
  split.
  - revert b; induction a as [|x a IH]; intros [|y b] H; simpl in H;
      try discriminate; [reflexivity|].
    apply andb_true_iff in H as [Hx Hab].
    apply N.eqb_eq in Hx. now rewrite Hx, (IH b Hab).
  - intros ->. apply eqb_refl.
Qed.

Lemma eqb_neq (a b : jsstring) : eqb a b = false <-> a <> b.
Proof.
  rewrite <- eqb_eq. destruct (eqb a b); split; congruence.
Qed.

Lemma truthy_nonempty (s : jsstring) : truthy s = true <-> s <> [].
Proof. destruct s; simpl; split; congruence. Qed.

Lemma existsb_eqb_In (x : jsstring) (l : list jsstring) :
  existsb (eqb x) l = true <-> In x l.
Proof.
  rewrite existsb_exists. split.
  - intros (y & Hy & E). apply eqb_eq in E. now subst.
  - intros H. exists x. split; [assumption | apply eqb_refl].
Qed.

(** The pieces of a split contain no separator. *)
Lemma split_no_sep (sep : N) (s : jsstring) :
  Forall (fun w => ~ In sep w) (split sep s).
Proof.
  induction s as [|c s IH]; simpl.
  - constructor; [intros [] | constructor].
  - destruct (N.eqb_spec c sep) as [->|Hne].
    + constructor; [intros [] | assumption].
    + destruct (split sep s) as [|w ws].
      * constructor; [|constructor]. intros [E|[]]. congruence.
      * inversion IH as [|? ? Hw Hws]; subst.
        constructor; [|assumption]. intros [E|Hin]; [congruence | auto].
Qed.

(** Splitting a joined path gives its segments back: the segments of
    [/s1/s2/.../sn] are [s1; ...; sn] when no [si] holds a slash. *)
Lemma split_app_sep (sep : N) (w s : jsstring) :
  ~ In sep w -> split sep (w ++ sep :: s) = w :: split sep s.
Proof.
  induction w as [|c w IH]; simpl; intros Hw.
  - now rewrite N.eqb_refl.
  - destruct (N.eqb_spec c sep) as [->|Hne]; [exfalso; auto|].
    rewrite IH by auto. reflexivity.
Qed.

Lemma split_single (sep : N) (w : jsstring) :
  ~ In sep w -> split sep w = [w].
Proof.
  induction w as [|c w IH]; simpl; intros Hw; [reflexivity|].
  destruct (N.eqb_spec c sep) as [->|Hne]; [exfalso; auto|].
  rewrite IH by auto. reflexivity.
Qed.

Lemma split_app_path_of (w : jsstring) (segments : list jsstring) :
  ~ In 47%N w -> Forall (fun w => ~ In 47%N w) segments ->
  split 47 (w ++ path_of segments) = w :: segments.
Proof.
  revert w. induction segments as [|w' ws IH]; intros w Hw Hall.
  - simpl. rewrite app_nil_r. now apply split_single.
  - inversion Hall as [|? ? Hw' Hws]; subst.
    simpl path_of. rewrite split_app_sep by assumption.
    now rewrite IH.
Qed.

Lemma pathParts_path_of (segments : list jsstring) :
  Forall (fun w => ~ In 47%N w /\ w <> []) segments ->
  pathParts (path_of segments) = segments.
Proof.
  intros Hall. unfold pathParts.
  change (path_of segments) with ([] ++ path_of segments).
  rewrite split_app_path_of.
  - simpl filter. apply forallb_filter_id.
    apply forallb_forall. intros x Hx.
    rewrite Forall_forall in Hall. apply truthy_nonempty. now apply Hall.
  - intros [].
  - eapply Forall_impl; [|exact Hall]. now intros a [H _].
Qed.

(** The path segments the functions look at are never empty. *)
Lemma pathParts_nonempty (pathname : jsstring) :
  Forall (fun w => w <> []) (pathParts pathname).
Proof.
  unfold pathParts. apply Forall_forall. intros w Hw.
  apply filter_In in Hw as [_ Hw]. now apply truthy_nonempty.
Qed.

(** ** The effect monad *)

Lemma bind_ok {A B} (m : M A) (f : A -> M B) tr a tr' :
  m tr = (Ok a, tr') -> bind m f tr = f a tr'.
Proof. unfold bind. now intros ->. Qed.

Lemma bind_throw {A B} (m : M A) (f : A -> M B) tr e tr' :
  m tr = (Throw e, tr') -> bind m f tr = (Throw e, tr').
Proof. unfold bind. now intros ->. Qed.

Lemma catch_ok {A} (m : M A) h tr a tr' :
  m tr = (Ok a, tr') -> catch m h tr = (Ok a, tr').
Proof. unfold catch. now intros ->. Qed.

Lemma catch_throw {A} (m : M A) h tr e tr' :
  m tr = (Throw e, tr') -> catch m h tr = h e tr'.
Proof. unfold catch. now intros ->. Qed.

(** ** Model routing *)

Lemma isOpenAIModel_iff (model : jsstring) :
  isOpenAIModel model = true <->
  In model OPENAI_MODELS \/ startsWith (lit "gpt-") model = true.
Proof.
  unfold isOpenAIModel. now rewrite orb_true_iff, existsb_eqb_In.
Qed.

(** Every identifier of the allow-list bears the prefix. *)
Lemma OPENAI_MODELS_prefixed :
  Forall (fun m => startsWith (lit "gpt-") m = true) OPENAI_MODELS.
Proof. repeat constructor. Qed.

Lemma generateSearchQuery_call env title sp tp model tr :
  exists r,
    generateSearchQuery env title sp tp model tr
    = (r, tr ++ [queryCall env title sp tp model (selectBackend model)]).
Proof.
  unfold generateSearchQuery, queryCall, selectBackend, bind, call, ret.
  destruct (isOpenAIModel model).
  - destruct (callOpenAIResponses env _ _ _ _ _); eexists; reflexivity.
  - destruct (callGrokResponses env _ _ _ _ _); eexists; reflexivity.
Qed.

Lemma analyzeArbitrage_call env ev results sp model tr :
  exists r,
    analyzeArbitrage env ev results sp model tr
    = (r, tr ++ [judgeCall env ev results sp model (selectBackend model)]).
Proof.
  unfold analyzeArbitrage, judgeCall, sourceProjection, selectBackend,
    bind, call, ret, lift.
  destruct (isOpenAIModel model).
  - destruct (callOpenAIResponses env _ _ _ _ _); simpl; [|eexists; reflexivity].
    destruct (JSON_parse _) as [parsed|]; [|eexists; reflexivity].
    destruct parsed; simpl; eexists; reflexivity.
  - destruct (callGrokResponses env _ _ _ _ _); simpl; [|eexists; reflexivity].
    destruct (JSON_parse _) as [parsed|]; [|eexists; reflexivity].
    destruct parsed; simpl; eexists; reflexivity.
Qed.

(** C5.  Backend A (OpenAI) is selected exactly for the model
    identifiers that are in the allow-list or start with the prefix
    [gpt-], and backend B (Grok) for every other one; the Query
    Synthesizer and the Arbitrage Judge each make one call, to the
    backend this one rule selects. *)
Theorem C5_model_routing (model : jsstring) :
  (selectBackend model = OpenAI <->
   In model OPENAI_MODELS \/ startsWith (lit "gpt-") model = true) /\
  (selectBackend model = Grok <->
   ~ In model OPENAI_MODELS /\ startsWith (lit "gpt-") model = false) /\
  (forall env title sp tp tr, exists r,
     generateSearchQuery env title sp tp model tr
     = (r, tr ++ [queryCall env title sp tp model (selectBackend model)])) /\
  (forall env ev results sp tr, exists r,
     analyzeArbitrage env ev results sp model tr
     = (r, tr ++ [judgeCall env ev results sp model (selectBackend model)])).
Proof.
  split; [|split; [|split]].
  - rewrite <- isOpenAIModel_iff. unfold selectBackend.
    destruct (isOpenAIModel model); split; congruence.
  - unfold selectBackend.
    pose proof (isOpenAIModel_iff model) as H.
    destruct (isOpenAIModel model).
    + split; [discriminate|]. intros [Hn Hp].
      destruct (proj1 H eq_refl) as [Hin|Hpre]; [contradiction | congruence].
    + split; [intros _ | reflexivity].
      split.
      * intros Hin. assert (false = true) by (apply H; now left). discriminate.
      * destruct (startsWith (lit "gpt-") model) eqn:E; [|reflexivity].
        assert (false = true) by (apply H; now right). discriminate.
  - intros. apply generateSearchQuery_call.
  - intros. apply analyzeArbitrage_call.
Qed.

(** ** URL resolution *)

Lemma at_is_hd (parts : list jsstring) (s : jsstring) :
  at_is parts 0 s = true <-> hd_error parts = Some s.
Proof.
  unfold at_is. destruct parts as [|p ps]; simpl.
  - split; discriminate.
  - rewrite eqb_eq. split; congruence.
Qed.

Lemma nth_error_last {A} (l : list A) (d : A) :
  l <> [] -> nth_error l (List.length l - 1) = Some (last l d).
Proof.
  induction l as [|a l IH]; [congruence|]. intros _.
  destruct l as [|b l]; [reflexivity|].
  replace (List.length (a :: b :: l) - 1)%nat with (S (List.length (b :: l) - 1))
    by (simpl; lia).
  simpl nth_error. simpl in IH. rewrite IH by discriminate. reflexivity.
Qed.

Lemma nth_error_nth_default {A} (l : list A) (n : nat) (d : A) :
  (n < List.length l)%nat -> nth_error l n = Some (nth n l d).
Proof.
  revert n; induction l as [|a l IH]; intros [|n] H; simpl in *;
    try lia; [reflexivity|]. apply IH. lia.
Qed.

Lemma toUpperCase_nonempty (s : jsstring) : s <> [] -> toUpperCase s <> [].
Proof. destruct s; [congruence | discriminate]. Qed.

(** The ticker of a platform-B URL, by the number of path segments
    under [markets] or [events]. *)
Lemma extractKalshiTicker_under env url path first :
  URL_pathname env url = Some path ->
  hd_error (pathParts path) = Some first ->
  first = lit "markets" \/ first = lit "events" ->
  let parts := pathParts path in
  ((4 <= List.length parts)%nat ->
   extractKalshiTicker env url = Some (toUpperCase (last parts []))) /\
  ((2 <= List.length parts <= 3)%nat ->
   extractKalshiTicker env url = Some (toUpperCase (nth 1 parts []))) /\
  ((List.length parts < 2)%nat -> extractKalshiTicker env url = None).
Proof.
  intros Hpath Hhd Hfirst parts. unfold extractKalshiTicker. rewrite Hpath.
  fold parts.
  assert (Hunder : at_is parts 0 (lit "markets") || at_is parts 0 (lit "events") = true).
  { apply orb_true_iff. destruct Hfirst; subst first; [left | right];
      now apply at_is_hd. }
  rewrite Hunder. cbn [andb].
  split; [|split]; intros Hn.
  - destruct (Nat.leb_spec 2 (List.length parts)); [|lia].
    destruct (Nat.leb_spec 4 (List.length parts)); [|lia].
    rewrite (nth_error_last parts []); [reflexivity|].
    intros E. rewrite E in Hn. simpl in Hn. lia.
  - destruct (Nat.leb_spec 2 (List.length parts)); [|lia].
    destruct (Nat.leb_spec 4 (List.length parts)); [lia|].
    rewrite (nth_error_nth_default parts 1 []) by lia. reflexivity.
  - destruct (Nat.leb_spec 2 (List.length parts)); [lia|]. reflexivity.
Qed.

Lemma extractKalshiTicker_elsewhere env url path :
  URL_pathname env url = Some path ->
  hd_error (pathParts path) <> Some (lit "markets") ->
  hd_error (pathParts path) <> Some (lit "events") ->
  extractKalshiTicker env url = None.
Proof.
  intros Hpath Hm He. unfold extractKalshiTicker. rewrite Hpath.
  destruct (at_is (pathParts path) 0 (lit "markets")) eqn:E1.
  { apply at_is_hd in E1. contradiction. }
  destruct (at_is (pathParts path) 0 (lit "events")) eqn:E2.
  { apply at_is_hd in E2. contradiction. }
  reflexivity.
Qed.

Lemma extractKalshiTicker_unparsable env url :
  URL_pathname env url = None -> extractKalshiTicker env url = None.
Proof. intros H. unfold extractKalshiTicker. now rewrite H. Qed.

(** C4, as the code has it.  For a platform-B (Kalshi) URL whose path
    starts with [markets] or [events]: with four segments or more the
    ticker is the last segment upper-cased; with two or three segments
    it is the second segment upper-cased.  The extraction fails when
    the path has fewer than two segments, when its first segment is
    neither [markets] nor [events], and when the URL does not parse. *)
Theorem C4_kalshi_ticker (env : Env) (url : jsstring) :
  (forall path first,
     URL_pathname env url = Some path ->
     hd_error (pathParts path) = Some first ->
     first = lit "markets" \/ first = lit "events" ->
     let parts := pathParts path in
     ((4 <= List.length parts)%nat ->
      extractKalshiTicker env url = Some (toUpperCase (last parts []))) /\
     ((2 <= List.length parts <= 3)%nat ->
      extractKalshiTicker env url = Some (toUpperCase (nth 1 parts []))) /\
     ((List.length parts < 2)%nat -> extractKalshiTicker env url = None)) /\
  (forall path,
     URL_pathname env url = Some path ->
     hd_error (pathParts path) <> Some (lit "markets") ->
     hd_error (pathParts path) <> Some (lit "events") ->
     extractKalshiTicker env url = None) /\
  (URL_pathname env url = None -> extractKalshiTicker env url = None).
Proof.
  split; [|split].
  - intros path first. apply extractKalshiTicker_under.
  - intros path. apply extractKalshiTicker_elsewhere.
  - apply extractKalshiTicker_unparsable.
Qed.

(** The four shapes of C4 on concrete URLs. *)
Lemma C4_kalshi_ticker_witness :
  extractKalshiTicker offline (lit "https://kalshi.com/markets/kxfed/fed-decision/kxfed-25dec")
  = Some (lit "KXFED-25DEC")
  /\ extractKalshiTicker offline (lit "https://kalshi.com/events/kxfed-25dec")
     = Some (lit "KXFED-25DEC")
  /\ extractKalshiTicker offline (lit "https://kalshi.com/markets/kxfed/fed-decision")
     = Some (lit "KXFED")
  /\ extractKalshiTicker offline (lit "https://kalshi.com/browse/kxfed") = None
  /\ extractKalshiTicker offline (lit "kalshi.com/markets/kxfed") = None.
Proof.
  split; [|split; [|split; [|split]]].
  - apply (proj1 (C4_kalshi_ticker offline
                    (lit "https://kalshi.com/markets/kxfed/fed-decision/kxfed-25dec"))
             (lit "/markets/kxfed/fed-decision/kxfed-25dec") (lit "markets")
             eq_refl eq_refl (or_introl eq_refl)).
    vm_compute. lia.
  - apply (proj1 (C4_kalshi_ticker offline (lit "https://kalshi.com/events/kxfed-25dec"))
             (lit "/events/kxfed-25dec") (lit "events")
             eq_refl eq_refl (or_intror eq_refl)).
    vm_compute. lia.
  - apply (proj1 (C4_kalshi_ticker offline
                    (lit "https://kalshi.com/markets/kxfed/fed-decision"))
             (lit "/markets/kxfed/fed-decision") (lit "markets")
             eq_refl eq_refl (or_introl eq_refl)).
    vm_compute. lia.
  - apply (proj1 (proj2 (C4_kalshi_ticker offline (lit "https://kalshi.com/browse/kxfed")))
             (lit "/browse/kxfed") eq_refl);
      vm_compute; discriminate.
  - apply (proj2 (proj2 (C4_kalshi_ticker offline (lit "kalshi.com/markets/kxfed")))).
    reflexivity.
Defined.

(** C4, as stated, fails on a three-segment path: the code falls back
    to the second segment instead of failing. *)
Lemma C4_three_segments_counterexample :
  ~ kalshi_rule_as_stated offline (lit "https://kalshi.com/markets/kxfed/fed-decision").
Proof.
  intros H.
  destruct (H (lit "/markets/kxfed/fed-decision") (lit "markets")
              eq_refl eq_refl (or_introl eq_refl)) as (_ & _ & Hfail).
  assert (E : extractKalshiTicker offline
                (lit "https://kalshi.com/markets/kxfed/fed-decision") = None).
  { apply Hfail; vm_compute; lia. }
  vm_compute in E. discriminate.
Qed.

Lemma detectPlatform_polymarket (url : jsstring) :
  includes (lit "polymarket.com") (toLowerCase url) = true ->
  detectPlatform url = Some polymarket.
Proof. intros H. unfold detectPlatform. now rewrite H. Qed.

Lemma detectPlatform_nonempty (url : jsstring) (p : ArbitrageMarketSource) :
  detectPlatform url = Some p -> url <> [].
Proof. intros H ->. vm_compute in H. discriminate. Qed.

Lemma extractPolymarketSlug_event env url path slug rest :
  URL_pathname env url = Some path ->
  pathParts path = lit "event" :: slug :: rest ->
  extractPolymarketSlug env url = Some slug.
Proof.
  intros Hpath Hparts. unfold extractPolymarketSlug.
  rewrite Hpath, Hparts. reflexivity.
Qed.

Lemma extractPolymarketSlug_no_slug env url path :
  URL_pathname env url = Some path ->
  (forall i, nth_error (pathParts path) i = Some (lit "event") ->
             nth_error (pathParts path) (S i) = None) ->
  extractPolymarketSlug env url = None.
Proof.
  intros Hpath Hno. unfold extractPolymarketSlug. rewrite Hpath.
  destruct (at_is (pathParts path) 0 (lit "event")) eqn:E; [|reflexivity].
  unfold at_is in E.
  destruct (nth_error (pathParts path) 0) as [p0|] eqn:E0; [|discriminate].
  apply eqb_eq in E. subst p0.
  specialize (Hno 0%nat E0).
  destruct (pathParts path) as [|a [|b l]]; simpl in *; try reflexivity; discriminate.
Qed.

Lemma extractPolymarketSlug_unparsable env url :
  URL_pathname env url = None -> extractPolymarketSlug env url = None.
Proof. intros H. unfold extractPolymarketSlug. now rewrite H. Qed.

(** An extracted identifier is never empty. *)
Lemma identifier_nonempty env p url id :
  identifier env p url = Some id -> id <> [].
Proof.
  destruct p; simpl.
  - unfold extractPolymarketSlug.
    destruct (URL_pathname env url) as [path|]; [|discriminate].
    destruct (_ && _); [|discriminate]. intros H.
    apply nth_error_In in H.
    pose proof (pathParts_nonempty path) as Hall.
    rewrite Forall_forall in Hall. now apply Hall.
  - unfold extractKalshiTicker.
    destruct (URL_pathname env url) as [path|]; [|discriminate].
    destruct (_ && _); [|discriminate].
    pose proof (pathParts_nonempty path) as Hall.
    rewrite Forall_forall in Hall.
    destruct (4 <=? _)%nat;
      match goal with
      | |- option_map _ ?o = _ -> _ => destruct o as [seg|] eqn:E
      end; simpl; try discriminate;
      intros [= <-]; apply toUpperCase_nonempty, Hall; eapply nth_error_In; eassumption.
Qed.

(** ** The handler, step by step *)

Lemma str_or_truthy (s : jsstring) : s <> [] -> str_or (Some s) [] = s.
Proof. destruct s; [congruence | reflexivity]. Qed.

(** A request that passes validation and whose URL resolves goes on
    to fetch the event of that identifier on that venue. *)
Lemma handler_resolved env url model p id tr :
  model <> [] ->
  detectPlatform url = Some p ->
  identifier env p url = Some id ->
  handler env (post url model) tr
  = catch (sourceEvent <- fetchEvent env p id ;;
           afterFetch env url model p (opposite p) sourceEvent)
      (fun e => ret (unhandled e)) tr.
Proof.
  intros Hmodel Hp Hid.
  pose proof (detectPlatform_nonempty _ _ Hp) as Hurl.
  pose proof (identifier_nonempty _ _ _ _ Hid) as Hne.
  unfold handler. cbn [post req_method req_json req_url req_model].
  change (eqb (lit "POST") (lit "OPTIONS")) with false.
  change (eqb (lit "POST") (lit "POST")) with true. cbn [negb].
  rewrite !str_or_truthy by assumption.
  apply truthy_nonempty in Hurl as ->. apply truthy_nonempty in Hmodel as ->.
  cbn [negb]. rewrite Hp.
  destruct p; simpl in Hid; cbn [is_polymarket]; rewrite Hid; cbn [opt_truthy];
    apply truthy_nonempty in Hne as Ht; rewrite Ht; cbn [negb];
    rewrite str_or_truthy by (now apply truthy_nonempty); reflexivity.
Qed.

(** A request that passes validation and whose URL names a venue but
    yields no identifier is answered 400, without any external call
    and without an exception. *)
Lemma handler_malformed env url model p tr :
  model <> [] ->
  detectPlatform url = Some p ->
  identifier env p url = None ->
  handler env (post url model) tr = (Ok (malformedUrl p), tr).
Proof.
  intros Hmodel Hp Hid.
  pose proof (detectPlatform_nonempty _ _ Hp) as Hurl.
  unfold handler. cbn [post req_method req_json req_url req_model].
  change (eqb (lit "POST") (lit "OPTIONS")) with false.
  change (eqb (lit "POST") (lit "POST")) with true. cbn [negb].
  rewrite !str_or_truthy by assumption.
  apply truthy_nonempty in Hurl as ->. apply truthy_nonempty in Hmodel as ->.
  cbn [negb]. rewrite Hp.
  destruct p; simpl in Hid; cbn [is_polymarket]; rewrite Hid; reflexivity.
Qed.

(** C6.  A URL that names platform A (Polymarket) and whose path is
    [/event/{slug}], with or without further segments, resolves to
    that platform and to [slug], and the handler goes on to fetch the
    event [slug] there.  When no path segment follows a segment
    [event], or when the URL does not parse, the extraction gives
    nothing and the handler answers 400 with the malformed-URL error
    instead of throwing. *)
Theorem C6_polymarket_slug (env : Env) (url : jsstring) :
  (includes (lit "polymarket.com") (toLowerCase url) = true ->
   detectPlatform url = Some polymarket) /\
  (forall path slug rest,
     URL_pathname env url = Some path ->
     pathParts path = lit "event" :: slug :: rest ->
     extractPolymarketSlug env url = Some slug /\
     (forall model tr,
        model <> [] -> detectPlatform url = Some polymarket ->
        handler env (post url model) tr
        = catch (sourceEvent <- fetchPolymarketEvent env slug ;;
                 afterFetch env url model polymarket kalshi sourceEvent)
            (fun e => ret (unhandled e)) tr)) /\
  (forall path,
     URL_pathname env url = Some path ->
     (forall i, nth_error (pathParts path) i = Some (lit "event") ->
                nth_error (pathParts path) (S i) = None) ->
     extractPolymarketSlug env url = None) /\
  (URL_pathname env url = None -> extractPolymarketSlug env url = None) /\
  (forall model tr,
     model <> [] -> detectPlatform url = Some polymarket ->
     extractPolymarketSlug env url = None ->
     handler env (post url model) tr
     = (Ok (failure 400 (lit "Could not extract event slug from Polymarket URL")), tr)).
Proof.
  split; [|split; [|split; [|split]]].
  - apply detectPlatform_polymarket.
  - intros path slug rest Hpath Hparts.
    pose proof (extractPolymarketSlug_event env url path slug rest Hpath Hparts) as Hslug.
    split; [assumption|]. intros model tr Hmodel Hp.
    exact (handler_resolved env url model polymarket slug tr Hmodel Hp Hslug).
  - intros path. apply extractPolymarketSlug_no_slug.
  - apply extractPolymarketSlug_unparsable.
  - intros model tr Hmodel Hp Hnone.
    exact (handler_malformed env url model polymarket tr Hmodel Hp Hnone).
Qed.

(** C6 on concrete URLs: a slug with a trailing segment and a query
    string, a path without slug, and a string that is no URL. *)
Lemma C6_polymarket_slug_witness :
  detectPlatform (lit "https://Polymarket.com/event/fed-decision/will-cut?tid=1")
  = Some polymarket
  /\ extractPolymarketSlug offline
       (lit "https://Polymarket.com/event/fed-decision/will-cut?tid=1")
     = Some (lit "fed-decision")
  /\ run (handler offline (post (lit "https://polymarket.com/markets/event") (lit "grok-4")))
     = (Ok (failure 400 (lit "Could not extract event slug from Polymarket URL")), [])
  /\ run (handler offline (post (lit "polymarket.com/event/x") (lit "grok-4")))
     = (Ok (failure 400 (lit "Could not extract event slug from Polymarket URL")), []).
Proof.
  split; [|split; [|split]].
  - apply (proj1 (C6_polymarket_slug offline
                    (lit "https://Polymarket.com/event/fed-decision/will-cut?tid=1"))).
    reflexivity.
  - apply (proj1 (proj2 (C6_polymarket_slug offline
                    (lit "https://Polymarket.com/event/fed-decision/will-cut?tid=1")))
             (lit "/event/fed-decision/will-cut") (lit "fed-decision") [lit "will-cut"]);
      reflexivity.
  - apply (proj2 (proj2 (proj2 (proj2 (C6_polymarket_slug offline
                    (lit "https://polymarket.com/markets/event")))))).
    + discriminate.
    + reflexivity.
    + apply (proj1 (proj2 (proj2 (C6_polymarket_slug offline
                    (lit "https://polymarket.com/markets/event"))))
               (lit "/markets/event") eq_refl).
      intros [|[|[|i]]]; vm_compute; congruence.
  - apply (proj2 (proj2 (proj2 (proj2 (C6_polymarket_slug offline
                    (lit "polymarket.com/event/x")))))).
    + discriminate.
    + reflexivity.
    + apply (proj1 (proj2 (proj2 (proj2 (C6_polymarket_slug offline
                    (lit "polymarket.com/event/x")))))).
      reflexivity.
Defined.

(** ** External calls of the pipeline *)

Lemma fetchEvent_total env p id tr :
  exists r c, fetchEvent env p id tr = (Ok r, tr ++ [c]) /\ isJudgeCall c = false.
Proof.
  destruct p; simpl.
  - unfold fetchPolymarketEvent, catch, bind, call, lift, ret.
    destruct (fetch env _) as [e|ok code payload].
    + eexists _, _. split; reflexivity.
    + destruct ok; cbn [negb]; [|eexists _, _; split; reflexivity].
      destruct payload as [[ev|es]|]; eexists _, _; split; reflexivity.
  - unfold fetchKalshiEvent, catch, bind, call, ret.
    destruct (dflowRequest env _ _); eexists _, _; split; reflexivity.
Qed.

Lemma search_total env p query tr :
  exists r calls,
    search env p query tr = (Ok r, tr ++ calls) /\ existsb isJudgeCall calls = false.
Proof.
  destruct p; simpl.
  - unfold searchPolymarket, catch, bind, call, lift, ret.
    destruct (encodeURIComponent query) as [encoded|e].
    + destruct (fetch env _) as [e|ok code payload].
      * eexists _, [_]. split; reflexivity.
      * destruct ok; cbn [negb]; [|eexists _, [_]; split; reflexivity].
        destruct payload as [[ev|es]|]; eexists _, [_]; split; reflexivity.
    + exists [], []. now rewrite app_nil_r.
  - unfold searchKalshi, catch, bind, call, ret.
    destruct (dflowRequest env _ _); eexists _, [_]; split; reflexivity.
Qed.

Lemma existsb_isJudgeCall_app (a b : list Call) :
  existsb isJudgeCall a = false -> existsb isJudgeCall b = false ->
  existsb isJudgeCall (a ++ b) = false.
Proof. intros Ha Hb. now rewrite existsb_app, Ha, Hb. Qed.

Lemma afterFetch_search env url model p ev tr :
  afterFetch env url model p (opposite p) (Some ev) tr
  = (if (List.length (markets ev) =? 0)%nat then ret (notFound p)
     else
       searchQuery <- generateSearchQuery env (eventTitle ev) p (opposite p) model ;;
       searchResults <- search env (opposite p) searchQuery ;;
       if (List.length searchResults =? 0)%nat then
         ret (succeed (noMatchAnalysis ev p (opposite p) url searchQuery)
                model None p (opposite p))
       else
         analyzed <- analyzeArbitrage env ev searchResults (opposite p) model ;;
         ret (succeed (analysis analyzed) (modelUsed analyzed) (tokensUsed analyzed)
                p (opposite p))) tr.
Proof. destruct p; reflexivity. Qed.

Lemma length_eqb_0 {A} (l : list A) : l <> [] -> (List.length l =? 0)%nat = false.
Proof. destruct l; [congruence | reflexivity]. Qed.

(** ** Early exit *)

(** C3.  When the source event is fetched with at least one market,
    the query is synthesized and the search on the other venue finds
    no candidate, the handler answers 200 with [success: true],
    [isSameMarket: false], [sameMarketConfidence: 0] and
    [arbitrage.hasArbitrage: false], and no call to the Arbitrage
    Judge (the JSON-object completion) is among the external calls of
    the request. *)
Theorem C3_early_exit env url model p id ev query tr1 tr2 tr3 :
  model <> [] ->
  detectPlatform url = Some p ->
  identifier env p url = Some id ->
  fetchEvent env p id [] = (Ok (Some ev), tr1) ->
  markets ev <> [] ->
  generateSearchQuery env (eventTitle ev) p (opposite p) model tr1 = (Ok query, tr2) ->
  search env (opposite p) query tr2 = (Ok [], tr3) ->
  exists a meta,
    run (handler env (post url model))
    = (Ok {| status := 200;
             body := Some {| success := true; data := Some a;
                             error := None; metadata := Some meta |} |}, tr3)
    /\ isSameMarket a = Some (JBool false)
    /\ sameMarketConfidence a = Some (JNum 0)
    /\ arbitrage a = Some (JObj [(lit "hasArbitrage", JBool false)])
    /\ existsb isJudgeCall tr3 = false.
Proof.
  intros Hmodel Hp Hid Hfetch Hmarkets Hquery Hsearch.
  exists (noMatchAnalysis ev p (opposite p) url query). eexists.
  split; [|split; [|split; [|split]]]; try reflexivity.
  - unfold run. rewrite (handler_resolved env url model p id [] Hmodel Hp Hid).
    apply catch_ok. rewrite (bind_ok _ _ _ _ _ Hfetch).
    rewrite afterFetch_search, (length_eqb_0 _ Hmarkets).
    rewrite (bind_ok _ _ _ _ _ Hquery), (bind_ok _ _ _ _ _ Hsearch).
    reflexivity.
  - destruct (fetchEvent_total env p id []) as (r1 & c1 & E1 & J1).
    rewrite Hfetch in E1. injection E1 as _ ->.
    destruct (generateSearchQuery_call env (eventTitle ev) p (opposite p) model [c1])
      as (r2 & E2).
    rewrite Hquery in E2. injection E2 as _ ->.
    destruct (search_total env (opposite p) query
                ([c1] ++ [queryCall env (eventTitle ev) p (opposite p) model
                            (selectBackend model)]))
      as (r3 & calls & E3 & J3).
    simpl app in E3. rewrite Hsearch in E3. injection E3 as _ ->.
    simpl. rewrite J1. exact J3.
Qed.

(** C3 on a Polymarket event for which the Kalshi search finds
    nothing: the only AI call of the request is the query call. *)
Lemma C3_early_exit_witness :
  exists a meta,
    run (handler (fed_env no_events (lit "fed rates") (lit "{}")) (post fed_url (lit "grok-4")))
    = (Ok {| status := 200;
             body := Some {| success := true; data := Some a;
                             error := None; metadata := Some meta |} |},
       [CallFetch (lit "https://gamma-api.polymarket.com/events/slug/fed-decision");
        CallAI Grok (lit "Fed decision in December?") (lit "query") mode_text (lit "grok-4") 1;
        CallDflow (lit "/search")
          [(lit "q", JStr (lit "fed rates"));
           (lit "event_status", JStr (lit "open"));
           (lit "withNestedMarkets", JBool true)]])
    /\ isSameMarket a = Some (JBool false)
    /\ sameMarketConfidence a = Some (JNum 0)
    /\ arbitrage a = Some (JObj [(lit "hasArbitrage", JBool false)])
    /\ existsb isJudgeCall
         [CallFetch (lit "https://gamma-api.polymarket.com/events/slug/fed-decision");
          CallAI Grok (lit "Fed decision in December?") (lit "query") mode_text (lit "grok-4") 1;
          CallDflow (lit "/search")
            [(lit "q", JStr (lit "fed rates"));
             (lit "event_status", JStr (lit "open"));
             (lit "withNestedMarkets", JBool true)]] = false.
Proof.
  apply (C3_early_exit (fed_env no_events (lit "fed rates") (lit "{}")) fed_url (lit "grok-4")
           polymarket (lit "fed-decision")
           {| eventTitle := lit "Fed decision in December?";
              markets := [{| title := lit "Will the Fed cut rates?"; yesPrice := 37 |}];
              source := polymarket |}
           (lit "fed rates")
           [CallFetch (lit "https://gamma-api.polymarket.com/events/slug/fed-decision")]
           [CallFetch (lit "https://gamma-api.polymarket.com/events/slug/fed-decision");
            CallAI Grok (lit "Fed decision in December?") (lit "query") mode_text
              (lit "grok-4") 1]).
  - discriminate.
  - reflexivity.
  - reflexivity.
  - vm_compute. reflexivity.
  - discriminate.
  - vm_compute. reflexivity.
  - vm_compute. reflexivity.
Defined.

(** ** The Arbitrage Judge *)

Lemma JSON_parse_throws (s : jsstring) (e : Exn) :
  JSON_parse s = Throw e -> e = SyntaxError.
Proof.
  unfold JSON_parse.
  destruct (json_value _ s) as [[v r]|]; [destruct (skip r)|]; congruence.
Qed.

(** What the Judge does with the answer of its backend. *)
Lemma analyzeArbitrage_answer env ev results sp model tr :
  analyzeArbitrage env ev results sp model tr
  = (answer <- call (judgeCall env ev results sp model (selectBackend model))
                 (judgeAnswer env ev results sp model) ;;
     parsed <- lift (JSON_parse (judgeText answer)) ;;
     matched <- lift (get (lit "matchedMarket") parsed) ;;
     ret {| analysis :=
              {| isSameMarket := member (lit "isSameMarket")
                                   (match parsed with JObj ms => ms | _ => [] end);
                 sameMarketConfidence := member (lit "sameMarketConfidence")
                                   (match parsed with JObj ms => ms | _ => [] end);
                 marketComparisonReasoning := member (lit "marketComparisonReasoning")
                                   (match parsed with JObj ms => ms | _ => [] end);
                 polymarketData :=
                   if is_polymarket (source ev) then SlotLocal (sourceProjection ev)
                   else agentSlot matched;
                 kalshiData :=
                   if is_kalshi (source ev) then SlotLocal (sourceProjection ev)
                   else agentSlot matched;
                 arbitrage := member (lit "arbitrage")
                                (match parsed with JObj ms => ms | _ => [] end);
                 summary := member (lit "summary")
                              (match parsed with JObj ms => ms | _ => [] end);
                 risks := member (lit "risks")
                            (match parsed with JObj ms => ms | _ => [] end);
                 recommendation := member (lit "recommendation")
                                     (match parsed with JObj ms => ms | _ => [] end) |};
            modelUsed := ai_model answer;
            tokensUsed := ai_total_tokens answer |}) tr.
Proof.
  unfold analyzeArbitrage, judgeAnswer, judgeCall, judgeText, sourceProjection,
    selectBackend, bind, call, ret, lift.
  destruct (isOpenAIModel model).
  - destruct (callOpenAIResponses env _ _ _ _ _); [|reflexivity].
    destruct (JSON_parse _) as [parsed|]; [|reflexivity].
    destruct parsed; reflexivity.
  - destruct (callGrokResponses env _ _ _ _ _); [|reflexivity].
    destruct (JSON_parse _) as [parsed|]; [|reflexivity].
    destruct parsed; reflexivity.
Qed.

Lemma analyzeArbitrage_unparsable env ev results sp model response tr :
  judgeAnswer env ev results sp model = Ok response ->
  (forall v, JSON_parse (judgeText response) <> Ok v) ->
  analyzeArbitrage env ev results sp model tr
  = (Throw SyntaxError, tr ++ [judgeCall env ev results sp model (selectBackend model)]).
Proof.
  intros Hanswer Hbad. rewrite analyzeArbitrage_answer.
  unfold bind, call, lift. rewrite Hanswer.
  destruct (JSON_parse (judgeText response)) as [v|e] eqn:E.
  - now destruct (Hbad v).
  - now rewrite (JSON_parse_throws _ _ E).
Qed.

(** C7.  When the request reaches the Arbitrage Judge and the text
    its backend returns does not parse as JSON, the handler answers
    500 with [success: false] and no [data]. *)
Theorem C7_malformed_agent_json env url model p id ev query results response tr1 tr2 tr3 :
  model <> [] ->
  detectPlatform url = Some p ->
  identifier env p url = Some id ->
  fetchEvent env p id [] = (Ok (Some ev), tr1) ->
  markets ev <> [] ->
  generateSearchQuery env (eventTitle ev) p (opposite p) model tr1 = (Ok query, tr2) ->
  search env (opposite p) query tr2 = (Ok results, tr3) ->
  results <> [] ->
  judgeAnswer env ev results (opposite p) model = Ok response ->
  (forall v, JSON_parse (judgeText response) <> Ok v) ->
  exists meta,
    run (handler env (post url model))
    = (Ok {| status := 500;
             body := Some {| success := false; data := None;
                             error := Some (MessageOf SyntaxError);
                             metadata := Some meta |} |},
       tr3 ++ [judgeCall env ev results (opposite p) model (selectBackend model)]).
Proof.
  intros Hmodel Hp Hid Hfetch Hmarkets Hquery Hsearch Hresults Hanswer Hbad.
  eexists. unfold run.
  rewrite (handler_resolved env url model p id [] Hmodel Hp Hid).
  rewrite (catch_throw _ _ [] SyntaxError
             (tr3 ++ [judgeCall env ev results (opposite p) model (selectBackend model)]));
    [reflexivity|].
  rewrite (bind_ok _ _ _ _ _ Hfetch).
  rewrite afterFetch_search, (length_eqb_0 _ Hmarkets).
  rewrite (bind_ok _ _ _ _ _ Hquery), (bind_ok _ _ _ _ _ Hsearch).
  rewrite (length_eqb_0 _ Hresults).
  apply bind_throw.
  now apply analyzeArbitrage_unparsable with (response := response).
Qed.

(** C7 on a request whose Judge answers with prose. *)
Lemma C7_malformed_agent_json_witness :
  exists meta,
    run (handler (fed_env fed_search (lit "fed rates") (lit "Sorry, I cannot help."))
           (post fed_url (lit "grok-4")))
    = (Ok {| status := 500;
             body := Some {| success := false; data := None;
                             error := Some (MessageOf SyntaxError);
                             metadata := Some meta |} |},
       [CallFetch (lit "https://gamma-api.polymarket.com/events/slug/fed-decision");
        CallAI Grok (lit "Fed decision in December?") (lit "query") mode_text (lit "grok-4") 1;
        CallDflow (lit "/search")
          [(lit "q", JStr (lit "fed rates"));
           (lit "event_status", JStr (lit "open"));
           (lit "withNestedMarkets", JBool true)]]
       ++ [CallAI Grok (lit "Fed decision in December?") (lit "judge") mode_json_object
             (lit "grok-4") 3]).
Proof.
  apply (C7_malformed_agent_json
           (fed_env fed_search (lit "fed rates") (lit "Sorry, I cannot help."))
           fed_url (lit "grok-4") polymarket (lit "fed-decision")
           {| eventTitle := lit "Fed decision in December?";
              markets := [{| title := lit "Will the Fed cut rates?"; yesPrice := 37 |}];
              source := polymarket |}
           (lit "fed rates")
           [{| title := lit "Fed cuts rates in December"; yesPrice := 42 |}]
           (says (lit "grok-4") (lit "Sorry, I cannot help."))
           [CallFetch (lit "https://gamma-api.polymarket.com/events/slug/fed-decision")]
           [CallFetch (lit "https://gamma-api.polymarket.com/events/slug/fed-decision");
            CallAI Grok (lit "Fed decision in December?") (lit "query") mode_text
              (lit "grok-4") 1]).
  - discriminate.
  - reflexivity.
  - reflexivity.
  - vm_compute. reflexivity.
  - discriminate.
  - vm_compute. reflexivity.
  - vm_compute. reflexivity.
  - discriminate.
  - reflexivity.
  - intros v. vm_compute. discriminate.
Defined.

(** ** The query clean-up *)

(** [trim] and [split] keep the code units of their argument. *)
Lemma trimStart_Forall (P : N -> Prop) (s : jsstring) :
  Forall P s -> Forall P (trimStart s).
Proof.
  induction s as [|c s IH]; intros H; simpl; [constructor|].
  destruct (isWhiteSpace c); [|assumption].
  apply IH. now inversion H.
Qed.

Lemma trim_Forall (P : N -> Prop) (s : jsstring) :
  Forall P s -> Forall P (trim s).
Proof.
  intros H. unfold trim, trimEnd.
  apply Forall_rev, trimStart_Forall, Forall_rev, trimStart_Forall, H.
Qed.

Lemma split_ws_from_Forall (P : N -> Prop) (s cur : jsstring) (in_run : bool) :
  Forall P cur -> Forall P s -> Forall (Forall P) (split_ws_from cur in_run s).
Proof.
  revert cur in_run. induction s as [|c s IH]; intros cur in_run Hcur Hs; simpl.
  - constructor; [now apply Forall_rev | constructor].
  - inversion Hs as [|? ? Hc Hs']; subst.
    destruct (isWhiteSpace c).
    + destruct in_run.
      * now apply IH.
      * constructor; [now apply Forall_rev | apply IH; [constructor | assumption]].
    + apply IH; [now constructor | assumption].
Qed.

Lemma join_Forall (P : N -> Prop) (sep : jsstring) (parts : list jsstring) :
  Forall P sep -> Forall (Forall P) parts -> Forall P (join sep parts).
Proof.
  intros Hsep. induction parts as [|w ws IH]; intros H; simpl; [constructor|].
  inversion H as [|? ? Hw Hws]; subst.
  destruct ws as [|w' ws']; [assumption|].
  apply Forall_app. split; [assumption|].
  apply Forall_app. split; [assumption | now apply IH].
Qed.

Lemma firstn_Forall {A} (P : A -> Prop) (n : nat) (l : list A) :
  Forall P l -> Forall P (firstn n l).
Proof.
  revert l. induction n as [|n IH]; intros l H; simpl; [constructor|].
  destruct l as [|a l]; [constructor|].
  inversion H; subst. constructor; [assumption | now apply IH].
Qed.

Lemma removeQuotes_noQuote (s : jsstring) :
  Forall (fun c => isQuote c = false) (removeQuotes s).
Proof.
  unfold removeQuotes. apply Forall_forall. intros c Hc.
  apply filter_In in Hc as [_ Hc]. now apply negb_true_iff.
Qed.

(** The pieces of [split_ws] hold no white space. *)
Lemma split_ws_from_noSpace (s cur : jsstring) (in_run : bool) :
  noSpace cur -> Forall noSpace (split_ws_from cur in_run s).
Proof.
  revert cur in_run. induction s as [|c s IH]; intros cur in_run Hcur; simpl.
  - constructor; [now apply Forall_rev | constructor].
  - destruct (isWhiteSpace c) eqn:E.
    + destruct in_run.
      * now apply IH.
      * constructor; [now apply Forall_rev | apply IH; constructor].
    + apply IH. now constructor.
Qed.

(** The tokens are the non-empty pieces. *)
Lemma tokens_from_split_ws (s cur : jsstring) :
  tokens_from cur s = filter truthy (split_ws_from cur false s)
  /\ tokens_from [] s = filter truthy (split_ws_from [] true s).
Proof.
  revert cur. induction s as [|c s IH]; intros cur; simpl.
  - split; [|reflexivity].
    destruct cur as [|d cur]; [reflexivity|].
    assert (H : truthy (rev (d :: cur)) = true).
    { apply truthy_nonempty. simpl. intros E. now apply app_eq_nil in E as [_ E]. }
    now rewrite H.
  - destruct (isWhiteSpace c).
    + split; [|apply (proj2 (IH []))].
      destruct cur as [|d cur]; simpl; [apply (proj2 (IH []))|].
      assert (H : truthy (rev cur ++ [d]) = true).
      { apply truthy_nonempty. intros E. now apply app_eq_nil in E as [_ E]. }
      rewrite H. f_equal. apply (proj2 (IH [])).
    + split; [apply (proj1 (IH (c :: cur))) | apply (proj1 (IH [c]))].
Qed.

Lemma tokens_split_ws (s : jsstring) : tokens s = filter truthy (split_ws s).
Proof. apply tokens_from_split_ws. Qed.

(** On a string that neither starts nor ends with white space, every
    piece of [split_ws] is a token. *)
Lemma split_ws_from_truthy (s cur : jsstring) (in_run : bool) :
  (in_run = false -> cur <> []) ->
  (s = [] -> in_run = false) ->
  lastNotSpace s = true ->
  Forall (fun w => truthy w = true) (split_ws_from cur in_run s).
Proof.
  revert cur in_run. induction s as [|c s IH]; intros cur in_run Hcur Hend Hlast; simpl.
  - constructor; [|constructor]. apply truthy_nonempty.
    specialize (Hcur (Hend eq_refl)). intros E. apply Hcur.
    apply (f_equal (@rev N)) in E. now rewrite rev_involutive in E.
  - assert (Hlast' : lastNotSpace s = true).
    { destruct s; [reflexivity | exact Hlast]. }
    destruct (isWhiteSpace c) eqn:Ec.
    + assert (Hs : s <> []).
      { intros ->. simpl in Hlast. rewrite Ec in Hlast. discriminate. }
      destruct in_run.
      * apply IH; [discriminate | now intros E | assumption].
      * constructor.
        -- apply truthy_nonempty. specialize (Hcur eq_refl). intros E. apply Hcur.
           apply (f_equal (@rev N)) in E. now rewrite rev_involutive in E.
        -- apply IH; [discriminate | now intros E | assumption].
    + apply IH; [discriminate | reflexivity | assumption].
Qed.

Lemma trimStart_head (s : jsstring) :
  match trimStart s with
  | [] => True
  | c :: _ => isWhiteSpace c = false
  end.
Proof.
  induction s as [|c s IH]; simpl; [exact I|].
  destruct (isWhiteSpace c) eqn:E; [assumption | exact E].
Qed.

Lemma lastNotSpace_snoc (s : jsstring) (c : N) :
  lastNotSpace (s ++ [c]) = negb (isWhiteSpace c).
Proof.
  induction s as [|d s IH]; [reflexivity|].
  simpl app. destruct (s ++ [c]) eqn:E.
  - now apply app_eq_nil in E as [_ E].
  - exact IH.
Qed.

Lemma trimEnd_last (s : jsstring) : lastNotSpace (trimEnd s) = true.
Proof.
  unfold trimEnd. pose proof (trimStart_head (rev s)) as H.
  destruct (trimStart (rev s)) as [|c r]; [reflexivity|].
  simpl rev. rewrite lastNotSpace_snoc, H. reflexivity.
Qed.

Lemma trimStart_snoc (s : jsstring) (c : N) :
  isWhiteSpace c = false -> exists w, trimStart (s ++ [c]) = w ++ [c].
Proof.
  intros Hc. induction s as [|d s IH]; simpl.
  - rewrite Hc. now exists [].
  - destruct (isWhiteSpace d); [exact IH | now exists (d :: s)].
Qed.

Lemma trimEnd_head (c : N) (s : jsstring) :
  isWhiteSpace c = false -> exists w, trimEnd (c :: s) = c :: w.
Proof.
  intros Hc. unfold trimEnd. simpl rev.
  destruct (trimStart_snoc (rev s) c Hc) as [w ->].
  exists (rev w). now rewrite rev_app_distr.
Qed.

(** A trimmed string is empty, or starts and ends with a code unit
    that is not white space. *)
Lemma trim_shape (s : jsstring) :
  trim s = []
  \/ exists c w, trim s = c :: w /\ isWhiteSpace c = false /\ lastNotSpace (c :: w) = true.
Proof.
  unfold trim. pose proof (trimStart_head s) as H.
  destruct (trimStart s) as [|c r]; [now left|].
  right. destruct (trimEnd_head c r H) as [w E].
  exists c, w. split; [exact E|]. split; [exact H|].
  rewrite <- E. apply trimEnd_last.
Qed.

(** On a trimmed string the regular-expression split gives the
    tokens, except that the empty string gives one empty piece. *)
Lemma split_ws_trim (s : jsstring) :
  (trim s = [] /\ split_ws (trim s) = [[]] /\ tokens (trim s) = [])
  \/ (trim s <> [] /\ split_ws (trim s) = tokens (trim s)).
Proof.
  destruct (trim_shape s) as [E | (c & w & E & Hc & Hlast)].
  - left. rewrite E. repeat split.
  - right. rewrite E. split; [discriminate|].
    rewrite tokens_split_ws. symmetry. apply forallb_filter_id.
    apply forallb_forall. apply Forall_forall.
    unfold split_ws. simpl. rewrite Hc.
    apply split_ws_from_truthy; [discriminate | reflexivity|].
    destruct w; [reflexivity | exact Hlast].
Qed.

Lemma cleanQuery_as_specified (text : jsstring) :
  cleanQuery text = query_as_specified text.
Proof.
  unfold cleanQuery, query_as_specified, slice0.
  destruct (split_ws_trim (removeQuotes text)) as [(E & Hs & Ht) | (_ & Hs)].
  - rewrite Hs, Ht. reflexivity.
  - now rewrite Hs.
Qed.

(** Splitting what was joined from at most two space-free words. *)
Lemma split_ws_from_word (w cur : jsstring) :
  noSpace w -> split_ws_from cur false w = [rev cur ++ w].
Proof.
  revert cur. induction w as [|c w IH]; intros cur Hw; simpl.
  - now rewrite app_nil_r.
  - inversion Hw as [|? ? Hc Hw']; subst. rewrite Hc, IH by assumption.
    simpl. now rewrite <- app_assoc.
Qed.

Lemma split_ws_from_run_word (w : jsstring) :
  noSpace w -> split_ws_from [] true w = [w].
Proof.
  destruct w as [|c w]; [reflexivity|]. intros Hw.
  inversion Hw as [|? ? Hc Hw']; subst. simpl. rewrite Hc.
  now rewrite split_ws_from_word.
Qed.

Lemma split_ws_from_two (w1 w2 cur : jsstring) :
  noSpace w1 -> noSpace w2 ->
  split_ws_from cur false (w1 ++ 32%N :: w2) = [rev cur ++ w1; w2].
Proof.
  revert cur. induction w1 as [|c w IH]; intros cur H1 H2.
  - simpl. rewrite app_nil_r. f_equal. now apply split_ws_from_run_word.
  - inversion H1 as [|? ? Hc Hw]; subst.
    change ((c :: w) ++ 32%N :: w2) with (c :: (w ++ 32%N :: w2)).
    simpl split_ws_from. rewrite Hc, IH by assumption.
    simpl. now rewrite <- app_assoc.
Qed.

Lemma tokens_join_firstn2 (pieces : list jsstring) :
  Forall noSpace pieces ->
  (List.length (tokens (join (lit " ") (firstn 2 pieces))) <= 2)%nat.
Proof.
  intros H. rewrite tokens_split_ws. unfold split_ws.
  destruct pieces as [|w1 [|w2 rest]].
  - simpl. lia.
  - inversion H; subst. simpl firstn. simpl join.
    rewrite split_ws_from_word by assumption. simpl. destruct (truthy w1); simpl; lia.
  - inversion H as [|? ? H1 H']; subst. inversion H' as [|? ? H2 _]; subst.
    change (join (lit " ") (firstn 2 (w1 :: w2 :: rest))) with (w1 ++ 32%N :: w2).
    rewrite split_ws_from_two by assumption.
    simpl. destruct (truthy w1), (truthy w2); simpl; lia.
Qed.

Lemma generateSearchQuery_answer env title sp tp model response tr :
  queryAnswer env title sp tp model = Ok response ->
  generateSearchQuery env title sp tp model tr
  = (Ok (cleanQuery (queryText response)),
     tr ++ [queryCall env title sp tp model (selectBackend model)]).
Proof.
  unfold queryAnswer, generateSearchQuery, queryCall, queryText, selectBackend,
    bind, call, ret.
  destruct (isOpenAIModel model); intros ->; reflexivity.
Qed.

(** C8.  The query the Synthesizer returns is its backend's raw
    completion text with the quote characters (apostrophe and double
    quote) removed, white space trimmed, split on white space, cut to
    the first two tokens and joined by one space; so it holds at most
    two white-space-separated words and no quote character. *)
Theorem C8_query_cleanup :
  (forall env title sp tp model response tr,
     queryAnswer env title sp tp model = Ok response ->
     generateSearchQuery env title sp tp model tr
     = (Ok (cleanQuery (queryText response)),
        tr ++ [queryCall env title sp tp model (selectBackend model)])) /\
  (forall text,
     cleanQuery text = query_as_specified text
     /\ (List.length (tokens (cleanQuery text)) <= 2)%nat
     /\ Forall (fun c => isQuote c = false) (cleanQuery text)).
Proof.
  split; [exact generateSearchQuery_answer|].
  intros text. split; [apply cleanQuery_as_specified|]. split.
  - unfold cleanQuery, slice0. apply tokens_join_firstn2.
    apply split_ws_from_noSpace. constructor.
  - unfold cleanQuery, slice0. apply join_Forall.
    + repeat constructor.
    + apply firstn_Forall, split_ws_from_Forall; [constructor|].
      apply trim_Forall, removeQuotes_noQuote.
Qed.

(** C8 on a completion of three quoted words. *)
Lemma C8_query_cleanup_witness :
  generateSearchQuery (fed_env no_events (quoted (lit "Fed  rate cut")) (lit "{}"))
    (lit "Fed decision in December?") polymarket kalshi (lit "grok-4") []
  = (Ok (lit "Fed rate"),
     [CallAI Grok (lit "Fed decision in December?") (lit "query") mode_text (lit "grok-4") 1]).
Proof.
  apply (proj1 C8_query_cleanup
           (fed_env no_events (quoted (lit "Fed  rate cut")) (lit "{}"))
           (lit "Fed decision in December?") polymarket kalshi (lit "grok-4")
           (says (lit "grok-4") (quoted (lit "Fed  rate cut"))) []).
  reflexivity.
Defined.

(** ** Normalisation of upstream markets *)

Lemma str_or_empty (a : option jsstring) (b : jsstring) :
  str_or a b = [] -> opt_truthy a = false /\ b = [].
Proof.
  destruct a as [[|c s]|]; simpl; intros H; try discriminate; now split.
Qed.

Lemma str_or_falsy (a : option jsstring) (b : jsstring) :
  opt_truthy a = false -> str_or a b = b.
Proof. destruct a as [[|c s]|]; simpl; intros H; try discriminate; reflexivity. Qed.

(** A market is pushed exactly when it has a title, which is then the
    title of the pushed market. *)
Lemma gammaMarket_title (market : GammaMarket) :
  match gammaMarket market with
  | Some m =>
      title m <> []
      /\ title m = str_or (gm_question market) (str_or (gm_title market) [])
  | None =>
      opt_truthy (gm_question market) = false /\ opt_truthy (gm_title market) = false
  end.
Proof.
  unfold gammaMarket.
  destruct (truthy (str_or (gm_question market) (str_or (gm_title market) (lit ""))))
    eqn:E.
  - cbn [title]. split; [now apply truthy_nonempty | reflexivity].
  - destruct (str_or (gm_question market) (str_or (gm_title market) (lit ""))) eqn:E';
      [|discriminate].
    apply str_or_empty in E' as [Hq E']. apply str_or_empty in E' as [Ht _].
    now split.
Qed.

Lemma dflowEventMarket_title (market : DflowMarket) :
  match dflowEventMarket market with
  | Some m => title m <> [] /\ dm_title market = Some (title m)
  | None => opt_truthy (dm_title market) = false
  end.
Proof.
  unfold dflowEventMarket.
  destruct (dm_title market) as [[|c t]|]; simpl; try reflexivity.
  split; [discriminate | reflexivity].
Qed.

Lemma dflowSearchMarket_title (market : DflowMarket) :
  match dflowSearchMarket market with
  | Some m => title m <> [] /\ dm_title market = Some (title m)
  | None => opt_truthy (dm_title market) = false
  end.
Proof.
  unfold dflowSearchMarket.
  destruct (dm_title market) as [[|c t]|]; simpl; try reflexivity.
  split; [discriminate | reflexivity].
Qed.

Lemma marketsOf_titled {A} (f : A -> option SimplifiedMarket) (x : option (list A)) :
  (forall a m, f a = Some m -> title m <> []) -> titled (marketsOf f x).
Proof.
  intros Hf. unfold titled, marketsOf. destruct x as [l|]; [|constructor].
  apply Forall_forall. intros m Hm.
  apply in_flat_map in Hm as (a & _ & Hm).
  destruct (f a) as [m'|] eqn:E; [|contradiction].
  destruct Hm as [<-|[]]. now apply (Hf a).
Qed.

Lemma gammaMarket_titled a m : gammaMarket a = Some m -> title m <> [].
Proof. intros E. pose proof (gammaMarket_title a) as H. rewrite E in H. apply H. Qed.

Lemma dflowEventMarket_titled a m : dflowEventMarket a = Some m -> title m <> [].
Proof. intros E. pose proof (dflowEventMarket_title a) as H. rewrite E in H. apply H. Qed.

Lemma dflowSearchMarket_titled a m : dflowSearchMarket a = Some m -> title m <> [].
Proof. intros E. pose proof (dflowSearchMarket_title a) as H. rewrite E in H. apply H. Qed.

Lemma flat_map_titled {A} (f : A -> list SimplifiedMarket) (l : list A) :
  (forall a, titled (f a)) -> titled (flat_map f l).
Proof.
  intros Hf. unfold titled in *. apply Forall_forall. intros m Hm.
  apply in_flat_map in Hm as (a & _ & Hm).
  specialize (Hf a). rewrite Forall_forall in Hf. now apply Hf.
Qed.

Lemma fetchPolymarketEvent_titled env slug tr :
  exists r c,
    fetchPolymarketEvent env slug tr = (Ok r, tr ++ [c])
    /\ forall ev, r = Some ev -> titled (markets ev) /\ source ev = polymarket.
Proof.
  unfold fetchPolymarketEvent, catch, bind, call, lift, ret.
  destruct (fetch env _) as [e|ok code payload].
  - eexists _, _. split; [reflexivity | discriminate].
  - destruct ok; cbn [negb]; [|eexists _, _; split; [reflexivity | discriminate]].
    destruct payload as [[ev|es]|];
      (eexists _, _; split; [reflexivity|]); try discriminate;
      intros ? [= <-]; cbn [markets source]; (split; [|reflexivity]).
    + apply marketsOf_titled, gammaMarket_titled.
    + constructor.
Qed.

Lemma fetchKalshiEvent_titled env ticker tr :
  exists r c,
    fetchKalshiEvent env ticker tr = (Ok r, tr ++ [c])
    /\ forall ev, r = Some ev -> titled (markets ev) /\ source ev = kalshi.
Proof.
  unfold fetchKalshiEvent, catch, bind, call, ret.
  destruct (dflowRequest env _ _) as [response|e];
    (eexists _, _; split; [reflexivity|]); try discriminate.
  intros ? [= <-]; cbn [markets source]. split; [|reflexivity].
  apply marketsOf_titled, dflowEventMarket_titled.
Qed.

Lemma searchPolymarket_titled env query tr :
  exists r calls, searchPolymarket env query tr = (Ok r, tr ++ calls) /\ titled r.
Proof.
  unfold searchPolymarket, catch, bind, call, lift, ret.
  destruct (encodeURIComponent query) as [encoded|e].
  - destruct (fetch env _) as [e|ok code payload].
    + eexists _, [_]. split; [reflexivity | constructor].
    + destruct ok; cbn [negb]; [|eexists _, [_]; split; [reflexivity | constructor]].
      destruct payload as [[ev|es]|];
        (eexists _, [_]; split; [reflexivity|]); try constructor.
      apply flat_map_titled. intros event.
      apply marketsOf_titled, gammaMarket_titled.
  - exists [], []. rewrite app_nil_r. split; [reflexivity | constructor].
Qed.

Lemma searchKalshi_titled env query tr :
  exists r calls, searchKalshi env query tr = (Ok r, tr ++ calls) /\ titled r.
Proof.
  unfold searchKalshi, catch, bind, call, ret.
  destruct (dflowRequest env _ _) as [response|e];
    (eexists _, [_]; split; [reflexivity|]); try constructor.
  destruct (db_events response) as [events|]; [|constructor].
  apply flat_map_titled. intros event.
  apply marketsOf_titled, dflowSearchMarket_titled.
Qed.

(** C10.  Each of the four normalising operations returns (it never
    throws), and every market it returns has a non-empty title: an
    upstream market is pushed exactly when its question or title is
    present and not empty, and is dropped otherwise. *)
Theorem C10_titles_nonempty :
  (forall env slug tr, exists r c,
     fetchPolymarketEvent env slug tr = (Ok r, tr ++ [c])
     /\ forall ev, r = Some ev -> titled (markets ev)) /\
  (forall env ticker tr, exists r c,
     fetchKalshiEvent env ticker tr = (Ok r, tr ++ [c])
     /\ forall ev, r = Some ev -> titled (markets ev)) /\
  (forall env query tr, exists r calls,
     searchPolymarket env query tr = (Ok r, tr ++ calls) /\ titled r) /\
  (forall env query tr, exists r calls,
     searchKalshi env query tr = (Ok r, tr ++ calls) /\ titled r) /\
  (forall market,
     gammaMarket market = None <->
     opt_truthy (gm_question market) = false /\ opt_truthy (gm_title market) = false) /\
  (forall market,
     dflowEventMarket market = None <-> opt_truthy (dm_title market) = false) /\
  (forall market,
     dflowSearchMarket market = None <-> opt_truthy (dm_title market) = false).
Proof.
  split; [|split; [|split; [|split; [|split; [|split]]]]].
  - intros env slug tr.
    destruct (fetchPolymarketEvent_titled env slug tr) as (r & c & E & H).
    exists r, c. split; [exact E|]. intros ev Hev. now apply H.
  - intros env ticker tr.
    destruct (fetchKalshiEvent_titled env ticker tr) as (r & c & E & H).
    exists r, c. split; [exact E|]. intros ev Hev. now apply H.
  - apply searchPolymarket_titled.
  - apply searchKalshi_titled.
  - intros market. pose proof (gammaMarket_title market) as H.
    destruct (gammaMarket market) as [m|].
    + split; [discriminate|]. intros [Hq Ht].
      destruct H as [Hne E]. rewrite E, !str_or_falsy in Hne by assumption.
      congruence.
    + split; [intros _; exact H | reflexivity].
  - intros market. pose proof (dflowEventMarket_title market) as H.
    destruct (dflowEventMarket market) as [m|].
    + split; [discriminate|]. intros Ht.
      destruct H as [Hne E]. rewrite E in Ht. simpl in Ht.
      apply truthy_nonempty in Hne. congruence.
    + split; [intros _; exact H | reflexivity].
  - intros market. pose proof (dflowSearchMarket_title market) as H.
    destruct (dflowSearchMarket market) as [m|].
    + split; [discriminate|]. intros Ht.
      destruct H as [Hne E]. rewrite E in Ht. simpl in Ht.
      apply truthy_nonempty in Hne. congruence.
    + split; [intros _; exact H | reflexivity].
Qed.

(** C10 on a Polymarket event of three markets, of which one has an
    empty title and no question and one has neither. *)
Lemma C10_titles_nonempty_witness :
  gammaMarket {| gm_question := None; gm_title := Some (lit "");
                 gm_outcomePrices := Some (lit "[]") |} = None
  /\ exists ev c,
       run (fetchPolymarketEvent
              (example_env
                 (fun _ => FetchResponse true 200
                    (Some (GammaObject
                       {| ge_title := None;
                          ge_markets := Some
                            [{| gm_question := None; gm_title := Some (lit "");
                                gm_outcomePrices := None |};
                             gamma_market None;
                             {| gm_question := None; gm_title := None;
                                gm_outcomePrices := None |}] |})))
                 (fun _ => Ok no_events)
                 (fun _ => Throw TypeError) (fun _ => Throw TypeError))
              (lit "fed-decision"))
       = (Ok (Some ev), [c])
       /\ List.length (markets ev) = 1%nat
       /\ titled (markets ev).
Proof.
  split.
  - apply (proj1 (proj2 (proj2 (proj2 (proj2 C10_titles_nonempty))))).
    split; reflexivity.
  - match goal with
    | |- context [run (fetchPolymarketEvent ?env ?slug)] =>
        destruct (proj1 C10_titles_nonempty env slug []) as (r & c & E & H)
    end.
    unfold run. rewrite E.
    assert (Er := E). vm_compute in Er.
    injection Er as Hr Hc. subst r.
    eexists _, c. split; [reflexivity|]. split; [reflexivity|].
    apply H. reflexivity.
Defined.

(** The default price: what the three paths that have one do when the
    price fields are missing, empty or not JSON. *)
Lemma gammaMarket_default (market : GammaMarket) (m : SimplifiedMarket) :
  gammaMarket market = Some m ->
  opt_truthy (gm_outcomePrices market) = false
  \/ (exists s e, gm_outcomePrices market = Some s /\ JSON_parse s = Throw e)
  \/ (exists s, gm_outcomePrices market = Some s /\ JSON_parse s = Ok JNull) ->
  yesPrice m = 50.
Proof.
  unfold gammaMarket. destruct (truthy _); [|discriminate].
  intros [= <-]. cbn [yesPrice].
  intros [H | [(s & e & -> & ->) | (s & -> & ->)]].
  - destruct (gm_outcomePrices market) as [o|]; [|reflexivity].
    simpl in H. now rewrite H.
  - now destruct (truthy s).
  - now destruct (truthy s).
Qed.

Lemma dflowSearchMarket_default (market : DflowMarket) (m : SimplifiedMarket) :
  dflowSearchMarket market = Some m ->
  opt_truthy (dm_yesAsk market) = false ->
  opt_truthy (dm_yesBid market) = false ->
  yesPrice m = 50.
Proof.
  unfold dflowSearchMarket. destruct (truthy _); [|discriminate].
  intros [= <-] Ha Hb. cbn [yesPrice]. now rewrite Ha, Hb.
Qed.

(** C1, where the code departs from it.  A Kalshi event market
    without any price field is normalised to the price [NaN], not 50,
    by [fetchKalshiEvent]; so is a Polymarket market whose
    [outcomePrices] is valid JSON that holds no price or a text that
    is no number, and a Kalshi search market whose ask is no number. *)
Theorem C1_default_price_missed :
  run (fetchKalshiEvent (fed_env unpriced_event (lit "fed") (lit "{}")) (lit "KXFED"))
  = (Ok (Some {| eventTitle := lit "Fed decision";
                 markets := [{| title := lit "Fed cuts rates in December";
                                yesPrice := nan |}];
                 source := kalshi |}),
     [CallDflow (lit "/event/KXFED") [(lit "withNestedMarkets", JBool true)]])
  /\ gammaMarket (gamma_market (Some (lit "[]")))
     = Some {| title := lit "Will the Fed cut rates?"; yesPrice := nan |}
  /\ gammaMarket (gamma_market (Some (lit "[" ++ quoted (lit "N/A") ++ lit "]")))
     = Some {| title := lit "Will the Fed cut rates?"; yesPrice := nan |}
  /\ dflowSearchMarket
       {| dm_title := Some (lit "Fed cuts rates in December");
          dm_last_price := None; dm_yes_bid := None; dm_yes_ask := None;
          dm_yesAsk := Some (lit "n/a"); dm_yesBid := None |}
     = Some {| title := lit "Fed cuts rates in December"; yesPrice := nan |}.
Proof. repeat split; vm_compute; reflexivity. Qed.

(** ** The source projection *)

Lemma analyzeArbitrage_slots env ev results sp model tr analyzed tr' :
  analyzeArbitrage env ev results sp model tr = (Ok analyzed, tr') ->
  sourceSlot (source ev) (analysis analyzed) = SlotLocal (sourceProjection ev)
  /\ exists response parsed matched,
       judgeAnswer env ev results sp model = Ok response
       /\ JSON_parse (judgeText response) = Ok parsed
       /\ get (lit "matchedMarket") parsed = Ok matched
       /\ matchedSlot (source ev) (analysis analyzed) = agentSlot matched.
Proof.
  rewrite analyzeArbitrage_answer. unfold bind, call, lift, ret.
  destruct (judgeAnswer env ev results sp model) as [response|e] eqn:Ea;
    [|discriminate].
  destruct (JSON_parse (judgeText response)) as [parsed|e] eqn:Ep; [|discriminate].
  destruct (get (lit "matchedMarket") parsed) as [matched|e] eqn:Em; [|discriminate].
  intros [= <- _]. cbn [analysis].
  unfold sourceSlot, matchedSlot. cbn [polymarketData kalshiData].
  split.
  - destruct (source ev); reflexivity.
  - exists response, parsed, matched. repeat split; try assumption.
    destruct (source ev); reflexivity.
Qed.

Lemma fetchEvent_source env p id tr ev tr' :
  fetchEvent env p id tr = (Ok (Some ev), tr') -> source ev = p.
Proof.
  destruct p; simpl; intros H.
  - destruct (fetchPolymarketEvent_titled env id tr) as (r & c & E & Hr).
    rewrite H in E. injection E as <- _. now apply Hr.
  - destruct (fetchKalshiEvent_titled env id tr) as (r & c & E & Hr).
    rewrite H in E. injection E as <- _. now apply Hr.
Qed.

(** C9.  When the first market of the source event has the price 0,
    the record built for the source event has [yesPrice] 50 and
    [noPrice] 50, in the analysis the Judge returns and in the one of
    the early exit: the default applies to every falsy price. *)
Theorem C9_zero_price_projected_as_50 (ev : SourceEventData) (m : SimplifiedMarket)
    (rest : list SimplifiedMarket) :
  markets ev = m :: rest ->
  PrimFloat.eqb (yesPrice m) 0 = true ->
  (forall env results sp model tr analyzed tr',
     analyzeArbitrage env ev results sp model tr = (Ok analyzed, tr') ->
     exists d,
       sourceSlot (source ev) (analysis analyzed) = SlotLocal d
       /\ md_yesPrice d = 50 /\ md_noPrice d = 50) /\
  (forall p url query,
     exists d,
       sourceSlot p (noMatchAnalysis ev p (opposite p) url query) = SlotLocal d
       /\ md_yesPrice d = 50 /\ md_noPrice d = 50).
Proof.
  intros Hm Hzero.
  assert (E : num_or (firstYesPrice ev) 50 = 50).
  { unfold firstYesPrice, num_or, num_truthy. now rewrite Hm, Hzero. }
  split.
  - intros env results sp model tr analyzed tr' H.
    apply analyzeArbitrage_slots in H as [H _].
    exists (sourceProjection ev). split; [exact H|].
    unfold sourceProjection. cbn [md_yesPrice md_noPrice]. rewrite E.
    split; reflexivity.
  - intros p url query. unfold sourceSlot, noMatchAnalysis.
    destruct p; cbn [is_polymarket is_kalshi polymarketData kalshiData];
      eexists; (split; [reflexivity|]); cbn [md_yesPrice md_noPrice];
      rewrite E; split; reflexivity.
Qed.

(** C9 on an event whose first market is quoted 0, with a Judge that
    answers an empty object and on the early exit. *)
Lemma C9_zero_price_projected_as_50_witness :
  (exists d,
     sourceSlot polymarket
       (analysis
          {| analysis :=
               {| isSameMarket := None; sameMarketConfidence := None;
                  marketComparisonReasoning := None;
                  polymarketData := SlotLocal (sourceProjection zero_priced);
                  kalshiData := SlotUnset;
                  arbitrage := None; summary := None; risks := None;
                  recommendation := None |};
             modelUsed := lit "grok-4";
             tokensUsed := Some 120 |}) = SlotLocal d
     /\ md_yesPrice d = 50 /\ md_noPrice d = 50)
  /\ (exists d,
        sourceSlot polymarket
          (noMatchAnalysis zero_priced polymarket kalshi fed_url (lit "fed rates"))
        = SlotLocal d
        /\ md_yesPrice d = 50 /\ md_noPrice d = 50).
Proof.
  pose proof (C9_zero_price_projected_as_50 zero_priced
                {| title := lit "Will the Fed cut rates?"; yesPrice := 0 |}
                [{| title := lit "Will the Fed hold rates?"; yesPrice := 63 |}]
                eq_refl eq_refl) as [Hjudge Hexit].
  split.
  - apply (Hjudge (fed_env fed_search (lit "fed rates") (lit "{}"))
             [{| title := lit "Fed cuts rates in December"; yesPrice := 42 |}]
             kalshi (lit "grok-4") []
             _
             [CallAI Grok (lit "Fed decision in December?") (lit "judge")
                mode_json_object (lit "grok-4") 3]).
    vm_compute. reflexivity.
  - apply (Hexit polymarket fed_url (lit "fed rates")).
Defined.

(** ** Where an analysis comes from *)

(** A response that carries no analysis. *)
Ltac no_data :=
  let Hb := fresh in
  let Hd := fresh in
  intros Hb Hd; simpl in Hb; injection Hb as <-; discriminate Hd.

Lemma afterFetch_data env url model p ev tr resp tr' r a :
  afterFetch env url model p (opposite p) (Some ev) tr = (Ok resp, tr') ->
  body resp = Some r ->
  data r = Some a ->
  (exists query, a = noMatchAnalysis ev p (opposite p) url query)
  \/ (exists results analyzed tr3,
        analyzeArbitrage env ev results (opposite p) model tr3 = (Ok analyzed, tr')
        /\ a = analysis analyzed).
Proof.
  rewrite afterFetch_search.
  destruct (List.length (markets ev) =? 0)%nat.
  { intros [= <- _]. no_data. }
  unfold bind at 1.
  destruct (generateSearchQuery env _ _ _ _ tr) as [[query|e] tr2]; [|discriminate].
  unfold bind at 1.
  destruct (search env (opposite p) query tr2) as [[results|e] tr3]; [|discriminate].
  destruct (List.length results =? 0)%nat.
  - intros [= <- _] [= <-] [= <-]. left. now exists query.
  - unfold bind.
    destruct (analyzeArbitrage env ev results (opposite p) model tr3)
      as [[analyzed|e] tr4] eqn:E; [|discriminate].
    intros [= <- <-] [= <-] [= <-]. right. now exists results, analyzed, tr3.
Qed.

(** Every analysis in a response of the handler was built for an
    event fetched from the venue the URL names. *)
Lemma handler_data env req resp tr r a :
  run (handler env req) = (Ok resp, tr) ->
  body resp = Some r ->
  data r = Some a ->
  exists url model p id ev tr1,
    ai_model_requested req = model
    /\ detectPlatform url = Some p
    /\ identifier env p url = Some id
    /\ fetchEvent env p id [] = (Ok (Some ev), tr1)
    /\ afterFetch env url model p (opposite p) (Some ev) tr1 = (Ok resp, tr).
Proof.
  unfold run, handler.
  destruct (eqb (req_method req) (lit "OPTIONS")).
  { intros [= <- _]. discriminate. }
  unfold catch.
  match goal with
  | |- context [match ?m [] with _ => _ end] => destruct (m []) as [[resp'|e] tr'] eqn:E
  end.
  2:{ intros [= <- _]. no_data. }
  intros [= -> ->] Hbody Hdata. unfold ai_model_requested.
  destruct (negb (eqb (req_method req) (lit "POST"))).
  { injection E as <- _. simpl in Hbody. injection Hbody as <-. discriminate. }
  destruct (req_json req) as [| |requestBody].
  { injection E as <- _. simpl in Hbody. injection Hbody as <-. discriminate. }
  { discriminate. }
  set (url := str_or (req_url requestBody) []) in *.
  set (model := str_or (req_model requestBody) []) in *.
  destruct (negb (truthy url)).
  { injection E as <- _. simpl in Hbody. injection Hbody as <-. discriminate. }
  destruct (negb (truthy model)).
  { injection E as <- _. simpl in Hbody. injection Hbody as <-. discriminate. }
  destruct (detectPlatform url) as [p|] eqn:Hp.
  2:{ injection E as <- _. simpl in Hbody. injection Hbody as <-. discriminate. }
  exists url, model, p.
  destruct p; cbn [is_polymarket] in E.
  - destruct (extractPolymarketSlug env url) as [slug|] eqn:Hslug; cbn [opt_truthy] in E.
    2:{ injection E as <- _. simpl in Hbody. injection Hbody as <-. discriminate. }
    destruct (truthy slug) eqn:Ht; cbn [negb] in E.
    2:{ injection E as <- _. simpl in Hbody. injection Hbody as <-. discriminate. }
    rewrite str_or_truthy in E by (now apply truthy_nonempty).
    unfold bind in E.
    destruct (fetchPolymarketEvent env slug []) as [[[ev|]|e] tr1] eqn:Hf;
      try discriminate.
    2:{ injection E as <- _. simpl in Hbody. injection Hbody as <-. discriminate. }
    exists slug, ev, tr1. repeat split; assumption.
  - destruct (extractKalshiTicker env url) as [ticker|] eqn:Hticker; cbn [opt_truthy] in E.
    2:{ injection E as <- _. simpl in Hbody. injection Hbody as <-. discriminate. }
    destruct (truthy ticker) eqn:Ht; cbn [negb] in E.
    2:{ injection E as <- _. simpl in Hbody. injection Hbody as <-. discriminate. }
    rewrite str_or_truthy in E by (now apply truthy_nonempty).
    unfold bind in E.
    destruct (fetchKalshiEvent env ticker []) as [[[ev|]|e] tr1] eqn:Hf;
      try discriminate.
    2:{ injection E as <- _. simpl in Hbody. injection Hbody as <-. discriminate. }
    exists ticker, ev, tr1. repeat split; assumption.
Qed.

(** ** Binary64 arithmetic: a price and its complement to 100 *)

Module Binary64.

Local Open Scope Z_scope.

(** The number of binary digits of a mantissa. *)
Lemma digits2_pos_log2 (p : positive) :
  Zpos (digits2_pos p) = Z.log2 (Zpos p) + 1.
Proof.
  induction p as [p IH|p IH|]; simpl digits2_pos.
  - rewrite Pos2Z.inj_succ, IH. simpl Z.log2. destruct p; simpl; lia.
  - rewrite Pos2Z.inj_succ, IH. simpl Z.log2. destruct p; simpl; lia.
  - reflexivity.
Qed.

Lemma digits2_pos_bounds (p : positive) (d : Z) :
  2 ^ (d - 1) <= Zpos p < 2 ^ d -> Zpos (digits2_pos p) = d.
Proof.
  intros H. rewrite digits2_pos_log2.
  assert (0 < d).
  { destruct (Z.ltb_spec 0 d); [assumption|].
    exfalso. assert (2 ^ d <= 1).
    { destruct (Z.eqb_spec d 0); [subst; simpl; lia|].
      rewrite Z.pow_neg_r by lia. lia. }
    lia. }
  assert (Z.log2 (Zpos p) = d - 1); [|lia].
  apply Z.log2_unique; [lia|]. replace (Z.succ (d - 1)) with d by lia. exact H.
Qed.

(** Right shifts, one bit at a time. *)
Lemma iter_pos_nat {A} (f : A -> A) (p : positive) (x : A) :
  iter_pos f p x = Nat.iter (Pos.to_nat p) f x.
Proof.
  revert x. induction p as [p IH|p IH|]; intros x; simpl iter_pos.
  - rewrite !IH. rewrite Pos2Nat.inj_xI.
    replace (S (2 * Pos.to_nat p))%nat with (Pos.to_nat p + (Pos.to_nat p + 1))%nat by lia.
    rewrite !Nat.iter_add. reflexivity.
  - rewrite !IH. rewrite Pos2Nat.inj_xO.
    replace (2 * Pos.to_nat p)%nat with (Pos.to_nat p + Pos.to_nat p)%nat by lia.
    rewrite Nat.iter_add. reflexivity.
  - reflexivity.
Qed.

Lemma shr_1_spec (m : Z) (r s : bool) :
  0 <= m ->
  shr_1 {| shr_m := m; shr_r := r; shr_s := s |}
  = {| shr_m := m / 2; shr_r := Z.odd m; shr_s := r || s |}.
Proof.
  intros Hm. unfold shr_1.
  destruct m as [|[p|p|]|p]; try lia; simpl Z.odd.
  - reflexivity.
  - f_equal. rewrite Pos2Z.inj_xI. apply Z.div_unique with 1; lia.
  - f_equal. rewrite Pos2Z.inj_xO. apply Z.div_unique with 0; lia.
  - reflexivity.
Qed.

(** The state after [k+1] right shifts of [m]. *)
Lemma iter_shr_1 (m : Z) (k : nat) :
  0 <= m ->
  Nat.iter (S k) shr_1 {| shr_m := m; shr_r := false; shr_s := false |}
  = {| shr_m := m / 2 ^ (Z.of_nat k + 1);
       shr_r := Z.testbit m (Z.of_nat k);
       shr_s := negb (m mod 2 ^ Z.of_nat k =? 0) |}.
Proof.
  intros Hm. induction k as [|k IH].
  - cbn [Nat.iter nat_rect]. rewrite shr_1_spec by assumption.
    simpl Z.of_nat. rewrite Z.mod_1_r. simpl. f_equal.
  - rewrite Nat.iter_succ, IH.
    assert (Hp : 0 < 2 ^ (Z.of_nat k + 1)) by (apply Z.pow_pos_nonneg; lia).
    rewrite shr_1_spec by (apply Z.div_pos; lia).
    rewrite Nat2Z.inj_succ.
    replace (Z.succ (Z.of_nat k)) with (Z.of_nat k + 1) by lia.
    f_equal.
    + rewrite Z.div_div by lia. f_equal.
      rewrite (Z.pow_add_r 2 (Z.of_nat k + 1) 1) by lia. reflexivity.
    + rewrite Z.testbit_odd, Z.shiftr_div_pow2 by lia. reflexivity.
    + assert (Hk : 0 < 2 ^ Z.of_nat k) by (apply Z.pow_pos_nonneg; lia).
      rewrite (Z.pow_add_r 2 (Z.of_nat k) 1) by lia. change (2 ^ 1) with 2.
      rewrite Z.testbit_odd, Z.shiftr_div_pow2 by lia.
      pose proof (Z.div_mod m (2 ^ Z.of_nat k) ltac:(lia)) as Hdm.
      pose proof (Z.mod_pos_bound m (2 ^ Z.of_nat k) Hk) as Hb.
      set (T := 2 ^ Z.of_nat k) in *.
      set (q := m / T) in *. set (rm := m mod T) in *.
      pose proof (Z.div_mod q 2 ltac:(lia)) as Hq.
      pose proof (Z.mod_pos_bound q 2 ltac:(lia)) as Hqb.
      assert (Hmod : m mod (T * 2) = T * (q mod 2) + rm).
      { symmetry. apply Z.mod_unique with (q / 2); [left; nia | nia]. }
      rewrite Hmod.
      rewrite (Zmod_odd q) in *.
      destruct (Z.odd q); destruct (Z.eqb_spec rm 0) as [E0|E0]; simpl;
        match goal with
        | |- context [?x =? 0] => destruct (Z.eqb_spec x 0)
        end; try reflexivity; nia.
Qed.

Lemma shr_spec (m e n : Z) :
  0 <= m -> 0 < n ->
  shr {| shr_m := m; shr_r := false; shr_s := false |} e n
  = ({| shr_m := m / 2 ^ n;
        shr_r := Z.testbit m (n - 1);
        shr_s := negb (m mod 2 ^ (n - 1) =? 0) |}, e + n).
Proof.
  intros Hm Hn. destruct n as [|p|p]; try lia.
  unfold shr. f_equal. rewrite iter_pos_nat.
  destruct (Pos.to_nat p) as [|k] eqn:E; [lia|].
  rewrite iter_shr_1 by assumption.
  replace (Z.pos p) with (Z.of_nat k + 1) by lia.
  replace (Z.of_nat k + 1 - 1) with (Z.of_nat k) by lia. reflexivity.
Qed.

(** The remainder of [m] by [2H], by the bit of weight [H] and the
    remainder by [H]. *)
Lemma mod_double (m n : Z) :
  0 <= m -> 0 < n ->
  let H := 2 ^ (n - 1) in
  2 ^ n = 2 * H /\ 0 < H /\
  m mod 2 ^ n = H * (if Z.testbit m (n - 1) then 1 else 0) + m mod H /\
  0 <= m mod H < H.
Proof.
  intros Hm Hn H.
  assert (HH : 0 < H) by (apply Z.pow_pos_nonneg; lia).
  assert (HT : 2 ^ n = 2 * H).
  { unfold H. replace n with (1 + (n - 1)) at 1 by lia.
    rewrite Z.pow_add_r by lia. reflexivity. }
  split; [exact HT|]. split; [exact HH|].
  pose proof (Z.mod_pos_bound m H HH) as Hb. split; [|exact Hb].
  rewrite Z.testbit_odd, Z.shiftr_div_pow2 by lia. fold H.
  pose proof (Z.div_mod m H ltac:(lia)) as Hdm.
  set (q := m / H) in *. set (rm := m mod H) in *.
  pose proof (Z.div_mod q 2 ltac:(lia)) as Hq.
  rewrite (Zmod_odd q) in Hq.
  rewrite HT. symmetry.
  apply Z.mod_unique with (q / 2); [left|]; destruct (Z.odd q); nia.
Qed.

(** Rounding moves a number by half a unit at most. *)
Lemma rne_near (m n : Z) :
  0 <= m -> 0 < n ->
  - 2 ^ (n - 1) <= rne m n * 2 ^ n - m <= 2 ^ (n - 1).
Proof.
  intros Hm Hn.
  destruct (mod_double m n Hm Hn) as (HT & HH & Hmod & Hb).
  pose proof (Z.div_mod m (2 ^ n) ltac:(lia)) as Hdm.
  unfold rne. set (q := m / 2 ^ n) in *.
  set (H := 2 ^ (n - 1)) in *. set (rm := m mod H) in *.
  rewrite Hmod, HT in Hdm. rewrite HT. clear Hmod HT.
  destruct (Z.testbit m (n - 1)); destruct (Z.eqb_spec rm 0) as [E|E];
    cbn [round_nearest_even loc_of_shr_record negb];
    try (destruct (Z.even q)); nia.
Qed.

(** A number within half a unit of an even multiple rounds to it. *)
Lemma rne_even (m n c : Z) :
  0 <= m -> 0 < n -> Z.even c = true ->
  - 2 ^ (n - 1) <= m - c * 2 ^ n <= 2 ^ (n - 1) ->
  rne m n = c.
Proof.
  intros Hm Hn Hc Hd.
  destruct (mod_double m n Hm Hn) as (HT & HH & Hmod & Hb).
  pose proof (Z.div_mod m (2 ^ n) ltac:(lia)) as Hdm.
  unfold rne. set (q := m / 2 ^ n) in *.
  set (H := 2 ^ (n - 1)) in *. set (rm := m mod H) in *.
  rewrite Hmod, HT in Hdm. rewrite HT in Hd. clear Hmod HT.
  assert (Hq : q = c \/ q = c - 1).
  { assert (Hle : q - c <= 0).
    { destruct (Z.le_gt_cases (q - c) 0) as [|Hgt]; [assumption | exfalso].
      assert (H * 1 <= H * (q - c)) by (apply Z.mul_le_mono_nonneg_l; lia).
      destruct (Z.testbit m (n - 1)); lia. }
    assert (Hge : -1 <= q - c).
    { destruct (Z.le_gt_cases (-1) (q - c)) as [|Hlt]; [assumption | exfalso].
      assert (H * (q - c) <= H * (-2)) by (apply Z.mul_le_mono_nonneg_l; lia).
      destruct (Z.testbit m (n - 1)); lia. }
    lia. }
  destruct Hq as [-> | ->].
  - destruct (Z.testbit m (n - 1)); destruct (Z.eqb_spec rm 0) as [E|E];
      cbn [round_nearest_even loc_of_shr_record negb];
      try rewrite Hc; try reflexivity; nia.
  - assert (Ho : Z.even (c - 1) = false).
    { rewrite Z.even_sub, Hc. reflexivity. }
    destruct (Z.testbit m (n - 1)); destruct (Z.eqb_spec rm 0) as [E|E];
      cbn [round_nearest_even loc_of_shr_record negb];
      try rewrite Ho; try lia; nia.
Qed.

Lemma fexp_64 (z : Z) : fexp prec emax z = Z.max (z - 53) (-1074).
Proof. reflexivity. Qed.

Lemma Zpos_iter_xO (p d : positive) :
  Zpos (Pos.iter xO p d) = Zpos p * 2 ^ Zpos d.
Proof.
  induction d as [|d IH] using Pos.peano_ind.
  - simpl. lia.
  - rewrite Pos.iter_succ, Pos2Z.inj_xO, IH, Pos2Z.inj_succ.
    rewrite Z.pow_succ_r by lia. lia.
Qed.

Lemma shl_align_spec (mx : positive) (ex ex' : Z) :
  exists mz,
    shl_align mx ex ex' = (mz, Z.min ex ex')
    /\ Zpos mz = Zpos mx * 2 ^ (ex - Z.min ex ex').
Proof.
  unfold shl_align. destruct (ex' - ex) as [|d|d] eqn:E.
  - exists mx. replace (Z.min ex ex') with ex by lia.
    rewrite Z.sub_diag. split; [reflexivity | simpl; lia].
  - exists mx. replace (Z.min ex ex') with ex by lia.
    rewrite Z.sub_diag. split; [reflexivity | simpl; lia].
  - exists (Pos.iter xO mx d). replace (Z.min ex ex') with ex' by lia.
    split; [reflexivity|]. rewrite Zpos_iter_xO. f_equal. f_equal. lia.
Qed.

Lemma digits_shift (p q : positive) (s : Z) :
  0 <= s -> Zpos q = Zpos p * 2 ^ s ->
  Zpos (digits2_pos q) = Zpos (digits2_pos p) + s.
Proof.
  intros Hs Hq. apply digits2_pos_bounds. rewrite Hq.
  pose proof (digits2_pos_log2 p) as Hd.
  pose proof (Z.log2_spec (Zpos p) ltac:(lia)) as Hl.
  set (d := Zpos (digits2_pos p)) in *.
  assert (Hd' : Z.log2 (Zpos p) = d - 1) by lia. rewrite Hd' in Hl.
  replace (Z.succ (d - 1)) with d in Hl by lia.
  assert (0 < d) by (unfold d; lia).
  replace (d + s - 1) with ((d - 1) + s) by lia.
  rewrite !Z.pow_add_r by lia.
  assert (0 < 2 ^ s) by (apply Z.pow_pos_nonneg; lia).
  nia.
Qed.

Lemma shr_fexp_noshift (p : positive) (e : Z) :
  fexp prec emax (Zpos (digits2_pos p) + e) = e ->
  shr_fexp prec emax (Zpos p) e loc_Exact
  = ({| shr_m := Zpos p; shr_r := false; shr_s := false |}, e).
Proof.
  intros H. unfold shr_fexp. cbn [Zdigits2 shr_record_of_loc].
  rewrite H, Z.sub_diag. reflexivity.
Qed.

(** A number that needs no rounding. *)
Lemma binary_round_exact (M : positive) (E : Z) :
  let t := fexp prec emax (Zpos (digits2_pos M) + E) in
  t <= E -> t <= 971 ->
  exists mz,
    binary_round prec emax false M E = S754_finite false mz t
    /\ Zpos mz = Zpos M * 2 ^ (E - t).
Proof.
  intros t Ht Hmax. unfold binary_round. fold t.
  destruct (shl_align_spec M E t) as (mz & -> & Hmz).
  replace (Z.min E t) with t in * by lia.
  exists mz. split; [|exact Hmz].
  assert (Hfix : fexp prec emax (Zpos (digits2_pos mz) + t) = t).
  { rewrite (digits_shift M mz (E - t)) by (lia || assumption).
    replace (Zpos (digits2_pos M) + (E - t) + t) with (Zpos (digits2_pos M) + E) by lia.
    reflexivity. }
  unfold binary_round_aux.
  rewrite (shr_fexp_noshift mz t Hfix).
  cbn [shr_m loc_of_shr_record round_nearest_even].
  rewrite (shr_fexp_noshift mz t Hfix). cbn [shr_m].
  change (emax - prec) with 971.
  destruct (Z.leb_spec t 971); [reflexivity | lia].
Qed.

(** A number that is rounded to 53 bits. *)
Lemma binary_round_inexact (M : positive) (E : Z) :
  let t := fexp prec emax (Zpos (digits2_pos M) + E) in
  E < t -> t <= 971 ->
  2 ^ 52 <= rne (Zpos M) (t - E) < 2 ^ 53 ->
  binary_round prec emax false M E
  = S754_finite false (Z.to_pos (rne (Zpos M) (t - E))) t.
Proof.
  intros t Ht Hmax Hv. unfold binary_round. fold t.
  unfold shl_align. destruct (t - E) as [|n|n] eqn:En; try lia.
  unfold binary_round_aux, shr_fexp at 1. cbn [Zdigits2 shr_record_of_loc].
  fold t. rewrite En, shr_spec by lia. cbn [shr_m].
  change (round_nearest_even (Zpos M / 2 ^ Zpos n) _) with (rne (Zpos M) (Zpos n)).
  destruct (rne (Zpos M) (Zpos n)) as [|pv|pv] eqn:Ev; try lia.
  assert (Hd : Zpos (digits2_pos pv) = 53) by (apply digits2_pos_bounds; exact Hv).
  replace (E + Zpos n) with t by lia.
  assert (Hfix : fexp prec emax (Zpos (digits2_pos pv) + t) = t).
  { rewrite Hd, fexp_64. unfold t. rewrite fexp_64. lia. }
  rewrite (shr_fexp_noshift pv t Hfix). cbn [shr_m].
  change (emax - prec) with 971.
  destruct (Z.leb_spec t 971); [reflexivity | lia].
Qed.

(** Sums and differences of positive finite numbers. *)
Lemma SFadd_pos (m1 m2 : positive) (e1 e2 : Z) :
  SF64add (S754_finite false m1 e1) (S754_finite false m2 e2)
  = binary_normalize prec emax
      (Zpos m1 * 2 ^ (e1 - Z.min e1 e2) + Zpos m2 * 2 ^ (e2 - Z.min e1 e2))
      (Z.min e1 e2) false.
Proof.
  unfold SF64add, SFadd.
  destruct (shl_align_spec m1 e1 (Z.min e1 e2)) as (z1 & -> & H1).
  destruct (shl_align_spec m2 e2 (Z.min e1 e2)) as (z2 & -> & H2).
  cbn [fst cond_Zopp].
  replace (Z.min e1 (Z.min e1 e2)) with (Z.min e1 e2) in H1 by lia.
  replace (Z.min e2 (Z.min e1 e2)) with (Z.min e1 e2) in H2 by lia.
  now rewrite H1, H2.
Qed.

Lemma SFsub_pos (m1 m2 : positive) (e1 e2 : Z) :
  SF64sub (S754_finite false m1 e1) (S754_finite false m2 e2)
  = binary_normalize prec emax
      (Zpos m1 * 2 ^ (e1 - Z.min e1 e2) - Zpos m2 * 2 ^ (e2 - Z.min e1 e2))
      (Z.min e1 e2) false.
Proof.
  unfold SF64sub, SFsub.
  destruct (shl_align_spec m1 e1 (Z.min e1 e2)) as (z1 & -> & H1).
  destruct (shl_align_spec m2 e2 (Z.min e1 e2)) as (z2 & -> & H2).
  cbn [fst cond_Zopp].
  replace (Z.min e1 (Z.min e1 e2)) with (Z.min e1 e2) in H1 by lia.
  replace (Z.min e2 (Z.min e1 e2)) with (Z.min e1 e2) in H2 by lia.
  now rewrite H1, H2.
Qed.

Lemma Prim2SF_100 : Prim2SF 100 = F100.
Proof. reflexivity. Qed.

(** Anything within half a unit in the last place of 100 rounds to 100. *)
Lemma round_to_100 (S : positive) (E k : Z) :
  0 <= k -> E = - 47 - k ->
  - 2 ^ k <= Zpos S - 14073748835532800 * 2 ^ k <= 2 ^ k ->
  binary_round prec emax false S E = F100.
Proof.
  intros Hk -> HS.
  assert (HP : 0 < 2 ^ k) by (apply Z.pow_pos_nonneg; lia).
  assert (Hd : Zpos (digits2_pos S) = 54 + k).
  { apply digits2_pos_bounds.
    replace (54 + k - 1) with (53 + k) by lia.
    rewrite !Z.pow_add_r by lia.
    change (2 ^ 53) with 9007199254740992. change (2 ^ 54) with 18014398509481984.
    lia. }
  assert (Ht : fexp prec emax (Zpos (digits2_pos S) + (- 47 - k)) = -46).
  { rewrite Hd, fexp_64. lia. }
  assert (Hv : rne (Zpos S) (k + 1) = 7036874417766400).
  { apply rne_even; [lia | lia | reflexivity |].
    replace (k + 1 - 1) with k by lia.
    rewrite Z.pow_add_r by lia. change (2 ^ 1) with 2. lia. }
  pose proof (binary_round_inexact S (- 47 - k)) as H.
  cbv zeta in H. rewrite Ht in H.
  replace (-46 - (- 47 - k)) with (k + 1) in H by lia.
  rewrite Hv in H. apply H; [lia | lia |].
  change (2 ^ 52) with 4503599627370496. change (2 ^ 53) with 9007199254740992. lia.
Qed.

Lemma pow2_ge_2 (k : Z) : 1 <= k -> 2 <= 2 ^ k.
Proof.
  intros H. change 2 with (2 ^ 1) at 1. apply Z.pow_le_mono_r; lia.
Qed.

(** [x + (100 - x)] for a positive finite [x] below 64. *)
Lemma balance_below_64 (m : positive) (e : Z) :
  Zpos m < 2 ^ 53 -> e < -46 ->
  SF64add (S754_finite false m e) (SF64sub F100 (S754_finite false m e)) = F100.
Proof.
  intros Hm He.
  set (k := - 47 - e).
  assert (Hk : 0 <= k) by (unfold k; lia).
  assert (HP : 0 < 2 ^ k) by (apply Z.pow_pos_nonneg; lia).
  change (2 ^ 53) with 9007199254740992 in Hm.
  unfold F100. rewrite SFsub_pos.
  replace (Z.min (-46) e) with e by lia.
  rewrite Z.sub_diag. replace (-46 - e) with (k + 1) by (unfold k; lia).
  rewrite Z.pow_add_r by lia. change (2 ^ 1) with 2. change (2 ^ 0) with 1.
  set (P := 2 ^ k) in *.
  destruct (7036874417766400 * (P * 2) - Zpos m * 1) as [|pD|pD] eqn:ED; try lia.
  cbn [binary_normalize].
  destruct (Z.lt_ge_cases (Zpos pD) (9007199254740992 * P)) as [Hlow|Hhigh].
  - (* the difference keeps the exponent of [x]: only when [e = -47] *)
    assert (Hk0 : k = 0).
    { destruct (Z.le_gt_cases 1 k) as [H1|H1]; [|lia].
      pose proof (pow2_ge_2 k H1). fold P in H. lia. }
    assert (HP1 : P = 1) by (unfold P; rewrite Hk0; reflexivity).
    assert (Ee : e = -47) by (unfold k in Hk0; lia).
    rewrite HP1 in *. clear HP1 Hk0 HP Hk. clearbody P. clear P. subst k. subst e.
    assert (Hd : Zpos (digits2_pos pD) = 53).
    { apply digits2_pos_bounds.
      change (2 ^ (53 - 1)) with 4503599627370496.
      change (2 ^ 53) with 9007199254740992. lia. }
    destruct (binary_round_exact pD (-47)) as (mz & -> & Hmz).
    { rewrite Hd, fexp_64. lia. }
    { rewrite Hd, fexp_64. lia. }
    rewrite Hd, fexp_64 in *.
    replace (Z.max (53 + -47 - 53) (-1074)) with (-47) in * by lia.
    rewrite SFadd_pos. replace (Z.min (-47) (-47)) with (-47) by lia.
    rewrite Z.sub_diag in *. change (2 ^ 0) with 1 in *.
    destruct (Zpos m * 1 + Zpos mz * 1) as [|pS|pS] eqn:ES; try lia.
    cbn [binary_normalize].
    apply round_to_100 with (k := 0); [lia | lia |].
    change (2 ^ 0) with 1. lia.
  - (* the difference is rounded at the exponent of 100 *)
    assert (Hd : Zpos (digits2_pos pD) = 54 + k).
    { apply digits2_pos_bounds.
      replace (54 + k - 1) with (53 + k) by lia.
      rewrite !Z.pow_add_r by lia. fold P.
      change (2 ^ 53) with 9007199254740992. change (2 ^ 54) with 18014398509481984.
      lia. }
    assert (Ht : fexp prec emax (Zpos (digits2_pos pD) + e) = -46).
    { rewrite Hd, fexp_64. unfold k. lia. }
    pose proof (rne_near (Zpos pD) (k + 1) ltac:(lia) ltac:(lia)) as Hnear.
    replace (k + 1 - 1) with k in Hnear by lia.
    rewrite Z.pow_add_r in Hnear by lia. change (2 ^ 1) with 2 in Hnear.
    fold P in Hnear.
    set (v := rne (Zpos pD) (k + 1)) in *.
    assert (Hv : 4503599627370496 <= v <= 7036874417766400).
    { split.
      - destruct (Z.le_gt_cases 4503599627370496 v) as [|Hlt]; [assumption | exfalso].
        assert (v * P <= 4503599627370495 * P) by (apply Z.mul_le_mono_nonneg_r; lia).
        lia.
      - destruct (Z.le_gt_cases v 7036874417766400) as [|Hgt]; [assumption | exfalso].
        assert (7036874417766401 * P <= v * P) by (apply Z.mul_le_mono_nonneg_r; lia).
        lia. }
    pose proof (binary_round_inexact pD e) as Hr. cbv zeta in Hr.
    rewrite Ht in Hr. replace (-46 - e) with (k + 1) in Hr by (unfold k; lia).
    fold v in Hr. rewrite Hr; clear Hr.
    2:{ lia. }
    2:{ lia. }
    2:{ change (2 ^ 52) with 4503599627370496.
        change (2 ^ 53) with 9007199254740992. lia. }
    rewrite SFadd_pos. replace (Z.min e (-46)) with e by lia.
    rewrite Z.sub_diag. replace (-46 - e) with (k + 1) by (unfold k; lia).
    rewrite Z.pow_add_r by lia. change (2 ^ 1) with 2. change (2 ^ 0) with 1.
    fold P. rewrite Z2Pos.id by lia.
    destruct (Zpos m * 1 + v * (P * 2)) as [|pS|pS] eqn:ES; try lia.
    cbn [binary_normalize].
    apply round_to_100 with (k := k); [lia | unfold k; lia |].
    fold P. lia.
Qed.

(** [x + (100 - x)] for [x] between 64 and 100: the difference is exact. *)
Lemma balance_from_64 (m : positive) :
  2 ^ 52 <= Zpos m <= 7036874417766400 ->
  SF64add (S754_finite false m (-46)) (SF64sub F100 (S754_finite false m (-46))) = F100.
Proof.
  intros Hm. change (2 ^ 52) with 4503599627370496 in Hm.
  unfold F100. rewrite SFsub_pos.
  replace (Z.min (-46) (-46)) with (-46) by lia.
  rewrite Z.sub_diag. change (2 ^ 0) with 1.
  destruct (7036874417766400 * 1 - Zpos m * 1) as [|pD|pD] eqn:ED; try lia.
  - cbn [binary_normalize]. unfold SF64add, SFadd.
    f_equal. lia.
  - cbn [binary_normalize].
    pose proof (digits2_pos_log2 pD) as Hlog.
    pose proof (Z.log2_nonneg (Zpos pD)) as Hnn.
    assert (Hlt : Z.log2 (Zpos pD) < 52).
    { apply Z.log2_lt_pow2; [lia|]. change (2 ^ 52) with 4503599627370496. lia. }
    pose proof (Z.log2_spec (Zpos pD) ltac:(lia)) as Hspec.
    set (d := Zpos (digits2_pos pD)) in *.
    assert (Hl : Z.log2 (Zpos pD) = d - 1) by lia. rewrite Hl in Hspec.
    replace (Z.succ (d - 1)) with d in Hspec by lia.
    destruct (binary_round_exact pD (-46)) as (mz & -> & Hmz).
    { fold d. rewrite fexp_64. lia. }
    { fold d. rewrite fexp_64. lia. }
    fold d in Hmz |- *. rewrite fexp_64 in Hmz |- *.
    replace (Z.max (d + -46 - 53) (-1074)) with (d - 99) in * by lia.
    replace (-46 - (d - 99)) with (53 - d) in Hmz by lia.
    rewrite SFadd_pos. replace (Z.min (-46) (d - 99)) with (d - 99) by lia.
    rewrite Z.sub_diag. change (2 ^ 0) with 1.
    replace (-46 - (d - 99)) with (53 - d) by lia.
    assert (HP : 0 < 2 ^ (52 - d)) by (apply Z.pow_pos_nonneg; lia).
    assert (E2 : 2 ^ (53 - d) = 2 * 2 ^ (52 - d)).
    { replace (53 - d) with (1 + (52 - d)) by lia.
      rewrite Z.pow_add_r by lia. reflexivity. }
    rewrite E2 in *.
    set (P := 2 ^ (52 - d)) in *.
    destruct (Zpos m * (2 * P) + Zpos mz * 1) as [|pS|pS] eqn:ES; try nia.
    cbn [binary_normalize].
    apply round_to_100 with (k := 52 - d); [lia | lia |].
    fold P. nia.
Qed.

(** On the spec floats: [x + (100 - x) = 100] for [0 <= x <= 100]. *)
Lemma SF_balance (x : spec_float) :
  SpecFloat.valid_binary prec emax x = true ->
  SFleb (S754_zero false) x = true ->
  SFleb x F100 = true ->
  SF64add x (SF64sub F100 x) = F100.
Proof.
  intros Hvalid H0 H100.
  destruct x as [s|s| |s m e].
  - destruct s; reflexivity.
  - destruct s; discriminate.
  - discriminate.
  - destruct s; [discriminate|].
    unfold SpecFloat.valid_binary, bounded, canonical_mantissa in Hvalid.
    apply andb_true_iff in Hvalid as [Hcan _].
    apply Z.eqb_eq in Hcan. rewrite fexp_64 in Hcan.
    pose proof (digits2_pos_log2 m) as Hlog.
    pose proof (Z.log2_spec (Zpos m) ltac:(lia)) as Hspec.
    set (d := Zpos (digits2_pos m)) in *.
    assert (Hl : Z.log2 (Zpos m) = d - 1) by lia. rewrite Hl in Hspec.
    replace (Z.succ (d - 1)) with d in Hspec by lia.
    unfold SFleb, SFcompare, F100 in H100.
    destruct (Z.compare_spec e (-46)) as [He|He|He]; try discriminate.
    + subst e.
      assert (Hd : d = 53) by lia. rewrite Hd in Hspec.
      apply balance_from_64.
      change (2 ^ (53 - 1)) with 4503599627370496 in Hspec.
      change (2 ^ 52) with 4503599627370496.
      change (2 ^ 53) with 9007199254740992 in Hspec.
      pose proof (Pos.compare_spec m 7036874417766400) as Hc.
      unfold Pos.compare in Hc.
      destruct Hc as [Hc|Hc|Hc]; try discriminate; clear - Hspec Hc.
      * subst m. split; [discriminate | apply Z.le_refl].
      * apply Pos2Z.pos_lt_pos in Hc. split; [apply Hspec | now apply Z.lt_le_incl].
    + apply balance_below_64; [|assumption].
      assert (Hd : d <= 53) by lia.
      assert (Hpow : 2 ^ d <= 2 ^ 53) by (apply Z.pow_le_mono_r; lia).
      apply Z.lt_le_trans with (2 ^ d); [apply Hspec | exact Hpow].
Qed.

(** A price on the 0-100 scale and its complement to 100 add up to
    100 exactly in binary64 arithmetic. *)
Theorem price_balance (x : float) :
  PrimFloat.leb 0 x = true -> PrimFloat.leb x 100 = true ->
  PrimFloat.add x (PrimFloat.sub 100 x) = 100%float.
Proof.
  intros H0 H100. apply Prim2SF_inj.
  rewrite add_spec, sub_spec, Prim2SF_100.
  rewrite leb_spec in H0, H100. rewrite Prim2SF_100 in H100.
  change (Prim2SF 0) with (S754_zero false) in H0.
  apply SF_balance; [apply Prim2SF_valid | assumption | assumption].
Qed.

End Binary64.

(** ** Price balance of the records in an analysis *)

Lemma noMatchAnalysis_slots ev p url query :
  sourceSlot p (noMatchAnalysis ev p (opposite p) url query)
  = SlotLocal {| md_source := p;
                 md_name := eventTitle ev;
                 md_identifier := eventTitle ev;
                 md_yesPrice := num_or (firstYesPrice ev) 50;
                 md_noPrice := 100 - num_or (firstYesPrice ev) 50;
                 md_url := url;
                 md_rawData := Some {| raw_eventTitle := eventTitle ev;
                                       raw_markets := markets ev |} |}
  /\ matchedSlot p (noMatchAnalysis ev p (opposite p) url query) = SlotUnset.
Proof. destruct p; split; reflexivity. Qed.

(** In a record the function builds, the two prices add up on the
    0-100 scale. *)
Lemma local_record_balanced (y : number) :
  on_scale y -> y + (100 - y) = 100.
Proof. intros [H0 H100]. now apply Binary64.price_balance. Qed.

(** C2, as the code has it.  In every analysis the handler returns,
    on the early exit and after the Judge alike, the slot of the
    source venue holds a record the function built: its [yesPrice] is
    the price of the first market of the fetched event, or 50 when
    that price is falsy, its [noPrice] is [100 - yesPrice], and the
    two add up to exactly 100 whenever [yesPrice] lies on the 0-100
    scale.  The slot of the other venue is unset, or it is the object
    the agent reported as [matchedMarket], as parsed. *)
Theorem C2_source_slot_balanced env req resp tr r a :
  run (handler env req) = (Ok resp, tr) ->
  body resp = Some r ->
  data r = Some a ->
  exists p id ev tr1 d,
    fetchEvent env p id [] = (Ok (Some ev), tr1)
    /\ sourceSlot p a = SlotLocal d
    /\ md_yesPrice d = num_or (firstYesPrice ev) 50
    /\ md_noPrice d = 100 - md_yesPrice d
    /\ (on_scale (md_yesPrice d) -> md_yesPrice d + md_noPrice d = 100)
    /\ (matchedSlot p a = SlotUnset
        \/ exists results response parsed j,
             judgeAnswer env ev results (opposite p) (ai_model_requested req) = Ok response
             /\ JSON_parse (judgeText response) = Ok parsed
             /\ get (lit "matchedMarket") parsed = Ok (Some j)
             /\ matchedSlot p a = SlotAgent j).
Proof.
  intros Hrun Hbody Hdata.
  destruct (handler_data env req resp tr r a Hrun Hbody Hdata)
    as (url & model & p & id & ev & tr1 & Hmodel & Hp & Hid & Hfetch & Hafter).
  pose proof (fetchEvent_source env p id [] ev tr1 Hfetch) as Hsource.
  exists p, id, ev, tr1.
  destruct (afterFetch_data env url model p ev tr1 resp tr r a Hafter Hbody Hdata)
    as [(query & ->) | (results & analyzed & tr3 & Han & ->)].
  - destruct (noMatchAnalysis_slots ev p url query) as [Hs Hm].
    eexists. split; [exact Hfetch|]. split; [exact Hs|]. cbn [md_yesPrice md_noPrice].
    repeat split.
    + apply local_record_balanced.
    + now left.
  - destruct (analyzeArbitrage_slots env ev results (opposite p) model tr3 analyzed tr Han)
      as (Hs & response & parsed & matched & Ha & Hparse & Hget & Hm).
    rewrite Hsource in Hs, Hm.
    exists (sourceProjection ev). split; [exact Hfetch|]. split; [exact Hs|].
    cbn [sourceProjection md_yesPrice md_noPrice].
    repeat split.
    + apply local_record_balanced.
    + rewrite Hm. unfold agentSlot.
      destruct matched as [j|]; [|now left].
      destruct (json_truthy j); [|now left].
      right. exists results, response, parsed, j. rewrite Hmodel. now repeat split.
Qed.

(** The request whose Judge reports a matched market quoted 40 / 70. *)
Lemma unbalanced_run :
  exists resp tr r a,
    run (handler (fed_env fed_search (lit "fed rates") unbalanced_verdict)
           (post fed_url (lit "grok-4"))) = (Ok resp, tr)
    /\ body resp = Some r
    /\ data r = Some a
    /\ polymarketData a
       = SlotLocal (sourceProjection
                      {| eventTitle := lit "Fed decision in December?";
                         markets := [{| title := lit "Will the Fed cut rates?";
                                        yesPrice := 37 |}];
                         source := polymarket |})
    /\ kalshiData a
       = SlotAgent (JObj [(lit "yesPrice", JNum 40); (lit "noPrice", JNum 70)]).
Proof.
  eexists _, _, _, _.
  split; [vm_compute; reflexivity|].
  split; [reflexivity|]. split; [reflexivity|]. split; reflexivity.
Qed.

(** Two binary64 numbers that differ are not equal. *)
Lemma float_neq (x y : number) : PrimFloat.eqb x y = false -> PrimFloat.is_nan x = false -> x <> y.
Proof.
  intros Hne Hnan E. subst y.
  unfold PrimFloat.is_nan in Hnan. apply negb_false_iff in Hnan. congruence.
Qed.

(** C2, as stated, fails in the slot of the matched candidate: the
    record there is the agent's, and nothing makes its prices add up
    to 100. *)
Lemma C2_matched_slot_counterexample :
  ~ balance_as_stated (fed_env fed_search (lit "fed rates") unbalanced_verdict)
      (post fed_url (lit "grok-4")).
Proof.
  intros H.
  destruct unbalanced_run as (resp & tr & r & a & Hrun & Hbody & Hdata & _ & Hk).
  destruct (H resp tr r a Hrun Hbody Hdata) as [_ Hbal].
  rewrite Hk in Hbal. revert Hbal.
  apply float_neq; vm_compute; reflexivity.
Qed.

(** C2 on that same request: the source slot is balanced, 37 + 63. *)
Lemma C2_source_slot_balanced_witness :
  exists resp tr r a,
    run (handler (fed_env fed_search (lit "fed rates") unbalanced_verdict)
           (post fed_url (lit "grok-4"))) = (Ok resp, tr)
    /\ body resp = Some r
    /\ data r = Some a
    /\ exists p id ev tr1 d,
         fetchEvent (fed_env fed_search (lit "fed rates") unbalanced_verdict) p id []
         = (Ok (Some ev), tr1)
         /\ sourceSlot p a = SlotLocal d
         /\ md_yesPrice d = num_or (firstYesPrice ev) 50
         /\ md_noPrice d = 100 - md_yesPrice d
         /\ (on_scale (md_yesPrice d) -> md_yesPrice d + md_noPrice d = 100)
         /\ (matchedSlot p a = SlotUnset
             \/ exists results response parsed j,
                  judgeAnswer (fed_env fed_search (lit "fed rates") unbalanced_verdict)
                    ev results (opposite p)
                    (ai_model_requested (post fed_url (lit "grok-4"))) = Ok response
                  /\ JSON_parse (judgeText response) = Ok parsed
                  /\ get (lit "matchedMarket") parsed = Ok (Some j)
                  /\ matchedSlot p a = SlotAgent j).
Proof.
  destruct unbalanced_run as (resp & tr & r & a & Hrun & Hbody & Hdata & _).
  exists resp, tr, r, a. repeat split; try assumption.
  exact (C2_source_slot_balanced
           (fed_env fed_search (lit "fed rates") unbalanced_verdict)
           (post fed_url (lit "grok-4")) resp tr r a Hrun Hbody Hdata).
Defined.

(** Off the scale the record the function builds is not balanced
    either: a first market quoted 1e22 gives 1e22 + (100 - 1e22) = 0. *)
Example source_record_off_scale :
  gammaMarket (gamma_market (Some (lit "[" ++ quoted (lit "1e20") ++ lit "]")))
  = Some {| title := lit "Will the Fed cut rates?"; yesPrice := 1e22 |}
  /\ md_yesPrice
       (sourceProjection
          {| eventTitle := lit "Fed decision in December?";
             markets := [{| title := lit "Will the Fed cut rates?"; yesPrice := 1e22 |}];
             source := polymarket |})
     + md_noPrice
         (sourceProjection
            {| eventTitle := lit "Fed decision in December?";
               markets := [{| title := lit "Will the Fed cut rates?"; yesPrice := 1e22 |}];
               source := polymarket |})
     = 0.
Proof. split; vm_compute; reflexivity. Qed.

(** ** Further scenarios of the specification *)

(** Fail-soft gateway: a transport failure of the event lookup (the
    call throws, the status is not a success, or the body is not
    JSON) makes the lookup return nothing, and a failure of the
    search makes it return the empty sequence; neither throws. *)
Theorem gateway_fail_soft (env : Env) (id query : jsstring) :
  let eventUrl := GAMMA_API_URL ++ lit "/events/slug/" ++ id in
  ((exists e, fetch env eventUrl = FetchThrows e)
   \/ (exists code payload, fetch env eventUrl = FetchResponse false code payload)
   \/ (exists code, fetch env eventUrl = FetchResponse true code None) ->
   run (fetchPolymarketEvent env id) = (Ok None, [CallFetch eventUrl])) /\
  ((exists e, dflowRequest env (lit "/event/" ++ id)
                [(lit "withNestedMarkets", JBool true)] = Throw e) ->
   run (fetchKalshiEvent env id)
   = (Ok None, [CallDflow (lit "/event/" ++ id) [(lit "withNestedMarkets", JBool true)]])) /\
  (forall encoded,
     encodeURIComponent query = Ok encoded ->
     let url := GAMMA_API_URL ++ lit "/events?status=open&q=" ++ encoded in
     (exists e, fetch env url = FetchThrows e)
     \/ (exists code payload, fetch env url = FetchResponse false code payload)
     \/ (exists code, fetch env url = FetchResponse true code None) ->
     run (searchPolymarket env query) = (Ok [], [CallFetch url])) /\
  (forall params,
     params = [(lit "q", JStr query);
               (lit "event_status", JStr (lit "open"));
               (lit "withNestedMarkets", JBool true)] ->
     (exists e, dflowRequest env (lit "/search") params = Throw e) ->
     run (searchKalshi env query) = (Ok [], [CallDflow (lit "/search") params])).
Proof.
  intros eventUrl. split; [|split; [|split]].
  - unfold run, fetchPolymarketEvent, catch, bind, call, lift, ret. fold eventUrl.
    intros [(e & ->) | [(code & payload & ->) | (code & ->)]]; reflexivity.
  - unfold run, fetchKalshiEvent, catch, bind, call, ret.
    intros (e & ->). reflexivity.
  - intros encoded Henc url.
    unfold run, searchPolymarket, catch, bind, call, lift, ret. rewrite Henc. fold url.
    intros [(e & ->) | [(code & payload & ->) | (code & ->)]]; reflexivity.
  - intros params -> (e & He).
    unfold run, searchKalshi, catch, bind, call, ret. rewrite He. reflexivity.
Qed.

(** With every service down, the lookups return nothing and the
    searches the empty sequence. *)
Lemma gateway_fail_soft_witness :
  run (fetchPolymarketEvent offline (lit "fed-decision"))
  = (Ok None, [CallFetch (lit "https://gamma-api.polymarket.com/events/slug/fed-decision")])
  /\ run (fetchKalshiEvent offline (lit "KXFED"))
     = (Ok None, [CallDflow (lit "/event/KXFED") [(lit "withNestedMarkets", JBool true)]])
  /\ run (searchPolymarket offline (lit "fed rates"))
     = (Ok [], [CallFetch (lit "https://gamma-api.polymarket.com/events?status=open&q=fed%20rates")])
  /\ run (searchKalshi offline (lit "fed rates"))
     = (Ok [], [CallDflow (lit "/search")
                  [(lit "q", JStr (lit "fed rates"));
                   (lit "event_status", JStr (lit "open"));
                   (lit "withNestedMarkets", JBool true)]]).
Proof.
  pose proof (gateway_fail_soft offline (lit "fed-decision") (lit "fed rates"))
    as (Hp & _ & Hs & Hk).
  pose proof (gateway_fail_soft offline (lit "KXFED") (lit "fed rates"))
    as (_ & Hf & _ & _).
  split; [|split; [|split]].
  - apply Hp. left. eexists. reflexivity.
  - apply Hf. eexists. reflexivity.
  - apply (Hs (lit "fed%20rates") eq_refl). left. eexists. reflexivity.
  - apply (Hk _ eq_refl). eexists. reflexivity.
Defined.

(** Source not found: when the URL resolves and the lookup returns
    nothing, or an event without any market, the handler answers 404
    with a text that names the source venue, and makes no AI call. *)
Theorem source_not_found env url model p id fetched tr :
  model <> [] ->
  detectPlatform url = Some p ->
  identifier env p url = Some id ->
  fetchEvent env p id [] = (Ok fetched, tr) ->
  (fetched = None \/ exists ev, fetched = Some ev /\ markets ev = []) ->
  run (handler env (post url model))
  = (Ok (failure 404 (lit "Could not fetch event data from " ++ source_name p
                      ++ lit ". The event may not exist or have no markets.")), tr).
Proof.
  intros Hmodel Hp Hid Hfetch Hnone. unfold run.
  rewrite (handler_resolved env url model p id [] Hmodel Hp Hid).
  apply catch_ok. rewrite (bind_ok _ _ _ _ _ Hfetch).
  destruct Hnone as [-> | (ev & -> & Hm)].
  - destruct p; reflexivity.
  - rewrite afterFetch_search, Hm. reflexivity.
Qed.

Lemma source_not_found_witness :
  run (handler offline (post fed_url (lit "grok-4")))
  = (Ok (failure 404 (lit "Could not fetch event data from polymarket"
                      ++ lit ". The event may not exist or have no markets.")),
     [CallFetch (lit "https://gamma-api.polymarket.com/events/slug/fed-decision")]).
Proof.
  apply (source_not_found offline fed_url (lit "grok-4") polymarket (lit "fed-decision") None).
  - discriminate.
  - reflexivity.
  - reflexivity.
  - reflexivity.
  - now left.
Defined.

(** The prices of the specification's examples: [outcomePrices] of
    0.37 and 0.63 gives 37, a bid of 40 and an ask of 44 give 42, as
    numbers in the event lookup and as texts in the search. *)
Theorem price_examples :
  gammaMarket (gamma_market (Some (lit "[" ++ quoted (lit "0.37") ++ lit ","
                                   ++ quoted (lit "0.63") ++ lit "]")))
  = Some {| title := lit "Will the Fed cut rates?"; yesPrice := 37 |}
  /\ dflowEventMarket
       {| dm_title := Some (lit "Fed cuts rates in December");
          dm_last_price := None; dm_yes_bid := Some 40; dm_yes_ask := Some 44;
          dm_yesAsk := None; dm_yesBid := None |}
     = Some {| title := lit "Fed cuts rates in December"; yesPrice := 42 |}
  /\ run (searchKalshi (fed_env fed_search (lit "fed") (lit "{}")) (lit "fed"))
     = (Ok [{| title := lit "Fed cuts rates in December"; yesPrice := 42 |}],
        [CallDflow (lit "/search")
           [(lit "q", JStr (lit "fed"));
            (lit "event_status", JStr (lit "open"));
            (lit "withNestedMarkets", JBool true)]]).
Proof. repeat split; vm_compute; reflexivity. Qed.

(** The record built for a source event is balanced when the price
    it takes from the first market (or the default) is on the 0-100
    scale: the two prices add up to exactly 100 in binary64
    arithmetic. *)
Theorem source_projection_balanced (ev : SourceEventData) :
  on_scale (num_or (firstYesPrice ev) 50) ->
  md_yesPrice (sourceProjection ev) + md_noPrice (sourceProjection ev) = 100.
Proof.
  intros [H0 H100]. cbn [sourceProjection md_yesPrice md_noPrice].
  now apply Binary64.price_balance.
Qed.

(** The balance at a first price of 0.1, which is no binary64 number
    and whose complement to 100 is rounded. *)
Lemma source_projection_balanced_witness :
  md_yesPrice
    (sourceProjection
       {| eventTitle := lit "Fed decision in December?";
          markets := [{| title := lit "Will the Fed cut rates?";
                         yesPrice := parseFloat_string (lit "0.1") |}];
          source := kalshi |})
  + md_noPrice
      (sourceProjection
         {| eventTitle := lit "Fed decision in December?";
            markets := [{| title := lit "Will the Fed cut rates?";
                           yesPrice := parseFloat_string (lit "0.1") |}];
            source := kalshi |})
  = 100.
Proof.
  apply source_projection_balanced. split; reflexivity.
Defined.

(** * Further properties of the code *)

(** ** Model routing *)

(** The allow-list adds nothing to the prefix test: a model
    identifier is routed to OpenAI exactly when it starts with
    [gpt-]. *)
Theorem isOpenAIModel_prefix (model : jsstring) :
  isOpenAIModel model = startsWith (lit "gpt-") model.
Proof.
  unfold isOpenAIModel.
  destruct (startsWith (lit "gpt-") model) eqn:E; [apply orb_true_r|].
  rewrite orb_false_r.
  destruct (existsb (eqb model) OPENAI_MODELS) eqn:Ex; [|reflexivity].
  apply existsb_eqb_In in Ex.
  pose proof OPENAI_MODELS_prefixed as H. rewrite Forall_forall in H.
  rewrite (H _ Ex) in E. discriminate.
Qed.

(** ** Venue detection *)

Lemma startsWith_app (p b : jsstring) : startsWith p (p ++ b) = true.
Proof. induction p as [|c p IH]; simpl; [reflexivity|]. now rewrite N.eqb_refl. Qed.

Lemma includes_app_l (p a s : jsstring) :
  includes p s = true -> includes p (a ++ s) = true.
Proof.
  intros H. induction a as [|c a IH]; [exact H|].
  simpl. rewrite IH. apply orb_true_r.
Qed.

Lemma includes_middle (p a b : jsstring) : includes p (a ++ p ++ b) = true.
Proof.
  apply includes_app_l. destruct (p ++ b) eqn:E; simpl.
  - destruct p; [reflexivity | discriminate].
  - rewrite <- E, startsWith_app. reflexivity.
Qed.

Lemma toLowerCase_app (a b : jsstring) :
  toLowerCase (a ++ b) = toLowerCase a ++ toLowerCase b.
Proof. apply flat_map_app. Qed.

(** The venue is detected from the whole URL string, not from its
    host: a URL that holds [polymarket.com] anywhere, in any letter
    case, names Polymarket, whatever else it holds; one that holds
    [kalshi.com] names Kalshi unless it also holds [polymarket.com]. *)
Theorem detectPlatform_anywhere (a m b : jsstring) :
  (toLowerCase m = lit "polymarket.com" ->
   detectPlatform (a ++ m ++ b) = Some polymarket) /\
  (toLowerCase m = lit "kalshi.com" ->
   detectPlatform (a ++ m ++ b)
   = if includes (lit "polymarket.com") (toLowerCase (a ++ m ++ b))
     then Some polymarket else Some kalshi).
Proof.
  split; intros Hm; unfold detectPlatform.
  - now rewrite !toLowerCase_app, Hm, includes_middle.
  - destruct (includes (lit "polymarket.com") _); [reflexivity|].
    now rewrite !toLowerCase_app, Hm, includes_middle.
Qed.

(** A Kalshi URL with a Polymarket address in its query string names
    Polymarket; an address in capitals is recognised. *)
Lemma detectPlatform_anywhere_witness :
  detectPlatform (lit "https://kalshi.com/markets/kxfed?ref=" ++ lit "PolyMarket.COM"
                  ++ lit "/event/x")
  = Some polymarket
  /\ detectPlatform (lit "https://example.org/?u=" ++ lit "KALSHI.com" ++ lit "")
     = Some kalshi.
Proof.
  split.
  - apply (proj1 (detectPlatform_anywhere (lit "https://kalshi.com/markets/kxfed?ref=")
                    (lit "PolyMarket.COM") (lit "/event/x"))).
    reflexivity.
  - apply (proj2 (detectPlatform_anywhere (lit "https://example.org/?u=")
                    (lit "KALSHI.com") (lit ""))).
    reflexivity.
Defined.

(** ** Shape of the extracted identifiers *)

Lemma pathParts_segments (pathname : jsstring) :
  Forall (fun w => w <> [] /\ ~ In 47%N w) (pathParts pathname).
Proof.
  unfold pathParts. apply Forall_forall. intros w Hw.
  apply filter_In in Hw as [Hin Ht]. split; [now apply truthy_nonempty|].
  pose proof (split_no_sep 47 pathname) as H. rewrite Forall_forall in H.
  now apply H.
Qed.

Lemma upper_unit_idem (c : N) : upper_unit (upper_unit c) = upper_unit c.
Proof.
  unfold upper_unit.
  destruct ((97 <=? c)%N && (c <=? 122)%N) eqn:E; [|now rewrite E].
  apply andb_true_iff in E as [H1 H2].
  apply N.leb_le in H1, H2.
  assert (H : (97 <=? c - 32)%N = false) by (apply N.leb_gt; lia).
  now rewrite H.
Qed.

Lemma upper_unit_slash (c : N) : upper_unit c = 47%N -> c = 47%N.
Proof.
  unfold upper_unit.
  destruct ((97 <=? c)%N && (c <=? 122)%N) eqn:E; [|easy].
  apply andb_true_iff in E as [H1 H2].
  apply N.leb_le in H1, H2. lia.
Qed.

Lemma toUpperCase_idem (s : jsstring) : toUpperCase (toUpperCase s) = toUpperCase s.
Proof.
  unfold toUpperCase. rewrite map_map. apply map_ext. apply upper_unit_idem.
Qed.

Lemma toUpperCase_no_slash (s : jsstring) : ~ In 47%N s -> ~ In 47%N (toUpperCase s).
Proof.
  intros H Hin. apply in_map_iff in Hin as (c & Hc & Hin).
  apply upper_unit_slash in Hc. now subst c.
Qed.

(** An extracted slug is never empty and holds no slash; an
    extracted ticker is never empty, holds no slash and is in upper
    case (upper-casing it again changes nothing). *)
Theorem identifier_shape (env : Env) (url : jsstring) :
  (forall slug, extractPolymarketSlug env url = Some slug ->
     slug <> [] /\ ~ In 47%N slug) /\
  (forall ticker, extractKalshiTicker env url = Some ticker ->
     ticker <> [] /\ ~ In 47%N ticker /\ toUpperCase ticker = ticker).
Proof.
  split.
  - intros slug. unfold extractPolymarketSlug.
    destruct (URL_pathname env url) as [path|]; [|discriminate].
    destruct (_ && _); [|discriminate]. intros H.
    apply nth_error_In in H.
    pose proof (pathParts_segments path) as Hall.
    rewrite Forall_forall in Hall. now apply Hall.
  - intros ticker. unfold extractKalshiTicker.
    destruct (URL_pathname env url) as [path|]; [|discriminate].
    destruct (_ && _); [|discriminate].
    pose proof (pathParts_segments path) as Hall.
    rewrite Forall_forall in Hall.
    assert (Hseg : forall o, option_map toUpperCase o = Some ticker ->
                     (forall seg, o = Some seg -> In seg (pathParts path)) ->
                     ticker <> [] /\ ~ In 47%N ticker /\ toUpperCase ticker = ticker).
    { intros [seg|]; [|discriminate]. intros [= <-] Hin.
      destruct (Hall seg (Hin seg eq_refl)) as [Hne Hns].
      split; [now apply toUpperCase_nonempty|].
      split; [now apply toUpperCase_no_slash | apply toUpperCase_idem]. }
    destruct (4 <=? _)%nat; intros H; apply (Hseg _ H);
      intros seg E; eapply nth_error_In; exact E.
Qed.

(** The slug and the ticker of two concrete URLs. *)
Lemma identifier_shape_witness :
  (lit "fed-decision" <> [] /\ ~ In 47%N (lit "fed-decision"))
  /\ (lit "KXFED-25DEC" <> [] /\ ~ In 47%N (lit "KXFED-25DEC")
      /\ toUpperCase (lit "KXFED-25DEC") = lit "KXFED-25DEC").
Proof.
  split.
  - apply (proj1 (identifier_shape offline
                    (lit "https://polymarket.com/event/fed-decision/will-cut"))).
    reflexivity.
  - apply (proj2 (identifier_shape offline
                    (lit "https://kalshi.com/markets/kxfed/fed-decision/kxfed-25dec"))).
    reflexivity.
Defined.

(** ** Empty path segments *)

Lemma split_nonempty (sep : N) (s : jsstring) : split sep s <> [].
Proof.
  induction s as [|c s IH]; simpl; [discriminate|].
  destruct (N.eqb c sep); [discriminate|].
  destruct (split sep s); discriminate.
Qed.

Lemma split_app (sep : N) (a r : jsstring) :
  split sep (a ++ sep :: r) = split sep a ++ split sep r.
Proof.
  induction a as [|c a IH]; simpl.
  - now rewrite N.eqb_refl.
  - destruct (N.eqb c sep); [now rewrite IH|].
    rewrite IH. pose proof (split_nonempty sep a) as Hne.
    destruct (split sep a); [congruence | reflexivity].
Qed.

Lemma pathParts_app (a b : jsstring) :
  pathParts (a ++ 47%N :: b) = pathParts a ++ pathParts b.
Proof. unfold pathParts. now rewrite split_app, filter_app. Qed.

(** The segments of a path are those before a slash followed by those
    after it; so a doubled slash and a trailing slash change neither
    the segments nor the identifier that is extracted. *)
Theorem extraction_ignores_empty_segments (env : Env) (p : ArbitrageMarketSource)
    (u1 u2 a b : jsstring) :
  URL_pathname env u1 = Some (a ++ 47%N :: b) ->
  URL_pathname env u2 = Some (a ++ 47%N :: 47%N :: b)
  \/ URL_pathname env u2 = Some (a ++ 47%N :: b ++ [47%N]) ->
  pathParts (a ++ 47%N :: b) = pathParts a ++ pathParts b
  /\ identifier env p u2 = identifier env p u1.
Proof.
  intros H1 H2. split; [apply pathParts_app|].
  assert (E : exists path2, URL_pathname env u2 = Some path2
                            /\ pathParts path2 = pathParts (a ++ 47%N :: b)).
  { destruct H2 as [H2|H2]; eexists; (split; [exact H2|]).
    - now rewrite !pathParts_app.
    - change (a ++ 47%N :: b ++ [47%N]) with (a ++ (47%N :: b) ++ 47%N :: []).
      rewrite app_assoc, pathParts_app. change (pathParts []) with (@nil jsstring).
      now rewrite app_nil_r. }
  destruct E as (path2 & E2 & Eparts).
  destruct p; simpl; unfold extractPolymarketSlug, extractKalshiTicker;
    now rewrite H1, E2, Eparts.
Qed.

(** A doubled slash before the slug and a slash after the ticker. *)
Lemma extraction_ignores_empty_segments_witness :
  identifier offline polymarket (lit "https://polymarket.com/event//fed-decision")
  = identifier offline polymarket (lit "https://polymarket.com/event/fed-decision")
  /\ identifier offline kalshi (lit "https://kalshi.com/events/kxfed/")
     = identifier offline kalshi (lit "https://kalshi.com/events/kxfed").
Proof.
  split.
  - apply (extraction_ignores_empty_segments offline polymarket
             (lit "https://polymarket.com/event/fed-decision")
             (lit "https://polymarket.com/event//fed-decision")
             (lit "/event") (lit "fed-decision")).
    + reflexivity.
    + left. reflexivity.
  - apply (extraction_ignores_empty_segments offline kalshi
             (lit "https://kalshi.com/events/kxfed")
             (lit "https://kalshi.com/events/kxfed/")
             (lit "/events") (lit "kxfed")).
    + reflexivity.
    + right. reflexivity.
Defined.

(** ** Which upstream markets are kept, and in which order *)

Lemma marketsOf_titles {A} (f : A -> option SimplifiedMarket) (t : A -> jsstring)
    (x : option (list A)) :
  (forall a, match f a with
             | Some m => title m = t a /\ truthy (t a) = true
             | None => truthy (t a) = false
             end) ->
  map title (marketsOf f x) = filter truthy (map t (entries x)).
Proof.
  intros H. destruct x as [l|]; [|reflexivity]. simpl.
  induction l as [|a l IH]; [reflexivity|].
  simpl. rewrite map_app, IH. specialize (H a).
  destruct (f a) as [m|].
  - destruct H as [<- ->]. reflexivity.
  - now rewrite H.
Qed.

Lemma gammaMarket_gammaTitle (market : GammaMarket) :
  match gammaMarket market with
  | Some m => title m = gammaTitle market /\ truthy (gammaTitle market) = true
  | None => truthy (gammaTitle market) = false
  end.
Proof.
  unfold gammaMarket, gammaTitle.
  destruct (truthy (str_or _ _)); [split; reflexivity | reflexivity].
Qed.

Lemma dflowEventMarket_dflowTitle (market : DflowMarket) :
  match dflowEventMarket market with
  | Some m => title m = dflowTitle market /\ truthy (dflowTitle market) = true
  | None => truthy (dflowTitle market) = false
  end.
Proof.
  unfold dflowEventMarket, dflowTitle.
  destruct (truthy (str_or _ _)); [split; reflexivity | reflexivity].
Qed.

Lemma dflowSearchMarket_dflowTitle (market : DflowMarket) :
  match dflowSearchMarket market with
  | Some m => title m = dflowTitle market /\ truthy (dflowTitle market) = true
  | None => truthy (dflowTitle market) = false
  end.
Proof.
  unfold dflowSearchMarket, dflowTitle.
  destruct (truthy (str_or _ _)); [split; reflexivity | reflexivity].
Qed.

Lemma flat_map_titles {A B} (f : A -> list SimplifiedMarket) (g : A -> list B)
    (t : B -> jsstring) (l : list A) :
  (forall a, map title (f a) = filter truthy (map t (g a))) ->
  map title (flat_map f l) = filter truthy (map t (flat_map g l)).
Proof.
  intros H. induction l as [|a l IH]; [reflexivity|].
  simpl. now rewrite !map_app, filter_app, H, IH.
Qed.

(** When the upstream service answers with an event, the lookup
    returns an event of that venue whose title is the upstream title,
    or the fallback when that is missing or empty (the slug with its
    dashes turned into spaces; the ticker), and whose markets are the
    upstream markets that have a title (for Polymarket the question,
    else the title), in the upstream order. *)
Theorem lookup_keeps_titled_markets (env : Env) (id : jsstring) :
  (forall code e,
     fetch env (GAMMA_API_URL ++ lit "/events/slug/" ++ id)
     = FetchResponse true code (Some (GammaObject e)) ->
     exists ev,
       run (fetchPolymarketEvent env id)
       = (Ok (Some ev), [CallFetch (GAMMA_API_URL ++ lit "/events/slug/" ++ id)])
       /\ source ev = polymarket
       /\ eventTitle ev = str_or (ge_title e) (dashesToSpaces id)
       /\ map title (markets ev)
          = filter truthy (map gammaTitle (entries (ge_markets e)))) /\
  (forall response,
     dflowRequest env (lit "/event/" ++ id) [(lit "withNestedMarkets", JBool true)]
     = Ok response ->
     exists ev,
       run (fetchKalshiEvent env id)
       = (Ok (Some ev),
          [CallDflow (lit "/event/" ++ id) [(lit "withNestedMarkets", JBool true)]])
       /\ source ev = kalshi
       /\ eventTitle ev = str_or (db_title response) id
       /\ map title (markets ev)
          = filter truthy (map dflowTitle (entries (db_markets response)))).
Proof.
  split.
  - intros code e H. eexists. split.
    + unfold run, fetchPolymarketEvent, catch, bind, call, lift, ret.
      rewrite H. reflexivity.
    + cbn [source eventTitle markets]. split; [reflexivity|]. split; [reflexivity|].
      apply marketsOf_titles, gammaMarket_gammaTitle.
  - intros response H. eexists. split.
    + unfold run, fetchKalshiEvent, catch, bind, call, ret.
      rewrite H. reflexivity.
    + cbn [source eventTitle markets]. split; [reflexivity|]. split; [reflexivity|].
      apply marketsOf_titles, dflowEventMarket_dflowTitle.
Qed.

(** A Polymarket event with one market, and a Kalshi event without
    title whose second market has an empty title. *)
Lemma lookup_keeps_titled_markets_witness :
  (exists ev,
     run (fetchPolymarketEvent (fed_env no_events (lit "fed") (lit "{}")) (lit "fed-decision"))
     = (Ok (Some ev), [CallFetch (GAMMA_API_URL ++ lit "/events/slug/" ++ lit "fed-decision")])
     /\ source ev = polymarket
     /\ eventTitle ev = lit "Fed decision in December?"
     /\ map title (markets ev) = [lit "Will the Fed cut rates?"])
  /\ (exists ev,
        run (fetchKalshiEvent (fed_env kxfed_event (lit "fed") (lit "{}")) (lit "KXFED"))
        = (Ok (Some ev),
           [CallDflow (lit "/event/" ++ lit "KXFED") [(lit "withNestedMarkets", JBool true)]])
        /\ source ev = kalshi
        /\ eventTitle ev = lit "KXFED"
        /\ map title (markets ev) = [lit "Fed cuts rates in December"]).
Proof.
  split.
  - exact (proj1 (lookup_keeps_titled_markets (fed_env no_events (lit "fed") (lit "{}"))
                    (lit "fed-decision"))
             200%Z
             {| ge_title := Some (lit "Fed decision in December?");
                ge_markets := Some
                  [{| gm_question := Some (lit "Will the Fed cut rates?");
                      gm_title := None;
                      gm_outcomePrices :=
                        Some (lit "[" ++ quoted (lit "0.37") ++ lit ", "
                              ++ quoted (lit "0.63") ++ lit "]") |}] |}
             eq_refl).
  - exact (proj2 (lookup_keeps_titled_markets
                    (fed_env kxfed_event (lit "fed") (lit "{}")) (lit "KXFED"))
             kxfed_event eq_refl).
Defined.

(** When the upstream service answers with events, the search
    returns the markets of all of them that have a title, event after
    event and in the upstream order within an event. *)
Theorem search_keeps_titled_markets (env : Env) (query : jsstring) :
  (forall encoded code es,
     encodeURIComponent query = Ok encoded ->
     fetch env (GAMMA_API_URL ++ lit "/events?status=open&q=" ++ encoded)
     = FetchResponse true code (Some (GammaArray es)) ->
     exists results,
       run (searchPolymarket env query)
       = (Ok results,
          [CallFetch (GAMMA_API_URL ++ lit "/events?status=open&q=" ++ encoded)])
       /\ map title results
          = filter truthy
              (map gammaTitle (flat_map (fun event => entries (ge_markets event)) es))) /\
  (forall response,
     dflowRequest env (lit "/search")
       [(lit "q", JStr query); (lit "event_status", JStr (lit "open"));
        (lit "withNestedMarkets", JBool true)] = Ok response ->
     exists results,
       run (searchKalshi env query)
       = (Ok results,
          [CallDflow (lit "/search")
             [(lit "q", JStr query); (lit "event_status", JStr (lit "open"));
              (lit "withNestedMarkets", JBool true)]])
       /\ map title results
          = filter truthy
              (map dflowTitle
                 (flat_map (fun event => entries (de_markets event))
                    (entries (db_events response))))).
Proof.
  split.
  - intros encoded code es Henc H. eexists. split.
    + unfold run, searchPolymarket, catch, bind, call, lift, ret.
      rewrite Henc, H. reflexivity.
    + apply flat_map_titles. intros event.
      apply marketsOf_titles, gammaMarket_gammaTitle.
  - intros response H. eexists. split.
    + unfold run, searchKalshi, catch, bind, call, ret.
      rewrite H. reflexivity.
    + destruct (db_events response) as [events|]; [|reflexivity].
      apply flat_map_titles. intros event.
      apply marketsOf_titles, dflowSearchMarket_dflowTitle.
Qed.

(** A Gamma result of two events, of which the second holds a titled
    and an untitled market; and the DFlow result [fed_search]. *)
Lemma search_keeps_titled_markets_witness :
  (exists results,
     run (searchPolymarket gamma_search_env (lit "fed rates"))
     = (Ok results,
        [CallFetch (GAMMA_API_URL ++ lit "/events?status=open&q=" ++ lit "fed%20rates")])
     /\ map title results = [lit "Will the Fed cut rates?"])
  /\ (exists results,
        run (searchKalshi (fed_env fed_search (lit "fed") (lit "{}")) (lit "fed rates"))
        = (Ok results,
           [CallDflow (lit "/search")
              [(lit "q", JStr (lit "fed rates")); (lit "event_status", JStr (lit "open"));
               (lit "withNestedMarkets", JBool true)]])
        /\ map title results = [lit "Fed cuts rates in December"]).
Proof.
  split.
  - exact (proj1 (search_keeps_titled_markets gamma_search_env (lit "fed rates"))
             (lit "fed%20rates") 200%Z gamma_results eq_refl eq_refl).
  - exact (proj2 (search_keeps_titled_markets
                    (fed_env fed_search (lit "fed") (lit "{}")) (lit "fed rates"))
             fed_search eq_refl).
Defined.

(** ** The title of a fetched event *)

Lemma dashesToSpaces_nonempty (s : jsstring) : s <> [] -> dashesToSpaces s <> [].
Proof. destruct s; [congruence | discriminate]. Qed.

Lemma str_or_nonempty (a : option jsstring) (b : jsstring) : b <> [] -> str_or a b <> [].
Proof.
  intros Hb. unfold str_or. destruct a as [s|]; [|exact Hb].
  destruct (truthy s) eqn:E; [now apply truthy_nonempty | exact Hb].
Qed.

Lemma fetchEvent_named env p id tr ev tr' :
  id <> [] ->
  fetchEvent env p id tr = (Ok (Some ev), tr') ->
  eventTitle ev <> [].
Proof.
  intros Hid. destruct p; unfold fetchEvent.
  - unfold fetchPolymarketEvent, catch, bind, call, lift, ret.
    destruct (fetch env _) as [e|ok code payload]; [discriminate|].
    destruct ok; cbn [negb]; [|discriminate].
    destruct payload as [[e|es]|]; try discriminate;
      intros [= <- _]; cbn [eventTitle];
      first [apply str_or_nonempty | idtac]; apply dashesToSpaces_nonempty, Hid.
  - unfold fetchKalshiEvent, catch, bind, call, ret.
    destruct (dflowRequest env _ _) as [response|e]; [|discriminate].
    intros [= <- _]. cbn [eventTitle]. now apply str_or_nonempty.
Qed.

(** An event fetched for a non-empty identifier has a non-empty
    title and is tagged with the venue it was fetched from, whatever
    the upstream payload holds. *)
Theorem fetched_event_is_named (env : Env) (p : ArbitrageMarketSource)
    (id : jsstring) (tr tr' : Trace) (ev : SourceEventData) :
  id <> [] ->
  fetchEvent env p id tr = (Ok (Some ev), tr') ->
  eventTitle ev <> [] /\ source ev = p.
Proof.
  intros Hid H. split.
  - exact (fetchEvent_named env p id tr ev tr' Hid H).
  - exact (fetchEvent_source env p id tr ev tr' H).
Qed.

Lemma fetched_event_is_named_witness :
  eventTitle fed_source <> [] /\ source fed_source = polymarket.
Proof.
  apply (fetched_event_is_named (fed_env no_events (lit "fed") (lit "{}")) polymarket
           (lit "fed-decision") [] [fed_lookup] fed_source).
  - discriminate.
  - vm_compute. reflexivity.
Defined.

(** ** Prices of Polymarket markets *)

(** Where the default price applies: a Polymarket market whose
    [outcomePrices] is missing, empty, not JSON or the JSON [null],
    and a Kalshi search market whose ask and bid are both missing or
    empty, are priced 50. *)
Theorem default_price_applies :
  (forall market m,
     gammaMarket market = Some m ->
     opt_truthy (gm_outcomePrices market) = false
     \/ (exists s e, gm_outcomePrices market = Some s /\ JSON_parse s = Throw e)
     \/ (exists s, gm_outcomePrices market = Some s /\ JSON_parse s = Ok JNull) ->
     yesPrice m = 50) /\
  (forall market m,
     dflowSearchMarket market = Some m ->
     opt_truthy (dm_yesAsk market) = false ->
     opt_truthy (dm_yesBid market) = false ->
     yesPrice m = 50).
Proof.
  split.
  - exact gammaMarket_default.
  - exact dflowSearchMarket_default.
Qed.

(** The default on a market whose [outcomePrices] is the text [n/a],
    and on a search market without ask and with an empty bid. *)
Lemma default_price_applies_witness :
  (exists m, gammaMarket (gamma_market (Some (lit "n/a"))) = Some m /\ yesPrice m = 50)
  /\ (exists m,
        dflowSearchMarket
          {| dm_title := Some (lit "Fed cuts rates in December");
             dm_last_price := None; dm_yes_bid := None; dm_yes_ask := None;
             dm_yesAsk := None; dm_yesBid := Some (lit "") |} = Some m
        /\ yesPrice m = 50).
Proof.
  split.
  - eexists. split; [reflexivity|].
    apply (proj1 default_price_applies (gamma_market (Some (lit "n/a")))).
    + reflexivity.
    + right. left. exists (lit "n/a"), SyntaxError. split; reflexivity.
  - eexists. split; [reflexivity|].
    apply (proj2 default_price_applies
             {| dm_title := Some (lit "Fed cuts rates in December");
                dm_last_price := None; dm_yes_bid := None; dm_yes_ask := None;
                dm_yesAsk := None; dm_yesBid := Some (lit "") |});
      reflexivity.
Defined.

Lemma json_string_plain (p rest acc : jsstring) :
  plainText p ->
  json_string (p ++ 34%N :: rest) acc = Some (rev acc ++ p, rest).
Proof.
  revert acc. induction p as [|c p IH]; intros acc Hp.
  - simpl. now rewrite app_nil_r.
  - inversion Hp as [|? ? (H34 & H92 & H32) Hp']; subst.
    simpl. apply N.eqb_neq in H34, H92. rewrite H34, H92.
    assert (E : (c <? 32)%N = false) by (apply N.ltb_ge; exact H32).
    rewrite E, IH by assumption. simpl. now rewrite <- app_assoc.
Qed.

Lemma pricePair_units (yes no : jsstring) :
  pricePair yes no
  = 91%N :: 34%N :: yes ++ 34%N :: 44%N :: 32%N :: 34%N :: no ++ [34%N; 93%N].
Proof.
  unfold pricePair, quoted. simpl. now rewrite <- !app_assoc.
Qed.

(** [JSON.parse] reads a pair of plain strings back. *)
Lemma JSON_parse_pricePair (yes no : jsstring) :
  plainText yes -> plainText no ->
  JSON_parse (pricePair yes no) = Ok (JArr [JStr yes; JStr no]).
Proof.
  intros Hy Hn. rewrite pricePair_units. unfold JSON_parse.
  remember (List.length (91%N :: 34%N :: yes ++ 34%N :: 44%N :: 32%N :: 34%N
                           :: no ++ [34%N; 93%N])) as fuel eqn:Ef.
  simpl in Ef. destruct fuel as [|fuel]; [discriminate|]. clear Ef.
  cbn -[json_string]. rewrite json_string_plain by assumption.
  cbn -[json_string]. rewrite json_string_plain by assumption.
  reflexivity.
Qed.

(** A titled Polymarket market whose [outcomePrices] is a JSON array
    of two plain strings is priced at one hundred times what
    [parseFloat] reads from the first string; the second string plays
    no part. *)
Theorem gamma_price_of_pair (market : GammaMarket) (yes no : jsstring) :
  plainText yes -> plainText no ->
  gm_outcomePrices market = Some (pricePair yes no) ->
  gammaTitle market <> [] ->
  gammaMarket market
  = Some {| title := gammaTitle market; yesPrice := parseFloat_string yes * 100 |}.
Proof.
  intros Hy Hn Hp Ht. unfold gammaMarket. fold (gammaTitle market).
  apply truthy_nonempty in Ht. rewrite Ht, Hp.
  change (truthy (pricePair yes no)) with true. cbv iota.
  now rewrite JSON_parse_pricePair.
Qed.

(** Prices 0.37 and 0.63 give 37. *)
Lemma gamma_price_of_pair_witness :
  gammaMarket (gamma_market (Some (pricePair (lit "0.37") (lit "0.63"))))
  = Some {| title := lit "Will the Fed cut rates?"; yesPrice := 37 |}.
Proof.
  apply (gamma_price_of_pair
           (gamma_market (Some (pricePair (lit "0.37") (lit "0.63"))))
           (lit "0.37") (lit "0.63")).
  - unfold plainText. repeat constructor; try discriminate.
  - unfold plainText. repeat constructor; try discriminate.
  - reflexivity.
  - discriminate.
Defined.

(** ** The URL of a Polymarket search *)

Lemma hex_digit_unreserved (n : N) : (n < 16)%N -> isUnreserved (hex_digit n) = true.
Proof.
  intros H.
  assert (E : In n [0; 1; 2; 3; 4; 5; 6; 7; 8; 9; 10; 11; 12; 13; 14; 15]%N).
  { simpl. lia. }
  simpl in E.
  repeat (destruct E as [<-|E]; [reflexivity|]). destruct E.
Qed.

Lemma percent_urlSafe (byte : N) :
  (byte < 256)%N -> Forall (fun c => urlSafe c = true) (percent byte).
Proof.
  intros H. unfold percent, urlSafe. repeat constructor.
  - rewrite hex_digit_unreserved; [reflexivity|].
    apply N.Div0.div_lt_upper_bound. lia.
  - rewrite hex_digit_unreserved; [reflexivity|].
    apply N.mod_lt. discriminate.
Qed.

Lemma utf8_bytes (cp : N) :
  (cp < 1114112)%N -> Forall (fun b => (b < 256)%N) (utf8 cp).
Proof.
  intros H. unfold utf8.
  assert (M : forall x, (x mod 64 < 64)%N) by (intros; apply N.mod_lt; discriminate).
  destruct (cp <? 128)%N eqn:E1; [apply N.ltb_lt in E1; repeat constructor; lia|].
  destruct (cp <? 2048)%N eqn:E2.
  { apply N.ltb_lt in E2.
    assert (cp / 64 < 32)%N by (apply N.Div0.div_lt_upper_bound; lia).
    pose proof (M cp). repeat constructor; lia. }
  destruct (cp <? 65536)%N eqn:E3.
  { apply N.ltb_lt in E3.
    assert (cp / 4096 < 16)%N by (apply N.Div0.div_lt_upper_bound; lia).
    pose proof (M cp). pose proof (M (cp / 64)%N). repeat constructor; lia. }
  assert (cp / 262144 < 5)%N by (apply N.Div0.div_lt_upper_bound; lia).
  pose proof (M cp). pose proof (M (cp / 64)%N). pose proof (M (cp / 4096)%N).
  repeat constructor; lia.
Qed.

Lemma escaped_urlSafe (cp : N) :
  (cp < 1114112)%N -> Forall (fun c => urlSafe c = true) (flat_map percent (utf8 cp)).
Proof.
  intros H. pose proof (utf8_bytes cp H) as Hb.
  induction Hb as [|b l Hb _ IH]; [constructor|].
  change (flat_map percent (b :: l)) with (percent b ++ flat_map percent l).
  apply Forall_app. split; [now apply percent_urlSafe | exact IH].
Qed.

Lemma encodeURIComponent_urlSafe (n : nat) (s t : jsstring) :
  (List.length s <= n)%nat ->
  utf16 s ->
  encodeURIComponent s = Ok t ->
  Forall (fun c => urlSafe c = true) t.
Proof.
  revert s t. induction n as [|n IH]; intros s t Hn Hs.
  - destruct s; [|simpl in Hn; lia]. intros [= <-]. constructor.
  - destruct s as [|c r]; [intros [= <-]; constructor|].
    inversion Hs as [|? ? Hc Hr]; subst.
    simpl in Hn. assert (Hn' : (List.length r <= n)%nat) by lia.
    simpl encodeURIComponent.
    destruct (isUnreserved c) eqn:Eu.
    { destruct (encodeURIComponent r) as [t'|] eqn:Er; [|discriminate].
      intros [= <-]. constructor.
      - unfold urlSafe. now rewrite Eu.
      - now apply (IH r). }
    destruct ((56320 <=? c)%N && (c <=? 57343)%N); [discriminate|].
    destruct ((55296 <=? c)%N && (c <=? 56319)%N) eqn:Eh.
    { destruct r as [|d r']; [discriminate|].
      destruct ((56320 <=? d)%N && (d <=? 57343)%N) eqn:El; [|discriminate].
      destruct (encodeURIComponent r') as [t'|] eqn:Er; [|discriminate].
      intros [= <-]. apply Forall_app. split.
      - apply escaped_urlSafe.
        apply andb_true_iff in Eh as [H1 H2]. apply N.leb_le in H1, H2.
        apply andb_true_iff in El as [H3 H4]. apply N.leb_le in H3, H4.
        lia.
      - inversion Hr; subst. apply (IH r'); [simpl in Hn'; lia | assumption | exact Er]. }
    destruct (encodeURIComponent r) as [t'|] eqn:Er; [|discriminate].
    intros [= <-]. apply Forall_app. split.
    + apply escaped_urlSafe. lia.
    + now apply (IH r).
Qed.

Lemma encodeURIComponent_throws (s : jsstring) (e : Exn) :
  encodeURIComponent s = Throw e -> e = URIError.
Proof.
  remember (List.length s) as n eqn:Hn.
  assert (Hle : (List.length s <= n)%nat) by lia. clear Hn.
  revert s Hle. induction n as [|n IH]; intros s Hn.
  - destruct s; [discriminate | simpl in Hn; lia].
  - destruct s as [|c r]; [discriminate|].
    simpl in Hn. assert (Hn' : (List.length r <= n)%nat) by lia.
    simpl encodeURIComponent.
    destruct (isUnreserved c).
    { destruct (encodeURIComponent r) eqn:Er; [discriminate|].
      intros [= <-]. now apply (IH r). }
    destruct ((56320 <=? c)%N && (c <=? 57343)%N); [congruence|].
    destruct ((55296 <=? c)%N && (c <=? 56319)%N).
    { destruct r as [|d r']; [congruence|].
      destruct ((56320 <=? d)%N && (d <=? 57343)%N); [|congruence].
      destruct (encodeURIComponent r') eqn:Er; [discriminate|].
      intros [= <-]. apply (IH r'); [simpl in Hn'; lia | exact Er]. }
    destruct (encodeURIComponent r) eqn:Er; [discriminate|].
    intros [= <-]. now apply (IH r).
Qed.

(** A Polymarket search makes one request, to the search address
    followed by the encoded query, and the encoded query holds only
    unreserved characters and percent signs: whatever the query
    holds, it stays within the one parameter.  The only query for
    which no request is made is one with a lone surrogate, and the
    search then returns nothing. *)
Theorem searchPolymarket_url (env : Env) (query : jsstring) (tr : Trace) :
  utf16 query ->
  (exists encoded results,
     encodeURIComponent query = Ok encoded
     /\ Forall (fun c => urlSafe c = true) encoded
     /\ searchPolymarket env query tr
        = (Ok results,
           tr ++ [CallFetch (GAMMA_API_URL ++ lit "/events?status=open&q=" ++ encoded)]))
  \/ (encodeURIComponent query = Throw URIError
      /\ searchPolymarket env query tr = (Ok [], tr)).
Proof.
  intros Hq. destruct (encodeURIComponent query) as [encoded|e] eqn:E.
  - left. exists encoded.
    assert (Hsafe : Forall (fun c => urlSafe c = true) encoded)
      by (now apply (encodeURIComponent_urlSafe (List.length query) query)).
    unfold searchPolymarket, catch, bind, call, lift, ret. rewrite E.
    destruct (fetch env _) as [e|ok code payload].
    + eexists. split; [reflexivity|]. split; [exact Hsafe | reflexivity].
    + destruct ok; cbn [negb];
        [|eexists; split; [reflexivity|]; split; [exact Hsafe | reflexivity]].
      destruct payload as [[ev|es]|]; eexists;
        (split; [reflexivity|]); (split; [exact Hsafe | reflexivity]).
  - right. rewrite (encodeURIComponent_throws _ _ E). split; [reflexivity|].
    unfold searchPolymarket, catch, bind, call, lift, ret. rewrite E. reflexivity.
Qed.

(** A query with an ampersand and a question mark, and a query that
    ends in a lone surrogate. *)
Lemma searchPolymarket_url_witness :
  ((exists encoded results,
      encodeURIComponent (lit "fed & rates?") = Ok encoded
      /\ Forall (fun c => urlSafe c = true) encoded
      /\ searchPolymarket offline (lit "fed & rates?") []
         = (Ok results,
            [] ++ [CallFetch (GAMMA_API_URL ++ lit "/events?status=open&q=" ++ encoded)]))
   \/ (encodeURIComponent (lit "fed & rates?") = Throw URIError
       /\ searchPolymarket offline (lit "fed & rates?") [] = (Ok [], [])))
  /\ ((exists encoded results,
         encodeURIComponent (lit "fed" ++ [55357%N]) = Ok encoded
         /\ Forall (fun c => urlSafe c = true) encoded
         /\ searchPolymarket offline (lit "fed" ++ [55357%N]) []
            = (Ok results,
               [] ++ [CallFetch (GAMMA_API_URL ++ lit "/events?status=open&q=" ++ encoded)]))
      \/ (encodeURIComponent (lit "fed" ++ [55357%N]) = Throw URIError
          /\ searchPolymarket offline (lit "fed" ++ [55357%N]) [] = (Ok [], []))).
Proof.
  split.
  - apply (searchPolymarket_url offline (lit "fed & rates?") []).
    unfold utf16. repeat constructor.
  - apply (searchPolymarket_url offline (lit "fed" ++ [55357%N]) []).
    unfold utf16. repeat constructor.
Defined.

(** ** Stability of the query clean-up *)

Lemma lastNotSpace_app (a b : jsstring) :
  b <> [] -> lastNotSpace (a ++ b) = lastNotSpace b.
Proof.
  intros Hb. induction a as [|c a IH]; [reflexivity|].
  simpl app. destruct (a ++ b) eqn:E.
  - destruct a; destruct b; simpl in E; congruence.
  - rewrite <- IH. reflexivity.
Qed.

Lemma noSpace_lastNotSpace (w : jsstring) : noSpace w -> lastNotSpace w = true.
Proof.
  induction 1 as [|c w Hc Hw IH]; [reflexivity|].
  destruct w; simpl; [now rewrite Hc | exact IH].
Qed.

Lemma trimEnd_id (s : jsstring) : lastNotSpace s = true -> trimEnd s = s.
Proof.
  intros H. unfold trimEnd.
  destruct s as [|c s] using rev_ind; [reflexivity|].
  rewrite lastNotSpace_snoc in H. apply negb_true_iff in H.
  rewrite rev_app_distr. simpl. rewrite H. simpl.
  now rewrite rev_involutive.
Qed.

Lemma trim_id (c : N) (w : jsstring) :
  isWhiteSpace c = false -> lastNotSpace (c :: w) = true -> trim (c :: w) = c :: w.
Proof.
  intros Hc Hl. unfold trim. simpl trimStart. rewrite Hc. now apply trimEnd_id.
Qed.

Lemma removeQuotes_id (s : jsstring) :
  Forall (fun c => isQuote c = false) s -> removeQuotes s = s.
Proof.
  intros H. unfold removeQuotes. induction H as [|c s Hc _ IH]; [reflexivity|].
  simpl. now rewrite Hc, IH.
Qed.

Lemma cleanQuery_shape (text : jsstring) :
  cleanQuery text = []
  \/ word (cleanQuery text)
  \/ exists w1 w2, cleanQuery text = w1 ++ 32%N :: w2 /\ word w1 /\ word w2.
Proof.
  unfold cleanQuery, slice0.
  destruct (split_ws_trim (removeQuotes text)) as [(E & Hs & Ht) | (Hne & Hs)].
  - left. rewrite Hs. reflexivity.
  - assert (Hw : Forall word (split_ws (trim (removeQuotes text)))).
    { apply Forall_forall. intros w Hin. repeat split.
      - rewrite Hs, tokens_split_ws in Hin. apply filter_In in Hin as [_ Hin].
        now apply truthy_nonempty.
      - pose proof (split_ws_from_noSpace (trim (removeQuotes text)) [] false
                      (Forall_nil _)) as H.
        rewrite Forall_forall in H. now apply H.
      - pose proof (split_ws_from_Forall (fun c => isQuote c = false)
                      (trim (removeQuotes text)) [] false (Forall_nil _)
                      (trim_Forall _ _ (removeQuotes_noQuote text))) as H.
        rewrite Forall_forall in H. now apply H. }
    destruct (split_ws (trim (removeQuotes text))) as [|w1 [|w2 rest]].
    + now left.
    + right. left. inversion Hw; subst. assumption.
    + right. right. exists w1, w2.
      inversion Hw as [|? ? H1 Hw']; subst. inversion Hw' as [|? ? H2 _]; subst.
      repeat split; try apply H1; try apply H2.
Qed.

Lemma cleanQuery_word (w : jsstring) : word w -> cleanQuery w = w.
Proof.
  intros (Hne & Hs & Hq). unfold cleanQuery, slice0.
  rewrite (removeQuotes_id _ Hq).
  destruct w as [|c w]; [congruence|].
  inversion Hs as [|? ? Hc Hw]; subst.
  rewrite trim_id; [|assumption | now apply noSpace_lastNotSpace].
  unfold split_ws. rewrite split_ws_from_word by assumption. reflexivity.
Qed.

Lemma cleanQuery_two_words (w1 w2 : jsstring) :
  word w1 -> word w2 -> cleanQuery (w1 ++ 32%N :: w2) = w1 ++ 32%N :: w2.
Proof.
  intros (Hne1 & Hs1 & Hq1) (Hne2 & Hs2 & Hq2). unfold cleanQuery, slice0.
  rewrite removeQuotes_id.
  2:{ apply Forall_app. split; [assumption|]. constructor; [reflexivity | assumption]. }
  destruct w1 as [|c w1]; [congruence|].
  inversion Hs1 as [|? ? Hc Hw]; subst.
  change ((c :: w1) ++ 32%N :: w2) with (c :: (w1 ++ 32%N :: w2)).
  rewrite trim_id; [|assumption|].
  2:{ change (c :: w1 ++ 32%N :: w2) with ((c :: w1) ++ 32%N :: w2).
      rewrite lastNotSpace_app by discriminate.
      destruct w2 as [|d w2]; [congruence|].
      change (lastNotSpace (32%N :: d :: w2)) with (lastNotSpace (d :: w2)).
      now apply noSpace_lastNotSpace. }
  unfold split_ws.
  change (c :: w1 ++ 32%N :: w2) with ((c :: w1) ++ 32%N :: w2).
  rewrite split_ws_from_two by assumption. reflexivity.
Qed.

(** A cleaned query is empty, one word, or two words with exactly one
    space (U+0020) between them, a word being free of white space and
    of quotes; and cleaning is idempotent: a cleaned query is left as
    it is when it is cleaned again. *)
Theorem query_cleanup_stable (text : jsstring) :
  (cleanQuery text = []
   \/ word (cleanQuery text)
   \/ exists w1 w2, cleanQuery text = w1 ++ 32%N :: w2 /\ word w1 /\ word w2)
  /\ cleanQuery (cleanQuery text) = cleanQuery text.
Proof.
  split; [apply cleanQuery_shape|].
  destruct (cleanQuery_shape text) as [E | [Hw | (w1 & w2 & E & H1 & H2)]].
  - rewrite E. reflexivity.
  - now apply cleanQuery_word.
  - rewrite E. now apply cleanQuery_two_words.
Qed.

(** ** A backend response without text *)

Lemma textless_no_text (response : AIResponse) :
  textless response -> definedTexts (messageContent (ai_output response)) = [].
Proof.
  unfold textless, messageContent, definedTexts.
  induction (ai_output response) as [|item output IH]; intros H; [reflexivity|].
  simpl. rewrite flat_map_app, IH.
  2:{ intros item' Hin. apply H. now right. }
  rewrite app_nil_r.
  destruct (eqb (item_type item) (lit "message")) eqn:E; [|reflexivity].
  apply eqb_eq in E. specialize (H item (or_introl eq_refl) E).
  induction (item_content item) as [|t content IHc]; [reflexivity|].
  simpl. rewrite (H t (or_introl eq_refl)). simpl.
  apply IHc. intros t' Hin. apply H. now right.
Qed.

(** When the backend's response holds no text (no item of type
    [message], or only content without [text]; the items of any other
    type are ignored), the Query Synthesizer returns the empty query
    without failing, and the Arbitrage Judge throws a [SyntaxError],
    the empty text being no JSON. *)
Theorem response_without_text (env : Env) (response : AIResponse) :
  textless response ->
  (forall title sp tp model tr,
     queryAnswer env title sp tp model = Ok response ->
     generateSearchQuery env title sp tp model tr
     = (Ok [], tr ++ [queryCall env title sp tp model (selectBackend model)])) /\
  (forall ev results sp model tr,
     judgeAnswer env ev results sp model = Ok response ->
     analyzeArbitrage env ev results sp model tr
     = (Throw SyntaxError,
        tr ++ [judgeCall env ev results sp model (selectBackend model)])).
Proof.
  intros H. pose proof (textless_no_text response H) as E. split.
  - intros title sp tp model tr Ha.
    rewrite (generateSearchQuery_answer env title sp tp model response tr Ha).
    unfold queryText. rewrite E. reflexivity.
  - intros ev results sp model tr Ha.
    apply analyzeArbitrage_unparsable with (response := response); [exact Ha|].
    unfold judgeText. rewrite E. intros v. discriminate.
Qed.

Lemma silent_textless : textless silent.
Proof.
  intros item [<- | [<- | []]] Ht t.
  - discriminate.
  - intros [<- | []]. reflexivity.
Qed.

(** A response made of a reasoning item and a message without text. *)
Lemma response_without_text_witness :
  generateSearchQuery silent_env (lit "Fed decision in December?") polymarket kalshi
    (lit "grok-4") []
  = (Ok [], [] ++ [queryCall silent_env (lit "Fed decision in December?") polymarket kalshi
                     (lit "grok-4") (selectBackend (lit "grok-4"))])
  /\ analyzeArbitrage silent_env fed_source [fed_match] kalshi (lit "grok-4") []
     = (Throw SyntaxError,
        [] ++ [judgeCall silent_env fed_source [fed_match] kalshi (lit "grok-4")
                 (selectBackend (lit "grok-4"))]).
Proof.
  split.
  - apply (proj1 (response_without_text silent_env silent silent_textless)).
    reflexivity.
  - apply (proj2 (response_without_text silent_env silent silent_textless)).
    reflexivity.
Defined.

(** ** What the Judge makes of an answer that parses *)

(** What the Judge returns for an answer that parses and is not
    [null]: a value that is no object counts as an object without
    members. *)
Lemma analyzeArbitrage_parsed env ev results sp model response parsed tr :
  judgeAnswer env ev results sp model = Ok response ->
  JSON_parse (judgeText response) = Ok parsed ->
  parsed <> JNull ->
  exists a,
    analyzeArbitrage env ev results sp model tr
    = (Ok {| analysis := a;
             modelUsed := ai_model response;
             tokensUsed := ai_total_tokens response |},
       tr ++ [judgeCall env ev results sp model (selectBackend model)])
    /\ sourceSlot (source ev) a = SlotLocal (sourceProjection ev)
    /\ copiedFrom (match parsed with JObj ms => ms | _ => [] end) (source ev) a.
Proof.
  intros Ha Hp Hnn. rewrite analyzeArbitrage_answer.
  unfold bind, call, lift, ret. rewrite Ha, Hp.
  destruct (get (lit "matchedMarket") parsed) as [matched|e] eqn:Eg.
  2:{ destruct parsed; try discriminate. congruence. }
  eexists. split; [reflexivity|].
  unfold copiedFrom, sourceSlot, matchedSlot.
  cbn [isSameMarket sameMarketConfidence marketComparisonReasoning polymarketData
       kalshiData arbitrage summary risks recommendation].
  split; [destruct (source ev); reflexivity|].
  assert (Em : matched = member (lit "matchedMarket")
                           (match parsed with JObj ms => ms | _ => [] end)).
  { destruct parsed; unfold get in Eg; first [discriminate | now injection Eg as <-]. }
  rewrite <- Em.
  repeat split; destruct (source ev); reflexivity.
Qed.

(** The Judge does not validate the shape of the agent's answer.  An
    answer that parses to [null] makes it throw a [TypeError]; any
    other JSON value is accepted: of an object the eight fields are
    copied as they are (a missing one is undefined), and a number, a
    string, a boolean or an array gives an analysis whose copied
    fields are all undefined.  The model and the token count are
    those the backend reports. *)
Theorem judge_answer_by_kind (env : Env) (ev : SourceEventData)
    (results : list SimplifiedMarket) (sp : ArbitrageMarketSource) (model : jsstring)
    (response : AIResponse) (parsed : json) (tr : Trace) :
  judgeAnswer env ev results sp model = Ok response ->
  JSON_parse (judgeText response) = Ok parsed ->
  (parsed = JNull ->
   analyzeArbitrage env ev results sp model tr
   = (Throw TypeError, tr ++ [judgeCall env ev results sp model (selectBackend model)])) /\
  (parsed <> JNull ->
   exists a,
     analyzeArbitrage env ev results sp model tr
     = (Ok {| analysis := a;
              modelUsed := ai_model response;
              tokensUsed := ai_total_tokens response |},
        tr ++ [judgeCall env ev results sp model (selectBackend model)])
     /\ sourceSlot (source ev) a = SlotLocal (sourceProjection ev)
     /\ (forall ms, parsed = JObj ms -> copiedFrom ms (source ev) a)
     /\ ((forall ms, parsed <> JObj ms) -> copiedFrom [] (source ev) a)).
Proof.
  intros Ha Hp. split.
  - intros ->. rewrite analyzeArbitrage_answer.
    unfold bind, call, lift, ret. rewrite Ha, Hp. reflexivity.
  - intros Hnn.
    destruct (analyzeArbitrage_parsed env ev results sp model response parsed tr Ha Hp Hnn)
      as (a & E & Hs & Hc).
    exists a. split; [exact E|]. split; [exact Hs|]. split.
    + intros ms ->. exact Hc.
    + intros Hno. destruct parsed; try exact Hc. now destruct (Hno members).
Qed.

(** A Judge that answers [null], and one that answers [42]. *)
Lemma judge_answer_by_kind_witness :
  analyzeArbitrage (fed_env fed_search (lit "fed rates") (lit "null")) fed_source
    [fed_match] kalshi (lit "grok-4") []
  = (Throw TypeError,
     [] ++ [judgeCall (fed_env fed_search (lit "fed rates") (lit "null")) fed_source
              [fed_match] kalshi (lit "grok-4") (selectBackend (lit "grok-4"))])
  /\ exists a,
       analyzeArbitrage (fed_env fed_search (lit "fed rates") (lit "42")) fed_source
         [fed_match] kalshi (lit "grok-4") []
       = (Ok {| analysis := a; modelUsed := lit "grok-4"; tokensUsed := Some 120 |},
          [] ++ [judgeCall (fed_env fed_search (lit "fed rates") (lit "42")) fed_source
                   [fed_match] kalshi (lit "grok-4") (selectBackend (lit "grok-4"))])
       /\ copiedFrom [] polymarket a.
Proof.
  split.
  - apply (proj1 (judge_answer_by_kind
                    (fed_env fed_search (lit "fed rates") (lit "null")) fed_source
                    [fed_match] kalshi (lit "grok-4") (says (lit "grok-4") (lit "null"))
                    JNull [] eq_refl eq_refl)).
    reflexivity.
  - destruct (proj2 (judge_answer_by_kind
                       (fed_env fed_search (lit "fed rates") (lit "42")) fed_source
                       [fed_match] kalshi (lit "grok-4") (says (lit "grok-4") (lit "42"))
                       (JNum 42) [] eq_refl eq_refl) ltac:(discriminate))
      as (a & E & _ & _ & Hc).
    exists a. split; [exact E|]. apply Hc. discriminate.
Defined.

(** ** Validation of a request *)

(** The checks of a request, in their order, for every request.  The
    preflight method is answered 200 without body, whatever the body
    of the request; any method other than POST is refused with 405;
    of a POST, a body that is not JSON is refused with 400, a [null]
    body ends in the 500 of the unhandled [TypeError], a missing or
    empty [url] is refused before [model] is looked at, a missing or
    empty [model] before the URL is examined, and a URL that names no
    venue is refused with 400.  None of these makes an external
    call. *)
Theorem validation_order (env : Env) (req : Request) (tr : Trace) :
  (req_method req = lit "OPTIONS" ->
   handler env req tr = (Ok {| status := 200; body := None |}, tr)) /\
  (req_method req <> lit "OPTIONS" -> req_method req <> lit "POST" ->
   handler env req tr = (Ok (failure 405 (lit "Method not allowed. Use POST.")), tr)) /\
  (req_method req = lit "POST" ->
   match req_json req with
   | BodyInvalid =>
       handler env req tr = (Ok (failure 400 (lit "Invalid JSON in request body")), tr)
   | BodyNull => handler env req tr = (Ok (unhandled TypeError), tr)
   | BodyObject requestBody =>
       (opt_truthy (req_url requestBody) = false ->
        handler env req tr
        = (Ok (failure 400 (lit "Missing required parameter: 'url'")), tr)) /\
       (opt_truthy (req_url requestBody) = true ->
        opt_truthy (req_model requestBody) = false ->
        handler env req tr
        = (Ok (failure 400 (lit "Missing required parameter: 'model'")), tr)) /\
       (opt_truthy (req_url requestBody) = true ->
        opt_truthy (req_model requestBody) = true ->
        detectPlatform (url_requested req) = None ->
        handler env req tr
        = (Ok (failure 400
                 (lit "Invalid URL. Must be a Polymarket or Kalshi market URL.")), tr))
   end).
Proof.
  assert (Ht : forall a, truthy (str_or a []) = opt_truthy a).
  { intros [s|]; [|reflexivity]. simpl. now destruct (truthy s) eqn:E. }
  split; [|split].
  - intros H. unfold handler. now rewrite H.
  - intros Ho Hp. unfold handler.
    apply eqb_neq in Ho, Hp. now rewrite Ho, Hp.
  - intros H. unfold handler, url_requested. rewrite H.
    change (eqb (lit "POST") (lit "OPTIONS")) with false.
    change (eqb (lit "POST") (lit "POST")) with true. cbn [negb].
    destruct (req_json req) as [| |requestBody]; try reflexivity.
    rewrite !Ht. split; [|split].
    + intros ->. reflexivity.
    + intros -> ->. reflexivity.
    + intros -> -> ->. reflexivity.
Qed.

(** One request for each check. *)
Lemma validation_order_witness :
  handler offline {| req_method := lit "OPTIONS"; req_json := BodyInvalid |} []
  = (Ok {| status := 200; body := None |}, [])
  /\ handler offline {| req_method := lit "GET"; req_json := BodyNull |} []
     = (Ok (failure 405 (lit "Method not allowed. Use POST.")), [])
  /\ handler offline {| req_method := lit "POST"; req_json := BodyNull |} []
     = (Ok (unhandled TypeError), [])
  /\ handler offline
       {| req_method := lit "POST";
          req_json := BodyObject {| req_url := Some (lit ""); req_model := None |} |} []
     = (Ok (failure 400 (lit "Missing required parameter: 'url'")), [])
  /\ handler offline
       {| req_method := lit "POST";
          req_json := BodyObject {| req_url := Some (lit "not a url");
                                    req_model := Some (lit "") |} |} []
     = (Ok (failure 400 (lit "Missing required parameter: 'model'")), [])
  /\ handler offline (post (lit "https://example.com/x") (lit "grok-4")) []
     = (Ok (failure 400 (lit "Invalid URL. Must be a Polymarket or Kalshi market URL.")), []).
Proof.
  split; [|split; [|split; [|split; [|split]]]].
  - apply (proj1 (validation_order offline
                    {| req_method := lit "OPTIONS"; req_json := BodyInvalid |} [])).
    reflexivity.
  - apply (proj1 (proj2 (validation_order offline
                    {| req_method := lit "GET"; req_json := BodyNull |} [])));
      discriminate.
  - apply (proj2 (proj2 (validation_order offline
                    {| req_method := lit "POST"; req_json := BodyNull |} [])) eq_refl).
  - apply (proj1 (proj2 (proj2 (validation_order offline
                    {| req_method := lit "POST";
                       req_json := BodyObject {| req_url := Some (lit "");
                                                 req_model := None |} |} [])) eq_refl)).
    reflexivity.
  - apply (proj1 (proj2 (proj2 (proj2 (validation_order offline
                    {| req_method := lit "POST";
                       req_json := BodyObject {| req_url := Some (lit "not a url");
                                                 req_model := Some (lit "") |} |} []))
                    eq_refl))); reflexivity.
  - apply (proj2 (proj2 (proj2 (proj2 (validation_order offline
                    (post (lit "https://example.com/x") (lit "grok-4")) []))
                    eq_refl))); reflexivity.
Defined.

(** ** Failures of the services, stage by stage *)

Lemma fetchEvent_fails env p id tr :
  lookupFails env p id ->
  fetchEvent env p id tr = (Ok None, tr ++ [lookupCall p id]).
Proof.
  destruct p; unfold fetchEvent, lookupFails, lookupCall.
  - unfold fetchFails, fetchPolymarketEvent, catch, bind, call, lift, ret.
    destruct (fetch env _) as [e|ok code payload]; [reflexivity|].
    intros [-> | ->]; [reflexivity|]. destruct ok; reflexivity.
  - intros (e & He).
    unfold fetchKalshiEvent, catch, bind, call, ret. now rewrite He.
Qed.

Lemma search_fails env p query encoded tr :
  searchFails env p query encoded ->
  search env p query tr = (Ok [], tr ++ [searchCall p query encoded]).
Proof.
  destruct p; unfold search, searchFails, searchCall.
  - intros (Henc & Hf).
    unfold fetchFails in Hf.
    unfold searchPolymarket, catch, bind, call, lift, ret. rewrite Henc.
    destruct (fetch env _) as [e|ok code payload]; [reflexivity|].
    destruct Hf as [-> | ->]; [reflexivity|]. destruct ok; reflexivity.
  - intros (e & He).
    unfold searchKalshi, catch, bind, call, ret. now rewrite He.
Qed.

Lemma generateSearchQuery_throws env title sp tp model e tr :
  queryAnswer env title sp tp model = Throw e ->
  generateSearchQuery env title sp tp model tr
  = (Throw e, tr ++ [queryCall env title sp tp model (selectBackend model)]).
Proof.
  unfold queryAnswer, generateSearchQuery, queryCall, selectBackend, bind, call, ret.
  destruct (isOpenAIModel model); intros ->; reflexivity.
Qed.

Lemma analyzeArbitrage_throws env ev results sp model e tr :
  judgeAnswer env ev results sp model = Throw e ->
  analyzeArbitrage env ev results sp model tr
  = (Throw e, tr ++ [judgeCall env ev results sp model (selectBackend model)]).
Proof.
  intros H. rewrite analyzeArbitrage_answer. unfold bind, call. now rewrite H.
Qed.

(** An outage of a market-data service never surfaces as an error of
    its own.  When the service behind the lookup fails, the handler
    answers 404, as for an event that does not exist; when the
    service behind the search fails, it answers 200 with the
    no-match analysis, as for a search that finds nothing, and the
    Judge is not called. *)
Theorem gateway_outages (env : Env) (url model : jsstring)
    (p : ArbitrageMarketSource) (id : jsstring) :
  model <> [] ->
  detectPlatform url = Some p ->
  identifier env p url = Some id ->
  (lookupFails env p id ->
   run (handler env (post url model)) = (Ok (notFound p), [lookupCall p id])) /\
  (forall ev tr1 query tr2 encoded,
     fetchEvent env p id [] = (Ok (Some ev), tr1) ->
     markets ev <> [] ->
     generateSearchQuery env (eventTitle ev) p (opposite p) model tr1 = (Ok query, tr2) ->
     searchFails env (opposite p) query encoded ->
     run (handler env (post url model))
     = (Ok (succeed (noMatchAnalysis ev p (opposite p) url query) model None
              p (opposite p)),
        tr2 ++ [searchCall (opposite p) query encoded])).
Proof.
  intros Hmodel Hp Hid. split.
  - intros Hf. unfold run.
    rewrite (handler_resolved env url model p id [] Hmodel Hp Hid).
    apply catch_ok. rewrite (bind_ok _ _ _ _ _ (fetchEvent_fails env p id [] Hf)).
    destruct p; reflexivity.
  - intros ev tr1 query tr2 encoded Hfetch Hmarkets Hquery Hf. unfold run.
    rewrite (handler_resolved env url model p id [] Hmodel Hp Hid).
    apply catch_ok. rewrite (bind_ok _ _ _ _ _ Hfetch).
    rewrite afterFetch_search, (length_eqb_0 _ Hmarkets).
    rewrite (bind_ok _ _ _ _ _ Hquery).
    rewrite (bind_ok _ _ _ _ _ (search_fails env (opposite p) query encoded tr2 Hf)).
    reflexivity.
Qed.

(** A request with every service down, and one with the search
    gateway down. *)
Lemma gateway_outages_witness :
  run (handler offline (post fed_url (lit "grok-4")))
  = (Ok (notFound polymarket), [lookupCall polymarket (lit "fed-decision")])
  /\ run (handler search_down (post fed_url (lit "grok-4")))
     = (Ok (succeed (noMatchAnalysis fed_source polymarket kalshi fed_url (lit "fed rates"))
              (lit "grok-4") None polymarket kalshi),
        [fed_lookup; fed_query Grok (lit "grok-4")]
        ++ [searchCall kalshi (lit "fed rates") (lit "fed%20rates")]).
Proof.
  split.
  - apply (proj1 (gateway_outages offline fed_url (lit "grok-4") polymarket
                    (lit "fed-decision") ltac:(discriminate) eq_refl eq_refl)).
    exact I.
  - apply (proj2 (gateway_outages search_down fed_url (lit "grok-4") polymarket
                    (lit "fed-decision") ltac:(discriminate) eq_refl eq_refl)
             fed_source [fed_lookup] (lit "fed rates")
             [fed_lookup; fed_query Grok (lit "grok-4")] (lit "fed%20rates")).
    + vm_compute. reflexivity.
    + discriminate.
    + vm_compute. reflexivity.
    + eexists. reflexivity.
Defined.

(** A failure of an AI backend is not absorbed: when the call of the
    Query Synthesizer throws, the handler answers 500 with the error
    it caught and makes no further call, the search included; when
    the call of the Arbitrage Judge throws, it answers 500 likewise. *)
Theorem ai_failure_is_500 (env : Env) (url model : jsstring)
    (p : ArbitrageMarketSource) (id : jsstring) (ev : SourceEventData)
    (tr1 : Trace) (e : Exn) :
  model <> [] ->
  detectPlatform url = Some p ->
  identifier env p url = Some id ->
  fetchEvent env p id [] = (Ok (Some ev), tr1) ->
  markets ev <> [] ->
  (queryAnswer env (eventTitle ev) p (opposite p) model = Throw e ->
   run (handler env (post url model))
   = (Ok (unhandled e),
      tr1 ++ [queryCall env (eventTitle ev) p (opposite p) model (selectBackend model)])) /\
  (forall query tr2 results tr3,
     generateSearchQuery env (eventTitle ev) p (opposite p) model tr1 = (Ok query, tr2) ->
     search env (opposite p) query tr2 = (Ok results, tr3) ->
     results <> [] ->
     judgeAnswer env ev results (opposite p) model = Throw e ->
     run (handler env (post url model))
     = (Ok (unhandled e),
        tr3 ++ [judgeCall env ev results (opposite p) model (selectBackend model)])) /\
  status (unhandled e) = 500%Z.
Proof.
  intros Hmodel Hp Hid Hfetch Hmarkets. split; [|split; [|reflexivity]].
  - intros Ha. unfold run.
    rewrite (handler_resolved env url model p id [] Hmodel Hp Hid).
    erewrite catch_throw; [reflexivity|].
    rewrite (bind_ok _ _ _ _ _ Hfetch).
    rewrite afterFetch_search, (length_eqb_0 _ Hmarkets).
    apply bind_throw. now apply generateSearchQuery_throws.
  - intros query tr2 results tr3 Hquery Hsearch Hresults Ha. unfold run.
    rewrite (handler_resolved env url model p id [] Hmodel Hp Hid).
    erewrite catch_throw; [reflexivity|].
    rewrite (bind_ok _ _ _ _ _ Hfetch).
    rewrite afterFetch_search, (length_eqb_0 _ Hmarkets).
    rewrite (bind_ok _ _ _ _ _ Hquery), (bind_ok _ _ _ _ _ Hsearch).
    rewrite (length_eqb_0 _ Hresults).
    apply bind_throw. now apply analyzeArbitrage_throws.
Qed.

(** A request whose model is routed to a backend without key, and one
    whose Judge is rate limited. *)
Lemma ai_failure_is_500_witness :
  run (handler (fed_env fed_search (lit "fed rates") (lit "{}"))
         (post fed_url (lit "gpt-5.1")))
  = (Ok (unhandled (Raised true (lit "no key"))),
     [fed_lookup] ++ [fed_query OpenAI (lit "gpt-5.1")])
  /\ run (handler judge_down (post fed_url (lit "grok-4")))
     = (Ok (unhandled (Raised true (lit "rate limited"))),
        [fed_lookup; fed_query Grok (lit "grok-4");
         searchCall kalshi (lit "fed rates") (lit "fed%20rates")]
        ++ [judgeCall judge_down fed_source [fed_match] kalshi (lit "grok-4") Grok]).
Proof.
  split.
  - apply (proj1 (ai_failure_is_500 (fed_env fed_search (lit "fed rates") (lit "{}"))
                    fed_url (lit "gpt-5.1") polymarket (lit "fed-decision")
                    fed_source [fed_lookup] (Raised true (lit "no key"))
                    ltac:(discriminate) eq_refl eq_refl
                    ltac:(vm_compute; reflexivity) ltac:(discriminate))).
    reflexivity.
  - apply (proj1 (proj2 (ai_failure_is_500 judge_down
                    fed_url (lit "grok-4") polymarket (lit "fed-decision")
                    fed_source [fed_lookup] (Raised true (lit "rate limited"))
                    ltac:(discriminate) eq_refl eq_refl
                    ltac:(vm_compute; reflexivity) ltac:(discriminate)))
             (lit "fed rates") [fed_lookup; fed_query Grok (lit "grok-4")]).
    + vm_compute. reflexivity.
    + vm_compute. reflexivity.
    + discriminate.
    + reflexivity.
Defined.

(** ** The path of a full analysis *)

(** When every stage succeeds (the event is fetched with a market,
    the query is synthesized, the search finds a candidate and the
    Judge's answer parses to a value other than [null]), the handler
    answers 200 with an analysis whose source slot is the record built
    for the fetched event and whose other fields are copied from the
    agent's object, with the model and the token count the backend
    reports, after exactly the calls of the four stages. *)
Theorem full_analysis_path env url model p id ev query results response parsed tr1 tr2 tr3 :
  model <> [] ->
  detectPlatform url = Some p ->
  identifier env p url = Some id ->
  fetchEvent env p id [] = (Ok (Some ev), tr1) ->
  markets ev <> [] ->
  generateSearchQuery env (eventTitle ev) p (opposite p) model tr1 = (Ok query, tr2) ->
  search env (opposite p) query tr2 = (Ok results, tr3) ->
  results <> [] ->
  judgeAnswer env ev results (opposite p) model = Ok response ->
  JSON_parse (judgeText response) = Ok parsed ->
  parsed <> JNull ->
  exists a,
    run (handler env (post url model))
    = (Ok (succeed a (ai_model response) (ai_total_tokens response) p (opposite p)),
       tr3 ++ [judgeCall env ev results (opposite p) model (selectBackend model)])
    /\ sourceSlot p a = SlotLocal (sourceProjection ev)
    /\ copiedFrom (match parsed with JObj ms => ms | _ => [] end) p a.
Proof.
  intros Hmodel Hp Hid Hfetch Hmarkets Hquery Hsearch Hresults Ha Hparse Hnn.
  destruct (analyzeArbitrage_parsed env ev results (opposite p) model response parsed
              tr3 Ha Hparse Hnn) as (a & E & Hs & Hc).
  rewrite (fetchEvent_source env p id [] ev tr1 Hfetch) in Hs, Hc.
  exists a. split; [|split; assumption].
  unfold run. rewrite (handler_resolved env url model p id [] Hmodel Hp Hid).
  apply catch_ok. rewrite (bind_ok _ _ _ _ _ Hfetch).
  rewrite afterFetch_search, (length_eqb_0 _ Hmarkets).
  rewrite (bind_ok _ _ _ _ _ Hquery), (bind_ok _ _ _ _ _ Hsearch).
  rewrite (length_eqb_0 _ Hresults).
  rewrite (bind_ok _ _ _ _ _ E). reflexivity.
Qed.

(** The request for the Fed event whose Judge reports a match. *)
Lemma full_analysis_path_witness :
  exists a,
    run (handler (fed_env fed_search (lit "fed rates") unbalanced_verdict)
           (post fed_url (lit "grok-4")))
    = (Ok (succeed a (lit "grok-4") (Some 120) polymarket kalshi),
       [fed_lookup; fed_query Grok (lit "grok-4");
        searchCall kalshi (lit "fed rates") (lit "fed%20rates")]
       ++ [judgeCall (fed_env fed_search (lit "fed rates") unbalanced_verdict) fed_source
             [fed_match] kalshi (lit "grok-4") (selectBackend (lit "grok-4"))])
    /\ sourceSlot polymarket a = SlotLocal (sourceProjection fed_source)
    /\ copiedFrom unbalanced_object polymarket a.
Proof.
  apply (full_analysis_path (fed_env fed_search (lit "fed rates") unbalanced_verdict)
           fed_url (lit "grok-4") polymarket (lit "fed-decision") fed_source
           (lit "fed rates") [fed_match]
           (says (lit "grok-4") unbalanced_verdict) (JObj unbalanced_object)
           [fed_lookup] [fed_lookup; fed_query Grok (lit "grok-4")]
           [fed_lookup; fed_query Grok (lit "grok-4");
            searchCall kalshi (lit "fed rates") (lit "fed%20rates")]).
  - discriminate.
  - reflexivity.
  - reflexivity.
  - vm_compute. reflexivity.
  - discriminate.
  - vm_compute. reflexivity.
  - vm_compute. reflexivity.
  - discriminate.
  - reflexivity.
  - vm_compute. reflexivity.
  - discriminate.
Defined.

(** ** Every request is answered *)

Lemma envelope_failure (code : Z) (message : jsstring) :
  code = 400%Z \/ code = 404%Z \/ code = 405%Z -> envelope (failure code message).
Proof.
  intros H. unfold envelope, failure. cbn [status body success data error metadata].
  split; [simpl; lia|].
  assert (E : (code =? 200)%Z = false) by (apply Z.eqb_neq; lia).
  rewrite E. split; [reflexivity|]. split; [split; [congruence | discriminate]|].
  split; [split; discriminate|]. split; [intros _; lia | reflexivity].
Qed.

Lemma envelope_notFound (p : ArbitrageMarketSource) : envelope (notFound p).
Proof. apply envelope_failure. lia. Qed.

Lemma envelope_unhandled (e : Exn) : envelope (unhandled e).
Proof.
  unfold envelope, unhandled. cbn [status body success data error metadata].
  split; [simpl; lia|]. split; [reflexivity|].
  split; [split; [congruence | discriminate]|].
  split; [split; discriminate|]. split; [discriminate | lia].
Qed.

Lemma envelope_succeed a model tokens p q : envelope (succeed a model tokens p q).
Proof.
  unfold envelope, succeed. cbn [status body success data error metadata].
  split; [simpl; lia|]. split; [reflexivity|].
  split; [split; [reflexivity | discriminate]|].
  split; [split; reflexivity|]. split; [discriminate | lia].
Qed.

Lemma fetchEvent_call env p id tr :
  exists r, fetchEvent env p id tr = (Ok r, tr ++ [lookupCall p id]).
Proof.
  destruct p; unfold fetchEvent, lookupCall.
  - unfold fetchPolymarketEvent, catch, bind, call, lift, ret.
    destruct (fetch env _) as [e|ok code payload]; [eexists; reflexivity|].
    destruct ok; cbn [negb]; [|eexists; reflexivity].
    destruct payload as [[ev|es]|]; eexists; reflexivity.
  - unfold fetchKalshiEvent, catch, bind, call, ret.
    destruct (dflowRequest env _ _); eexists; reflexivity.
Qed.

Lemma search_calls env p query tr :
  exists r calls,
    search env p query tr = (Ok r, tr ++ calls)
    /\ ((calls = [] /\ r = [])
        \/ exists encoded, calls = [searchCall p query encoded]).
Proof.
  destruct p; unfold search, searchCall.
  - unfold searchPolymarket, catch, bind, call, lift, ret.
    destruct (encodeURIComponent query) as [encoded|e].
    + destruct (fetch env _) as [e|ok code payload].
      * eexists _, [_]. split; [reflexivity|]. right. now exists encoded.
      * destruct ok; cbn [negb];
          [|eexists _, [_]; split; [reflexivity|]; right; now exists encoded].
        destruct payload as [[ev|es]|]; eexists _, [_];
          (split; [reflexivity|]); right; now exists encoded.
    + exists [], []. rewrite app_nil_r. split; [reflexivity|]. now left.
  - unfold searchKalshi, catch, bind, call, ret.
    destruct (dflowRequest env _ _); eexists _, [_];
      (split; [reflexivity|]); right; now exists [].
Qed.

Lemma callKind_searchCall p query encoded :
  callKind (searchCall p query encoded) = MarketData.
Proof. destruct p; reflexivity. Qed.

Lemma callKind_lookupCall p id : callKind (lookupCall p id) = MarketData.
Proof. destruct p; reflexivity. Qed.

(** The pipeline after the lookup, under the [catch] of the handler:
    the response, and the calls that led to it. *)
Lemma afterFetch_outcome env url model p fetched tr :
  exists resp calls,
    catch (afterFetch env url model p (opposite p) fetched)
      (fun e => ret (unhandled e)) tr
    = (Ok resp, tr ++ calls)
    /\ envelope resp
    /\ Forall (laterCall env p model) calls
    /\ ((status resp = 404%Z /\ calls = [])
        \/ ((status resp = 200%Z \/ status resp = 500%Z)
            /\ exists rest,
                 map callKind calls ++ rest
                 = [TextCompletion; MarketData; JsonCompletion])).
Proof.
  assert (Hq : forall title,
             laterCall env p model
               (queryCall env title p (opposite p) model (selectBackend model))).
  { intros title. left. now exists title. }
  assert (Hsc : forall query encoded,
             laterCall env p model (searchCall (opposite p) query encoded)).
  { intros query encoded. right. left. now exists query, encoded. }
  assert (Hj : forall ev results,
             laterCall env p model
               (judgeCall env ev results (opposite p) model (selectBackend model))).
  { intros ev results. right. right. now exists ev, results. }
  destruct fetched as [ev|].
  2:{ exists (notFound p), []. rewrite app_nil_r.
      split; [destruct p; reflexivity|]. split; [apply envelope_notFound|].
      split; [constructor|]. left. split; reflexivity. }
  unfold catch. rewrite afterFetch_search.
  destruct (List.length (markets ev) =? 0)%nat.
  { exists (notFound p), []. rewrite app_nil_r.
    split; [reflexivity|]. split; [apply envelope_notFound|].
    split; [constructor|]. left. split; reflexivity. }
  destruct (generateSearchQuery_call env (eventTitle ev) p (opposite p) model tr)
    as (r1 & E1).
  unfold bind at 1. rewrite E1.
  set (q := queryCall env (eventTitle ev) p (opposite p) model (selectBackend model)) in *.
  destruct r1 as [query|e].
  2:{ exists (unhandled e), [q]. split; [reflexivity|].
      split; [apply envelope_unhandled|].
      split; [apply Forall_cons; [apply Hq | constructor]|]. right. split; [now right|].
      exists [MarketData; JsonCompletion]. reflexivity. }
  destruct (search_calls env (opposite p) query (tr ++ [q])) as (results & scalls & E2 & Hs).
  unfold bind at 1. rewrite E2.
  destruct (List.length results =? 0)%nat eqn:El.
  { eexists _, ([q] ++ scalls). rewrite app_assoc. split; [reflexivity|].
    split; [apply envelope_succeed|].
    destruct Hs as [[-> _] | (encoded & ->)].
    - split; [apply Forall_cons; [apply Hq | constructor]|]. right. split; [now left|].
      exists [MarketData; JsonCompletion]. reflexivity.
    - split; [apply Forall_cons; [apply Hq | apply Forall_cons; [apply Hsc | constructor]]|].
      right. split; [now left|].
      exists [JsonCompletion]. simpl. now rewrite callKind_searchCall. }
  destruct Hs as [[_ ->] | (encoded & ->)]; [discriminate|].
  destruct (analyzeArbitrage_call env ev results (opposite p) model
              ((tr ++ [q]) ++ [searchCall (opposite p) query encoded]))
    as (r3 & E3).
  unfold bind. rewrite E3.
  set (j := judgeCall env ev results (opposite p) model (selectBackend model)) in *.
  assert (Ht : ((tr ++ [q]) ++ [searchCall (opposite p) query encoded]) ++ [j]
               = tr ++ [q; searchCall (opposite p) query encoded; j]).
  { now rewrite <- !app_assoc. }
  rewrite Ht.
  assert (Hc : exists rest,
             map callKind [q; searchCall (opposite p) query encoded; j] ++ rest
             = [TextCompletion; MarketData; JsonCompletion]).
  { exists []. simpl. now rewrite callKind_searchCall. }
  assert (Hl : Forall (laterCall env p model)
                 [q; searchCall (opposite p) query encoded; j]).
  { apply Forall_cons; [apply Hq|]. apply Forall_cons; [apply Hsc|].
    apply Forall_cons; [apply Hj | constructor]. }
  destruct r3 as [analyzed|e].
  - eexists _, _. split; [reflexivity|]. split; [apply envelope_succeed|].
    split; [exact Hl|]. right. split; [now left | exact Hc].
  - eexists _, _. split; [reflexivity|]. split; [apply envelope_unhandled|].
    split; [exact Hl|]. right. split; [now right | exact Hc].
Qed.

Lemma handler_outcome env req tr :
  exists resp calls,
    handler env req tr = (Ok resp, tr ++ calls)
    /\ envelope resp /\ callDiscipline resp calls.
Proof.
  assert (Hnone : forall resp, envelope resp ->
            status resp <> 404%Z ->
            exists resp' calls,
              (Ok resp, tr) = (Ok resp', tr ++ calls)
              /\ envelope resp' /\ callDiscipline resp' calls).
  { intros resp He H404. exists resp, []. rewrite app_nil_r.
    split; [reflexivity|]. split; [exact He|].
    split; [now exists [MarketData; TextCompletion; MarketData; JsonCompletion]|].
    split; [reflexivity | intros H; congruence]. }
  unfold handler.
  destruct (eqb (req_method req) (lit "OPTIONS")).
  { apply Hnone; [|discriminate]. split; [simpl; lia | reflexivity]. }
  destruct (negb (eqb (req_method req) (lit "POST"))) eqn:Em.
  { unfold catch, ret. apply Hnone; [apply envelope_failure; lia | discriminate]. }
  destruct (req_json req) as [| |requestBody] eqn:Ej.
  { unfold catch, ret. apply Hnone; [apply envelope_failure; lia | discriminate]. }
  { unfold catch, throw, ret. apply Hnone; [apply envelope_unhandled | discriminate]. }
  set (url := str_or (req_url requestBody) []).
  set (model := str_or (req_model requestBody) []).
  destruct (negb (truthy url)).
  { unfold catch, ret. apply Hnone; [apply envelope_failure; lia | discriminate]. }
  destruct (negb (truthy model)).
  { unfold catch, ret. apply Hnone; [apply envelope_failure; lia | discriminate]. }
  destruct (detectPlatform url) as [p|].
  2:{ unfold catch, ret. apply Hnone; [apply envelope_failure; lia | discriminate]. }
  assert (Hrun : forall id,
            exists resp calls,
              catch (sourceEvent <- fetchEvent env p id ;;
                     afterFetch env url model p (opposite p) sourceEvent)
                (fun e => ret (unhandled e)) tr
              = (Ok resp, tr ++ calls)
              /\ envelope resp /\ callDiscipline resp calls).
  { intros id. destruct (fetchEvent_call env p id tr) as (fetched & Ef).
    destruct (afterFetch_outcome env url model p fetched (tr ++ [lookupCall p id]))
      as (resp & calls & E & He & _ & Hc).
    exists resp, (lookupCall p id :: calls). split.
    - unfold catch, bind in *. rewrite Ef.
      change (tr ++ lookupCall p id :: calls) with (tr ++ [lookupCall p id] ++ calls).
      rewrite app_assoc. exact E.
    - split; [exact He|]. unfold callDiscipline.
      destruct Hc as [[H404 ->] | [Hst (rest & Hrest)]].
      + split; [exists [TextCompletion; MarketData; JsonCompletion]; simpl;
                now rewrite callKind_lookupCall|].
        split; [intros [H|H]; congruence | reflexivity].
      + split; [exists rest; simpl; now rewrite callKind_lookupCall, Hrest|].
        split; [intros [H|H]; destruct Hst; congruence
               | intros H; destruct Hst; congruence]. }
  destruct p; cbn [is_polymarket].
  - destruct (extractPolymarketSlug env url) as [slug|]; cbn [opt_truthy negb].
    2:{ unfold catch, ret. apply Hnone; [apply envelope_failure; lia | discriminate]. }
    destruct (truthy slug) eqn:Et; cbn [negb].
    2:{ unfold catch, ret. apply Hnone; [apply envelope_failure; lia | discriminate]. }
    rewrite str_or_truthy by (now apply truthy_nonempty).
    apply (Hrun slug).
  - destruct (extractKalshiTicker env url) as [ticker|]; cbn [opt_truthy negb].
    2:{ unfold catch, ret. apply Hnone; [apply envelope_failure; lia | discriminate]. }
    destruct (truthy ticker) eqn:Et; cbn [negb].
    2:{ unfold catch, ret. apply Hnone; [apply envelope_failure; lia | discriminate]. }
    rewrite str_or_truthy by (now apply truthy_nonempty).
    apply (Hrun ticker).
Qed.

(** The handler always answers: it never throws, whatever the
    request and whatever the services do, and its response has one of
    the statuses 200, 400, 404, 405 and 500, with [success] true
    exactly for 200, [data] present exactly on success and [error]
    exactly on failure. *)
Theorem handler_always_answers (env : Env) (req : Request) (tr : Trace) :
  exists resp tr', handler env req tr = (Ok resp, tr') /\ envelope resp.
Proof.
  destruct (handler_outcome env req tr) as (resp & calls & E & He & _).
  now exists resp, (tr ++ calls).
Qed.

(** ** The external calls of a request *)

(** A request makes at most four external calls, in a fixed order:
    a request to a market-data service (the lookup), a text
    completion (the query), a request to a market-data service (the
    search), a JSON-object completion (the Judge); each at most once.
    No AI call is made before the lookup and the Judge is never
    called before a search; a refused request (400 or 405) makes no
    call at all, and a request answered 404 makes one. *)
Theorem handler_call_discipline (env : Env) (req : Request) (tr : Trace) :
  exists resp calls,
    handler env req tr = (Ok resp, tr ++ calls) /\ callDiscipline resp calls.
Proof.
  destruct (handler_outcome env req tr) as (resp & calls & E & _ & Hc).
  now exists resp, calls.
Qed.

(** A request that passes validation looks the event up on the venue
    its URL names, and every later call is the query call or the
    Judge's call, for the requested model and to the one backend the
    routing rule selects for it, or a search on the other venue: the
    venue of the URL is never searched, and the two AI calls never go
    to different backends. *)
Theorem calls_by_venue (env : Env) (url model : jsstring)
    (p : ArbitrageMarketSource) (id : jsstring) (tr : Trace) :
  model <> [] ->
  detectPlatform url = Some p ->
  identifier env p url = Some id ->
  exists resp rest,
    handler env (post url model) tr = (Ok resp, tr ++ lookupCall p id :: rest)
    /\ Forall (laterCall env p model) rest.
Proof.
  intros Hmodel Hp Hid.
  rewrite (handler_resolved env url model p id tr Hmodel Hp Hid).
  destruct (fetchEvent_call env p id tr) as (fetched & Ef).
  destruct (afterFetch_outcome env url model p fetched (tr ++ [lookupCall p id]))
    as (resp & calls & E & _ & Hl & _).
  exists resp, calls. split; [|exact Hl].
  unfold catch, bind in *. rewrite Ef.
  change (tr ++ lookupCall p id :: calls) with (tr ++ [lookupCall p id] ++ calls).
  rewrite app_assoc. exact E.
Qed.

(** The request for the Fed event. *)
Lemma calls_by_venue_witness :
  exists resp rest,
    handler (fed_env fed_search (lit "fed rates") unbalanced_verdict)
      (post fed_url (lit "grok-4")) []
    = (Ok resp, [] ++ lookupCall polymarket (lit "fed-decision") :: rest)
    /\ Forall (laterCall (fed_env fed_search (lit "fed rates") unbalanced_verdict)
                 polymarket (lit "grok-4")) rest.
Proof.
  apply (calls_by_venue (fed_env fed_search (lit "fed rates") unbalanced_verdict)
           fed_url (lit "grok-4") polymarket (lit "fed-decision") []).
  - discriminate.
  - reflexivity.
  - reflexivity.
Defined.

(** ** The analysis in a response *)

Lemma analyzeArbitrage_metadata env ev results sp model tr analyzed tr' :
  analyzeArbitrage env ev results sp model tr = (Ok analyzed, tr') ->
  exists response,
    judgeAnswer env ev results sp model = Ok response
    /\ modelUsed analyzed = ai_model response
    /\ tokensUsed analyzed = ai_total_tokens response.
Proof.
  rewrite analyzeArbitrage_answer. unfold bind, call, lift, ret.
  destruct (judgeAnswer env ev results sp model) as [response|e]; [|discriminate].
  destruct (JSON_parse (judgeText response)) as [parsed|e]; [|discriminate].
  destruct (get (lit "matchedMarket") parsed) as [matched|e]; [|discriminate].
  intros [= <- _]. now exists response.
Qed.

(** The two ways a response carries an analysis. *)
Lemma afterFetch_success env url model p ev tr resp tr' r a :
  afterFetch env url model p (opposite p) (Some ev) tr = (Ok resp, tr') ->
  body resp = Some r ->
  data r = Some a ->
  markets ev <> []
  /\ ((exists query,
         a = noMatchAnalysis ev p (opposite p) url query
         /\ resp = succeed a model None p (opposite p))
      \/ (exists results analyzed tr3,
            analyzeArbitrage env ev results (opposite p) model tr3 = (Ok analyzed, tr')
            /\ a = analysis analyzed
            /\ resp = succeed a (modelUsed analyzed) (tokensUsed analyzed)
                        p (opposite p))).
Proof.
  rewrite afterFetch_search.
  destruct (List.length (markets ev) =? 0)%nat eqn:El.
  { intros [= <- _]. no_data. }
  assert (Hm : markets ev <> []) by (intros Hm; now rewrite Hm in El).
  unfold bind at 1.
  destruct (generateSearchQuery env _ _ _ _ tr) as [[query|e] tr2]; [|discriminate].
  unfold bind at 1.
  destruct (search env (opposite p) query tr2) as [[results|e] tr3]; [|discriminate].
  destruct (List.length results =? 0)%nat.
  - intros [= <- _] [= <-] [= <-]. split; [exact Hm|]. left. now exists query.
  - unfold bind.
    destruct (analyzeArbitrage env ev results (opposite p) model tr3)
      as [[analyzed|e] tr4] eqn:E; [|discriminate].
    intros [= <- <-] [= <-] [= <-]. split; [exact Hm|].
    right. now exists results, analyzed, tr3.
Qed.

Lemma handler_success env req resp tr r a :
  run (handler env req) = (Ok resp, tr) ->
  body resp = Some r ->
  data r = Some a ->
  exists p id ev tr1,
    detectPlatform (url_requested req) = Some p
    /\ identifier env p (url_requested req) = Some id
    /\ fetchEvent env p id [] = (Ok (Some ev), tr1)
    /\ afterFetch env (url_requested req) (ai_model_requested req) p (opposite p)
         (Some ev) tr1 = (Ok resp, tr).
Proof.
  unfold run, handler.
  destruct (eqb (req_method req) (lit "OPTIONS")).
  { intros [= <- _]. discriminate. }
  unfold catch.
  match goal with
  | |- context [match ?m [] with _ => _ end] => destruct (m []) as [[resp'|e] tr'] eqn:E
  end.
  2:{ intros [= <- _]. no_data. }
  intros [= -> ->] Hbody Hdata. unfold ai_model_requested, url_requested.
  destruct (negb (eqb (req_method req) (lit "POST"))).
  { injection E as <- _. simpl in Hbody. injection Hbody as <-. discriminate. }
  destruct (req_json req) as [| |requestBody].
  { injection E as <- _. simpl in Hbody. injection Hbody as <-. discriminate. }
  { discriminate. }
  set (url := str_or (req_url requestBody) []) in *.
  set (model := str_or (req_model requestBody) []) in *.
  destruct (negb (truthy url)).
  { injection E as <- _. simpl in Hbody. injection Hbody as <-. discriminate. }
  destruct (negb (truthy model)).
  { injection E as <- _. simpl in Hbody. injection Hbody as <-. discriminate. }
  destruct (detectPlatform url) as [p|] eqn:Hp.
  2:{ injection E as <- _. simpl in Hbody. injection Hbody as <-. discriminate. }
  exists p.
  destruct p; cbn [is_polymarket] in E.
  - destruct (extractPolymarketSlug env url) as [slug|] eqn:Hslug; cbn [opt_truthy] in E.
    2:{ injection E as <- _. simpl in Hbody. injection Hbody as <-. discriminate. }
    destruct (truthy slug) eqn:Ht; cbn [negb] in E.
    2:{ injection E as <- _. simpl in Hbody. injection Hbody as <-. discriminate. }
    rewrite str_or_truthy in E by (now apply truthy_nonempty).
    unfold bind in E.
    destruct (fetchPolymarketEvent env slug []) as [[[ev|]|e] tr1] eqn:Hf;
      try discriminate.
    2:{ injection E as <- _. simpl in Hbody. injection Hbody as <-. discriminate. }
    exists slug, ev, tr1. repeat split; assumption.
  - destruct (extractKalshiTicker env url) as [ticker|] eqn:Hticker; cbn [opt_truthy] in E.
    2:{ injection E as <- _. simpl in Hbody. injection Hbody as <-. discriminate. }
    destruct (truthy ticker) eqn:Ht; cbn [negb] in E.
    2:{ injection E as <- _. simpl in Hbody. injection Hbody as <-. discriminate. }
    rewrite str_or_truthy in E by (now apply truthy_nonempty).
    unfold bind in E.
    destruct (fetchKalshiEvent env ticker []) as [[[ev|]|e] tr1] eqn:Hf;
      try discriminate.
    2:{ injection E as <- _. simpl in Hbody. injection Hbody as <-. discriminate. }
    exists ticker, ev, tr1. repeat split; assumption.
Qed.

Lemma num_or_truthy (a : option number) : num_truthy (num_or a 50) = true.
Proof.
  unfold num_or. destruct a as [x|]; [|reflexivity].
  destruct (num_truthy x) eqn:E; [exact E | reflexivity].
Qed.

(** In every analysis the handler returns, the record in the slot
    of the source venue describes the event that was fetched for the
    requested URL: it is tagged with that venue, its name and its
    identifier are the title of the event, which is not empty, its
    raw data are the title and the markets of the event, of which
    there is at least one, and its [yesPrice] is never 0 nor [NaN].
    Its [url] is the requested URL on the early exit, and the empty
    string after the Judge. *)
Theorem source_record_describes_event env req resp tr r a :
  run (handler env req) = (Ok resp, tr) ->
  body resp = Some r ->
  data r = Some a ->
  exists p id ev tr1 d,
    detectPlatform (url_requested req) = Some p
    /\ identifier env p (url_requested req) = Some id
    /\ fetchEvent env p id [] = (Ok (Some ev), tr1)
    /\ markets ev <> []
    /\ sourceSlot p a = SlotLocal d
    /\ md_source d = p
    /\ md_name d = eventTitle ev
    /\ md_identifier d = eventTitle ev
    /\ md_name d <> []
    /\ md_rawData d = Some {| raw_eventTitle := eventTitle ev;
                              raw_markets := markets ev |}
    /\ num_truthy (md_yesPrice d) = true
    /\ ((md_url d = url_requested req /\ matchedSlot p a = SlotUnset)
        \/ md_url d = []).
Proof.
  intros Hrun Hbody Hdata.
  destruct (handler_success env req resp tr r a Hrun Hbody Hdata)
    as (p & id & ev & tr1 & Hp & Hid & Hfetch & Hafter).
  pose proof (fetchEvent_source env p id [] ev tr1 Hfetch) as Hsource.
  pose proof (fetchEvent_named env p id [] ev tr1
                (identifier_nonempty _ _ _ _ Hid) Hfetch) as Hname.
  destruct (afterFetch_success env _ _ p ev tr1 resp tr r a Hafter Hbody Hdata)
    as [Hm [(query & -> & _) | (results & analyzed & tr3 & Han & -> & _)]].
  - destruct (noMatchAnalysis_slots ev p (url_requested req) query) as [Hs Hu].
    exists p, id, ev, tr1. eexists.
    repeat (split; [first [eassumption | reflexivity]|]).
    cbn [md_source md_name md_identifier md_rawData md_yesPrice md_url].
    repeat (split; [first [assumption | reflexivity | apply num_or_truthy]|]).
    left. split; [reflexivity | exact Hu].
  - destruct (analyzeArbitrage_slots env ev results (opposite p) _ tr3 analyzed tr Han)
      as (Hs & _).
    rewrite Hsource in Hs.
    exists p, id, ev, tr1, (sourceProjection ev).
    repeat (split; [first [eassumption | reflexivity]|]).
    cbn [sourceProjection md_source md_name md_identifier md_rawData md_yesPrice md_url].
    repeat (split; [first [assumption | reflexivity | apply num_or_truthy]|]).
    now right.
Qed.

(** The request for the Fed event returns an analysis. *)
Lemma fed_run :
  exists resp tr r a,
    run (handler (fed_env fed_search (lit "fed rates") unbalanced_verdict)
           (post fed_url (lit "grok-4"))) = (Ok resp, tr)
    /\ body resp = Some r
    /\ data r = Some a.
Proof.
  destruct unbalanced_run as (resp & tr & r & a & Hrun & Hbody & Hdata & _).
  now exists resp, tr, r, a.
Qed.

(** The request for the Fed event. *)
Lemma source_record_describes_event_witness :
  exists resp tr r a,
    run (handler (fed_env fed_search (lit "fed rates") unbalanced_verdict)
           (post fed_url (lit "grok-4"))) = (Ok resp, tr)
    /\ body resp = Some r
    /\ data r = Some a
    /\ exists p d, sourceSlot p a = SlotLocal d /\ md_name d <> []
                   /\ num_truthy (md_yesPrice d) = true.
Proof.
  destruct fed_run as (resp & tr & r & a & Hrun & Hbody & Hdata).
  exists resp, tr, r, a. repeat split; try assumption.
  destruct (source_record_describes_event
              (fed_env fed_search (lit "fed rates") unbalanced_verdict)
              (post fed_url (lit "grok-4")) resp tr r a Hrun Hbody Hdata)
    as (p & id & ev & tr1 & d & _ & _ & _ & _ & Hs & _ & _ & _ & Hn & _ & Ht & _).
  now exists p, d.
Defined.

Lemma source_name_opposite (p : ArbitrageMarketSource) :
  source_name p <> source_name (opposite p).
Proof. destruct p; discriminate. Qed.

(** The metadata of a success name the venue of the URL as source
    and the other venue as searched, so the two always differ.  On
    the early exit the model is the requested one and no token count
    is given; after the Judge, both are what the backend reported. *)
Theorem success_metadata env req resp tr r a :
  run (handler env req) = (Ok resp, tr) ->
  body resp = Some r ->
  data r = Some a ->
  exists p m,
    detectPlatform (url_requested req) = Some p
    /\ status resp = 200%Z
    /\ metadata r = Some m
    /\ meta_sourceMarket m = source_name p
    /\ meta_searchedMarket m = source_name (opposite p)
    /\ meta_sourceMarket m <> meta_searchedMarket m
    /\ ((meta_model m = ai_model_requested req
         /\ meta_tokensUsed m = None
         /\ matchedSlot p a = SlotUnset)
        \/ exists ev results response,
             judgeAnswer env ev results (opposite p) (ai_model_requested req) = Ok response
             /\ meta_model m = ai_model response
             /\ meta_tokensUsed m = ai_total_tokens response).
Proof.
  intros Hrun Hbody Hdata.
  destruct (handler_success env req resp tr r a Hrun Hbody Hdata)
    as (p & id & ev & tr1 & Hp & Hid & Hfetch & Hafter).
  destruct (afterFetch_success env _ _ p ev tr1 resp tr r a Hafter Hbody Hdata)
    as [Hm [(query & Ha & ->) | (results & analyzed & tr3 & Han & Ha & ->)]];
    cbn [succeed body] in Hbody; injection Hbody as <-;
    exists p; eexists;
    (split; [exact Hp|]); (split; [reflexivity|]); (split; [reflexivity|]);
    cbn [meta_model meta_tokensUsed meta_sourceMarket meta_searchedMarket];
    (split; [reflexivity|]); (split; [reflexivity|]);
    (split; [apply source_name_opposite|]).
  - left. split; [reflexivity|]. split; [reflexivity|].
    rewrite Ha. apply noMatchAnalysis_slots.
  - right. destruct (analyzeArbitrage_metadata _ _ _ _ _ _ _ _ Han)
      as (response & Hj & Hmod & Htok).
    now exists ev, results, response.
Qed.

(** The request for the Fed event. *)
Lemma success_metadata_witness :
  exists resp tr r a,
    run (handler (fed_env fed_search (lit "fed rates") unbalanced_verdict)
           (post fed_url (lit "grok-4"))) = (Ok resp, tr)
    /\ body resp = Some r
    /\ data r = Some a
    /\ exists m, metadata r = Some m /\ meta_sourceMarket m <> meta_searchedMarket m.
Proof.
  destruct fed_run as (resp & tr & r & a & Hrun & Hbody & Hdata).
  exists resp, tr, r, a. repeat split; try assumption.
  destruct (success_metadata
              (fed_env fed_search (lit "fed rates") unbalanced_verdict)
              (post fed_url (lit "grok-4")) resp tr r a Hrun Hbody Hdata)
    as (p & m & _ & _ & Hm & _ & _ & Hne & _).
  now exists m.
Defined.

